(** * AI-Tourism-Guide: itinerary permissions, collaboration and ingestion

    A shallow embedding of the API route handlers of the application and
    of the membership tests of its itinerary page:

      - [ItineraryById]:  [pages/api/itineraries/[id].ts], GET, PUT and
        DELETE of one itinerary;
      - [Collaborate]:    [pages/api/itineraries/[id]/collaborate.ts],
        lines 9-106, adding and removing a collaborator;
      - [Generate]:       the generation handler (same file, lines
        115-270), with the parse fallback of lines 181-206;
      - [ItineraryIndex]: the list and manual-creation handler (same
        file, lines 278-328);
      - [Detail]:         [isOwner] and [isCollaborator] of the component
        [ItineraryDetail] ([pages/create.tsx], lines 376-379).

    They are followed by the properties of the permission resolver, the
    collaboration manager and the ingestion pipeline.

    Conventions.  A JavaScript string is the list of its UTF-16 code
    units ([Text]).  An [await]ed call that may reject returns a [Result];
    a [try]/[catch] is a [match] on it.  The document store is passed
    explicitly: a handler maps the store before the request to the
    response and the store after it. *)

From Stdlib Require Import List String Ascii NArith Bool Arith Lia.
From Stdlib Require Import Permutation Sorting.Sorted.
Import ListNotations.
Open Scope string_scope.
Open Scope list_scope.

Set Warnings "-register-all".

(* ================================================================= *)
(** ** JavaScript strings *)

Definition Text := list N.

(** The text of an ASCII literal. *)
Definition txt (s : string) : Text :=
  map N_of_ascii (list_ascii_of_string s).

Fixpoint text_eqb (a b : Text) : bool :=
  match a, b with
  | [], [] => true
  | x :: a', y :: b' => N.eqb x y && text_eqb a' b'
  | _, _ => false
  end.

(* ================================================================= *)
(** ** Values carried by request bodies and produced by [JSON.parse]

    A number keeps its lexeme: no claim below depends on floating
    point.  An object is the list of its members in insertion order,
    with one entry per key. *)

Inductive JSON : Type :=
| JNull
| JBool (b : bool)
| JNumber (lexeme : Text)
| JString (s : Text)
| JArray (items : list JSON)
| JObject (members : list (Text * JSON)).

(** A JavaScript value that may be [undefined]. *)
Definition JSValue := option JSON.

(* ================================================================= *)
(** ** Rejections and exceptions *)

Inductive Error : Type :=
| CastError          (* Mongoose could not cast a value to the path's type *)
| ValidationError    (* the schema's validators rejected the document *)
| TypeError          (* property access on [null] *)
| UpstreamError      (* the generation client rejected *)
| ParseFailure (noJsonFound : bool)
| MissingDays
| NoDays.

Inductive Result (A : Type) : Type :=
| Ok (a : A)
| Throw (e : Error).

Arguments Ok {A} a.
Arguments Throw {A} e.

Definition bind {A B} (r : Result A) (k : A -> Result B) : Result B :=
  match r with
  | Ok a => k a
  | Throw e => Throw e
  end.

Notation "x <- r ;; k" := (bind r (fun x => k))
  (at level 61, r at next level, right associativity).

Fixpoint mapM {A B} (f : A -> Result B) (l : list A) : Result (list B) :=
  match l with
  | [] => Ok []
  | a :: l' => b <- f a ;; bs <- mapM f l' ;; Ok (b :: bs)
  end.

(* ================================================================= *)
(** ** Object identifiers

    An [ObjectId] is represented by its canonical rendering, the 24
    lower-case hexadecimal digits that [toString()] returns.  Mongoose
    casts a string to an [ObjectId] when it is used at an [ObjectId]
    path of a filter or a document. *)

Record ObjectId : Type := ObjId { toString : Text }.

Definition oid_eqb (a b : ObjectId) : bool :=
  text_eqb (toString a) (toString b).

Definition isDigit (c : N) : bool := (48 <=? c)%N && (c <=? 57)%N.
Definition isLowerHexLetter (c : N) : bool := (97 <=? c)%N && (c <=? 102)%N.
Definition isUpperHexLetter (c : N) : bool := (65 <=? c)%N && (c <=? 70)%N.

Definition isHexDigit (c : N) : bool :=
  isDigit c || isLowerHexLetter c || isUpperHexLetter c.

Definition hexToLower (c : N) : N :=
  if isUpperHexLetter c then (c + 32)%N else c.

Definition castObjectId (v : Text) : Result ObjectId :=
  if (List.length v =? 24)%nat && forallb isHexDigit v
  then Ok (ObjId (map hexToLower v))
  else Throw CastError.

(** The identifiers the store and the identity provider hand out. *)
Definition canonical (o : ObjectId) : bool :=
  (List.length (toString o) =? 24)%nat
  && forallb (fun c => isDigit c || isLowerHexLetter c) (toString o).

(* ================================================================= *)
(** ** Documents *)

Module User.
(** [models/User.ts], interface [IUser]. *)
Record t : Type := Build {
  _id : ObjectId;
  name : Text;
  email : Text;
  password : Text;
  image : option Text
}.
End User.

Module Path.
(** The content paths of the itinerary schema. *)
Inductive t : Type :=
| title | destination | totalDays | budget | interests | days | summary.

Definition all : list t :=
  [title; destination; totalDays; budget; interests; days; summary].
End Path.

Module Itinerary.
(** A stored itinerary: its identifier, its owner, its content paths,
    its sharing state and its creation time.  The two paths that
    Mongoose keeps for its own bookkeeping, [updatedAt] and the version
    key [__v], are left out: no handler reads them, and an equation
    between two stores below speaks of the paths of this record only. *)
Record t : Type := Build {
  _id : ObjectId;
  userId : ObjectId;
  title : JSValue;
  destination : JSValue;
  totalDays : JSValue;
  budget : JSValue;
  interests : JSValue;
  days : JSValue;
  summary : JSValue;
  collaborators : list ObjectId;
  isPublic : bool;
  createdAt : nat
}.

Definition with_collaborators (cs : list ObjectId) (it : t) : t :=
  Build (_id it) (userId it) (title it) (destination it) (totalDays it)
        (budget it) (interests it) (days it) (summary it)
        cs (isPublic it) (createdAt it).

(** The value stored at a content path. *)
Definition content (it : t) (p : Path.t) : JSValue :=
  match p with
  | Path.title => title it
  | Path.destination => destination it
  | Path.totalDays => totalDays it
  | Path.budget => budget it
  | Path.interests => interests it
  | Path.days => days it
  | Path.summary => summary it
  end.
End Itinerary.

Module Fields.
(** A plain object handed to [Itinerary.create] or used as an update:
    its values at the paths of the itinerary schema, [None] where the
    object has no such key.  The other keys of such an object are
    dropped by Mongoose's strict mode and are not represented.  An
    object that has update operators among its keys ([$set], [$inc],
    ...) or that sets a path Mongoose manages itself ([_id],
    [createdAt], [updatedAt], [__v]) is not of this form. *)
Record t : Type := Build {
  userId : option Text;
  title : JSValue;
  destination : JSValue;
  totalDays : JSValue;
  budget : JSValue;
  interests : JSValue;
  days : JSValue;
  summary : JSValue;
  collaborators : option (list Text);
  isPublic : option bool
}.

(** [{ ...o, userId: v }] *)
Definition spread_with_userId (o : t) (v : Text) : t :=
  Build (Some v) (title o) (destination o) (totalDays o) (budget o)
        (interests o) (days o) (summary o) (collaborators o) (isPublic o).

(** The value the object has at a content path. *)
Definition content (o : t) (p : Path.t) : JSValue :=
  match p with
  | Path.title => title o
  | Path.destination => destination o
  | Path.totalDays => totalDays o
  | Path.budget => budget o
  | Path.interests => interests o
  | Path.days => days o
  | Path.summary => summary o
  end.
End Fields.

(** What [models/Itinerary.ts] declares and the handlers rely on.  That
    file is not among the sources, so the types, the defaults and the
    validators of the content paths are parameters of the store
    operations.

    A value is stored as its cast to the type of its path ([cast]).  A
    new document with a value that cannot be cast fails validation, so
    for a new document [validate] covers the casts as well as the
    validators.  An update with such a value is rejected with a
    [CastError] before the validators run ([castable], then
    [validateUpdate]). *)
Record Schema : Type := {
  castable : Path.t -> JSON -> bool;
  cast : Path.t -> JSON -> JSON;
  defaultOf : Path.t -> JSValue;      (* of a path a new document omits *)
  validate : Fields.t -> bool;        (* on a new document *)
  validateUpdate : Fields.t -> bool   (* [runValidators] on an update *)
}.

Record Store : Type := {
  users : list User.t;
  itineraries : list Itinerary.t
}.

Definition with_itineraries (l : list Itinerary.t) (db : Store) : Store :=
  {| users := users db; itineraries := l |}.

(* ================================================================= *)
(** ** Query filters

    A filter object is the list of its conditions, all of which must
    hold; [$or] holds when one of its alternatives does.  Identifiers
    occur in a filter as the handler wrote them ([I := Text]) and are
    cast before the filter is evaluated ([I := ObjectId]). *)

Inductive Cond (I : Type) : Type :=
| c_id (v : I)
| c_userId (v : I)
| c_collaborators (v : I)
| c_isPublic (b : bool)
| c_or (alternatives : list (Cond I)).

Arguments c_id {I} v.
Arguments c_userId {I} v.
Arguments c_collaborators {I} v.
Arguments c_isPublic {I} b.
Arguments c_or {I} alternatives.

Definition Filter (I : Type) := list (Cond I).

Fixpoint castCond (c : Cond Text) : Result (Cond ObjectId) :=
  match c with
  | c_id v => o <- castObjectId v ;; Ok (c_id o)
  | c_userId v => o <- castObjectId v ;; Ok (c_userId o)
  | c_collaborators v => o <- castObjectId v ;; Ok (c_collaborators o)
  | c_isPublic b => Ok (c_isPublic b)
  | c_or cs =>
      cs' <- (fix go (l : list (Cond Text)) : Result (list (Cond ObjectId)) :=
                match l with
                | [] => Ok []
                | c' :: l' => d <- castCond c' ;; ds <- go l' ;; Ok (d :: ds)
                end) cs ;;
      Ok (c_or cs')
  end.

Definition castFilter (f : Filter Text) : Result (Filter ObjectId) :=
  mapM castCond f.

Fixpoint holds (c : Cond ObjectId) (it : Itinerary.t) : bool :=
  match c with
  | c_id v => oid_eqb (Itinerary._id it) v
  | c_userId v => oid_eqb (Itinerary.userId it) v
  | c_collaborators v => existsb (fun c' => oid_eqb c' v) (Itinerary.collaborators it)
  | c_isPublic b => Bool.eqb (Itinerary.isPublic it) b
  | c_or cs =>
      (fix any (l : list (Cond ObjectId)) : bool :=
         match l with
         | [] => false
         | c' :: l' => holds c' it || any l'
         end) cs
  end.

Definition matches (f : Filter ObjectId) (it : Itinerary.t) : bool :=
  forallb (fun c => holds c it) f.

(** The filters the handlers build, once cast. *)
Definition may_read (i u : ObjectId) : Filter ObjectId :=
  [c_id i; c_or [c_userId u; c_collaborators u; c_isPublic true]].

Definition may_edit (i u : ObjectId) : Filter ObjectId :=
  [c_id i; c_or [c_userId u; c_collaborators u]].

Definition may_administer (i u : ObjectId) : Filter ObjectId :=
  [c_id i; c_userId u].

Definition mine_or_shared (u : ObjectId) : Filter ObjectId :=
  [c_or [c_userId u; c_collaborators u]].

(* ================================================================= *)
(** ** Store operations (the Mongoose model API the handlers call) *)

(** Replaces the first document that satisfies [p]. *)
Fixpoint replace_first {A} (p : A -> bool) (f : A -> A) (l : list A) : list A :=
  match l with
  | [] => []
  | x :: l' => if p x then f x :: l' else x :: replace_first p f l'
  end.

Fixpoint remove_first {A} (p : A -> bool) (l : list A) : list A :=
  match l with
  | [] => []
  | x :: l' => if p x then l' else x :: remove_first p l'
  end.

Definition has_id (i : ObjectId) (it : Itinerary.t) : bool :=
  oid_eqb (Itinerary._id it) i.

Definition Itinerary_findOne (f : Filter Text) (db : Store)
  : Result (option Itinerary.t) :=
  q <- castFilter f ;;
  Ok (find (matches q) (itineraries db)).

Definition Itinerary_find (f : Filter Text) (db : Store)
  : Result (list Itinerary.t) :=
  q <- castFilter f ;;
  Ok (filter (matches q) (itineraries db)).

Definition Itinerary_findById (id : Text) (db : Store)
  : Result (option Itinerary.t) :=
  i <- castObjectId id ;;
  Ok (find (has_id i) (itineraries db)).

Definition castOpt {A B} (f : A -> Result B) (v : option A) : Result (option B) :=
  match v with
  | None => Ok None
  | Some a => b <- f a ;; Ok (Some b)
  end.

Definition or_else {A} (v : option A) (d : A) : A :=
  match v with Some a => a | None => d end.

Definition js_assign (new old : JSValue) : JSValue :=
  match new with Some _ => new | None => old end.

(** Modelled from the spec: the default of the [collaborators] path,
    declared in [models/Itinerary.ts], which is not among the sources.
    Per the lifecycle of an itinerary (specification, section 3) it is
    created with an empty collaborator set. *)
Definition default_collaborators : list Text := [].

(** Modelled from the spec: the default of the [isPublic] path, declared
    in [models/Itinerary.ts], which is not among the sources.  Per the
    lifecycle of an itinerary (specification, section 3) it is created
    with [isPublic = false]. *)
Definition default_isPublic : bool := false.

(** Modelled from the spec: the [immutable] option of the [userId] path,
    declared in [models/Itinerary.ts], which is not among the sources.
    Per the data model (specification, section 3) the owning user
    identifier of an itinerary is immutable after creation. *)
Definition userId_immutable : bool := true.

(** A failed cast is reported by the validation of a new document. *)
Definition as_validation {A} (r : Result A) : Result A :=
  match r with
  | Ok a => Ok a
  | Throw _ => Throw ValidationError
  end.

(** What a new document holds at a content path: the cast of the value
    supplied, or the default of the path. *)
Definition stored_value (sch : Schema) (p : Path.t) (v : JSValue) : JSValue :=
  match v with
  | Some x => Some (cast sch p x)
  | None => defaultOf sch p
  end.

Definition new_content (sch : Schema) (doc : Fields.t) (p : Path.t) : JSValue :=
  stored_value sch p (Fields.content doc p).

(** [Itinerary.create(doc)]: casts the values, runs the validators,
    fills the defaults and inserts.  The new document's [_id] and
    creation time come from the driver. *)
Definition Itinerary_create (sch : Schema) (fresh : ObjectId) (now : nat)
    (doc : Fields.t) (db : Store) : Result (Itinerary.t * Store) :=
  match Fields.userId doc with
  | None => Throw ValidationError
  | Some owner =>
      o <- as_validation (castObjectId owner) ;;
      cs <- as_validation
              (mapM castObjectId
                 (or_else (Fields.collaborators doc) default_collaborators)) ;;
      if validate sch doc then
        let it := Itinerary.Build fresh o
                    (new_content sch doc Path.title)
                    (new_content sch doc Path.destination)
                    (new_content sch doc Path.totalDays)
                    (new_content sch doc Path.budget)
                    (new_content sch doc Path.interests)
                    (new_content sch doc Path.days)
                    (new_content sch doc Path.summary)
                    cs (or_else (Fields.isPublic doc) default_isPublic) now in
        Ok (it, with_itineraries (itineraries db ++ [it]) db)
      else Throw ValidationError
  end.

(** Whether every content value of an update can be cast. *)
Definition content_castable (sch : Schema) (upd : Fields.t) : bool :=
  forallb (fun p => match Fields.content upd p with
                    | Some v => castable sch p v
                    | None => true
                    end) Path.all.

(** What a document holds at a content path after the keys of an update
    have been [$set]. *)
Definition updated_content (sch : Schema) (upd : Fields.t) (it : Itinerary.t)
    (p : Path.t) : JSValue :=
  js_assign (option_map (cast sch p) (Fields.content upd p))
    (Itinerary.content it p).

(** The effect of [$set]ting the keys of an update on a document.
    Mongoose takes an immutable path out of the update. *)
Definition apply_update (sch : Schema) (owner : option ObjectId)
    (cs : option (list ObjectId)) (upd : Fields.t) (it : Itinerary.t)
  : Itinerary.t :=
  Itinerary.Build (Itinerary._id it)
    (if userId_immutable then Itinerary.userId it
     else or_else owner (Itinerary.userId it))
    (updated_content sch upd it Path.title)
    (updated_content sch upd it Path.destination)
    (updated_content sch upd it Path.totalDays)
    (updated_content sch upd it Path.budget)
    (updated_content sch upd it Path.interests)
    (updated_content sch upd it Path.days)
    (updated_content sch upd it Path.summary)
    (or_else cs (Itinerary.collaborators it))
    (or_else (Fields.isPublic upd) (Itinerary.isPublic it))
    (Itinerary.createdAt it).

(** [Itinerary.findByIdAndUpdate(id, update, { new: true, runValidators: true })] *)
Definition Itinerary_findByIdAndUpdate (sch : Schema) (id : Text)
    (upd : Fields.t) (db : Store) : Result (option Itinerary.t * Store) :=
  i <- castObjectId id ;;
  owner <- (if userId_immutable then Ok None
            else castOpt castObjectId (Fields.userId upd)) ;;
  cs <- castOpt (mapM castObjectId) (Fields.collaborators upd) ;;
  if content_castable sch upd then
    if validateUpdate sch upd then
      match find (has_id i) (itineraries db) with
      | None => Ok (None, db)
      | Some it =>
          Ok (Some (apply_update sch owner cs upd it),
              with_itineraries
                (replace_first (has_id i) (apply_update sch owner cs upd)
                   (itineraries db)) db)
      end
    else Throw ValidationError
  else Throw CastError.

(** [Itinerary.findByIdAndDelete(id)] *)
Definition Itinerary_findByIdAndDelete (id : Text) (db : Store) : Result Store :=
  i <- castObjectId id ;;
  Ok (with_itineraries (remove_first (has_id i) (itineraries db)) db).

(** [itinerary.save()] on a document loaded from the store. *)
Definition Itinerary_save (it : Itinerary.t) (db : Store) : Store :=
  with_itineraries
    (replace_first (has_id (Itinerary._id it)) (fun _ => it) (itineraries db)) db.

(* ================================================================= *)
(** ** Population of references *)

Record UserView : Type := {
  view_id : ObjectId;
  view_name : Text;
  view_email : Text
}.

Definition view (u : User.t) : UserView :=
  {| view_id := User._id u; view_name := User.name u; view_email := User.email u |}.

Definition User_findById (i : ObjectId) (db : Store) : option User.t :=
  find (fun u => oid_eqb (User._id u) i) (users db).

Record Populated : Type := {
  doc : Itinerary.t;
  owner : option UserView;
  collaborators : list UserView
}.

(** [.populate('userId', 'name email').populate('collaborators', 'name email')] *)
Definition populate (db : Store) (it : Itinerary.t) : Populated :=
  {| doc := it;
     owner := option_map view (User_findById (Itinerary.userId it) db);
     collaborators :=
       flat_map (fun c => match User_findById c db with
                          | Some u => [view u]
                          | None => []
                          end) (Itinerary.collaborators it) |}.

(* ================================================================= *)
(** ** Sessions and responses *)

Module Session.
Record User : Type := { id : Text }.
Record t : Type := { user : option User }.
End Session.

(** [!session || !session.user] fails exactly when this is [Some]. *)
Definition session_user (s : option Session.t) : option Session.User :=
  match s with
  | Some s' => Session.user s'
  | None => None
  end.

Definition signed_in (uid : Text) : option Session.t :=
  Some {| Session.user := Some {| Session.id := uid |} |}.

Inductive Body : Type :=
| message (m : string)
| error_message (e : Error)
| data (d : option Populated)
| data_list (ds : list Populated)
| data_created (it : Itinerary.t)
| success_message (m : string).

Record Response : Type := { status : nat; body : Body }.

Definition res (code : nat) (b : Body) : Response :=
  {| status := code; body := b |}.

(* ================================================================= *)
(** ** [pages/api/itineraries/[id].ts] *)

Module ItineraryById.
Section Handler.
Variable sch : Schema.

Definition handler (session : option Session.t) (method : string)
    (id : Text) (reqBody : Fields.t) (db : Store) : Response * Store :=
  match session_user session with
  | None => (res 401 (message "Unauthorized"), db)
  | Some user =>
    if method =? "GET" then
      match Itinerary_findOne
              [c_id id;
               c_or [c_userId (Session.id user);
                     c_collaborators (Session.id user);
                     c_isPublic true]] db with
      | Ok None => (res 404 (message "Itinerary not found"), db)
      | Ok (Some itinerary) =>
          (res 200 (data (Some (populate db itinerary))), db)
      | Throw e => (res 500 (error_message e), db)
      end
    else if method =? "PUT" then
      match Itinerary_findOne
              [c_id id;
               c_or [c_userId (Session.id user);
                     c_collaborators (Session.id user)]] db with
      | Ok None =>
          (res 404 (message "Itinerary not found or you do not have permission"), db)
      | Ok (Some _) =>
          match Itinerary_findByIdAndUpdate sch id reqBody db with
          | Ok (updatedItinerary, db') =>
              (res 200 (data (option_map (populate db') updatedItinerary)), db')
          | Throw e => (res 500 (error_message e), db)
          end
      | Throw e => (res 500 (error_message e), db)
      end
    else if method =? "DELETE" then
      match Itinerary_findOne
              [c_id id; c_userId (Session.id user)] db with
      | Ok None =>
          (res 404 (message "Itinerary not found or you do not have permission"), db)
      | Ok (Some _) =>
          match Itinerary_findByIdAndDelete id db with
          | Ok db' =>
              (res 200 (success_message "Itinerary deleted successfully"), db')
          | Throw e => (res 500 (error_message e), db)
          end
      | Throw e => (res 500 (error_message e), db)
      end
    else (res 405 (message "Method not allowed"), db)
  end.
End Handler.
End ItineraryById.

(* ================================================================= *)
(** ** [pages/api/itineraries/[id]/collaborate.ts], lines 9-106 *)

Module Collaborate.
(** The request body: [{ email }] for POST, [{ collaboratorId }] for
    DELETE. *)
Record Body : Type := {
  email : option Text;
  collaboratorId : option Text
}.

(** [!v] for a value that is a string or [undefined]. *)
Definition falsy (v : option Text) : bool :=
  match v with
  | None | Some [] => true
  | Some (_ :: _) => false
  end.

(** Line 50: the duplicate test, on the string forms of both sides. *)
Definition already_collaborator (collaborator : ObjectId)
    (collaborators : list ObjectId) : bool :=
  existsb (fun id' => text_eqb (toString id') (toString collaborator))
    collaborators.

Section Handler.
(** The cast Mongoose applies to a value used at the [email] path,
    which [models/User.ts] declares with [lowercase: true]. *)
Variable castEmail : Text -> Text.

Definition User_findOne (e : Text) (db : Store) : option User.t :=
  find (fun u => text_eqb (User.email u) (castEmail e)) (users db).

Definition handler (session : option Session.t) (method : string)
    (id : Text) (reqBody : Body) (db : Store) : Response * Store :=
  match session_user session with
  | None => (res 401 (message "Unauthorized"), db)
  | Some user =>
    if method =? "POST" then
      if falsy (email reqBody) then
        (res 400 (message "Please provide an email"), db)
      else
        match Itinerary_findOne
                [c_id id; c_userId (Session.id user)] db with
        | Ok None =>
            (res 404 (message "Itinerary not found or you do not have permission"), db)
        | Ok (Some itinerary) =>
            match User_findOne (or_else (email reqBody) []) db with
            | None => (res 404 (message "User not found"), db)
            | Some collaborator =>
                if text_eqb (toString (User._id collaborator)) (Session.id user)
                then (res 400 (message "You cannot add yourself as a collaborator"), db)
                else if already_collaborator (User._id collaborator)
                          (Itinerary.collaborators itinerary)
                then (res 400 (message "User is already a collaborator"), db)
                else
                  let saved :=
                    Itinerary.with_collaborators
                      (Itinerary.collaborators itinerary
                         ++ [User._id collaborator])
                      itinerary in
                  let db' := Itinerary_save saved db in
                  match Itinerary_findById id db' with
                  | Ok updatedItinerary =>
                      (res 200 (data (option_map (populate db') updatedItinerary)), db')
                  | Throw e => (res 500 (error_message e), db')
                  end
            end
        | Throw e => (res 500 (error_message e), db)
        end
    else if method =? "DELETE" then
      if falsy (collaboratorId reqBody) then
        (res 400 (message "Please provide a collaborator ID"), db)
      else
        match Itinerary_findOne
                [c_id id; c_userId (Session.id user)] db with
        | Ok None =>
            (res 404 (message "Itinerary not found or you do not have permission"), db)
        | Ok (Some itinerary) =>
            let saved :=
              Itinerary.with_collaborators
                (filter
                   (fun collabId =>
                      negb (text_eqb (toString collabId)
                              (or_else (collaboratorId reqBody) [])))
                   (Itinerary.collaborators itinerary))
                itinerary in
            let db' := Itinerary_save saved db in
            match Itinerary_findById id db' with
            | Ok updatedItinerary =>
                (res 200 (data (option_map (populate db') updatedItinerary)), db')
            | Throw e => (res 500 (error_message e), db')
            end
        | Throw e => (res 500 (error_message e), db)
        end
    else (res 405 (message "Method not allowed"), db)
  end.
End Handler.
End Collaborate.

(* ================================================================= *)
(** ** The list and manual-creation handler

    [pages/api/itineraries/[id]/collaborate.ts], lines 278-328. *)

Module ItineraryIndex.

(** [.sort({ createdAt: -1 })]: newest first. *)
Fixpoint insert_newest_first (x : Itinerary.t) (l : list Itinerary.t)
  : list Itinerary.t :=
  match l with
  | [] => [x]
  | y :: l' =>
      if (Itinerary.createdAt y <=? Itinerary.createdAt x)%nat
      then x :: y :: l'
      else y :: insert_newest_first x l'
  end.

Definition sort_createdAt_desc (l : list Itinerary.t) : list Itinerary.t :=
  fold_right insert_newest_first [] l.

Section Handler.
Variable sch : Schema.
(** The [_id] and the creation time the driver gives a new document. *)
Variable fresh : ObjectId.
Variable now : nat.

Definition handler (session : option Session.t) (method : string)
    (reqBody : Fields.t) (db : Store) : Response * Store :=
  match session_user session with
  | None => (res 401 (message "Unauthorized"), db)
  | Some user =>
    if method =? "GET" then
      match Itinerary_find
              [c_or [c_userId (Session.id user);
                     c_collaborators (Session.id user)]] db with
      | Ok itineraries =>
          (res 200 (data_list (map (populate db)
                                 (sort_createdAt_desc itineraries))), db)
      | Throw e => (res 500 (error_message e), db)
      end
    else if method =? "POST" then
      match Itinerary_create sch fresh now
              (Fields.spread_with_userId reqBody (Session.id user)) db with
      | Ok (itinerary, db') => (res 201 (data_created itinerary), db')
      | Throw e => (res 500 (error_message e), db)
      end
    else (res 405 (message "Method not allowed"), db)
  end.
End Handler.
End ItineraryIndex.

(* ================================================================= *)
(** ** [JSON.parse]

    The grammar of ECMA-404: the four whitespace characters, the three
    literals, numbers, strings with their escapes, arrays and objects.
    [None] stands for the [SyntaxError] that [JSON.parse] throws. *)

Module Json.

Definition char_is (c : N) (a : ascii) : bool := N.eqb c (N_of_ascii a).
Arguments char_is c a%_char.

Definition quote : N := 34.

Definition is_ws (c : N) : bool :=
  N.eqb c 32 || N.eqb c 9 || N.eqb c 10 || N.eqb c 13.

Fixpoint skip_ws (s : Text) : Text :=
  match s with
  | c :: t => if is_ws c then skip_ws t else s
  | [] => []
  end.

Fixpoint strip_prefix (p s : Text) : option Text :=
  match p, s with
  | [], _ => Some s
  | a :: p', b :: s' => if N.eqb a b then strip_prefix p' s' else None
  | _ :: _, [] => None
  end.

(** The longest prefix of digits, and what follows it. *)
Fixpoint digits (s : Text) : Text * Text :=
  match s with
  | c :: t =>
      if isDigit c then let (ds, rest) := digits t in (c :: ds, rest)
      else ([], s)
  | [] => ([], [])
  end.

(** A leading character that satisfies [p], if there is one. *)
Definition optional (p : N -> bool) (s : Text) : Text * Text :=
  match s with
  | c :: t => if p c then ([c], t) else ([], s)
  | [] => ([], s)
  end.

Definition number_int (s : Text) : option (Text * Text) :=
  match s with
  | c :: t =>
      if char_is c "0" then Some ([c], t)
      else if isDigit c then Some (digits s)
      else None
  | [] => None
  end.

Definition number_frac (s : Text) : option (Text * Text) :=
  match s with
  | c :: t =>
      if char_is c "." then
        match digits t with
        | ([], _) => None
        | (ds, rest) => Some (c :: ds, rest)
        end
      else Some ([], s)
  | [] => Some ([], [])
  end.

Definition number_exp (s : Text) : option (Text * Text) :=
  match s with
  | c :: t =>
      if char_is c "e" || char_is c "E" then
        let (sign, t') :=
          optional (fun d => char_is d "+" || char_is d "-") t in
        match digits t' with
        | ([], _) => None
        | (ds, rest) => Some (c :: sign ++ ds, rest)
        end
      else Some ([], s)
  | [] => Some ([], [])
  end.

(** [-? int frac? exp?]; the lexeme and the rest of the input. *)
Definition parse_number (s : Text) : option (Text * Text) :=
  let (sign, s1) := optional (fun c => char_is c "-") s in
  match number_int s1 with
  | None => None
  | Some (i, s2) =>
      match number_frac s2 with
      | None => None
      | Some (f, s3) =>
          match number_exp s3 with
          | None => None
          | Some (e, s4) => Some (sign ++ i ++ f ++ e, s4)
          end
      end
  end.

Definition hex_value (c : N) : N :=
  if isDigit c then c - 48
  else if isLowerHexLetter c then c - 87
  else c - 55.

Definition simple_escape (c : N) : option N :=
  if N.eqb c quote then Some quote
  else if char_is c "\" then Some (N_of_ascii "\")
  else if char_is c "/" then Some (N_of_ascii "/")
  else if char_is c "b" then Some 8%N
  else if char_is c "f" then Some 12%N
  else if char_is c "n" then Some 10%N
  else if char_is c "r" then Some 13%N
  else if char_is c "t" then Some 9%N
  else None.

(** The characters of a string literal after its opening quote, up to
    and including the closing quote. *)
Fixpoint parse_string_body (s : Text) (acc : Text) {struct s}
  : option (Text * Text) :=
  match s with
  | [] => None
  | c :: t =>
      if N.eqb c quote then Some (rev acc, t)
      else if char_is c "\" then
        match t with
        | [] => None
        | e :: t' =>
            if char_is e "u" then
              match t' with
              | h1 :: h2 :: h3 :: h4 :: t'' =>
                  if forallb isHexDigit [h1; h2; h3; h4] then
                    parse_string_body t''
                      ((4096 * hex_value h1 + 256 * hex_value h2
                        + 16 * hex_value h3 + hex_value h4)%N :: acc)
                  else None
              | _ => None
              end
            else
              match simple_escape e with
              | Some v => parse_string_body t' (v :: acc)
              | None => None
              end
        end
      else if (c <? 32)%N then None
      else parse_string_body t (c :: acc)
  end.

(** [o[k] = v] on the member list of an object. *)
Fixpoint set (k : Text) (v : JSON) (o : list (Text * JSON)) : list (Text * JSON) :=
  match o with
  | [] => [(k, v)]
  | (k', v') :: o' =>
      if text_eqb k' k then (k', v) :: o' else (k', v') :: set k v o'
  end.

Fixpoint get (k : Text) (o : list (Text * JSON)) : JSValue :=
  match o with
  | [] => None
  | (k', v) :: o' => if text_eqb k' k then Some v else get k o'
  end.

(** Recursive descent; every call spends one unit of [fuel]. *)
Fixpoint parse_value (fuel : nat) (s : Text) {struct fuel} : option (JSON * Text) :=
  match fuel with
  | O => None
  | S f =>
      match skip_ws s with
      | [] => None
      | c :: t =>
          if char_is c "{" then
            match skip_ws t with
            | c' :: t' =>
                if char_is c' "}" then Some (JObject [], t')
                else parse_members f (c' :: t') []
            | [] => None
            end
          else if char_is c "[" then
            match skip_ws t with
            | c' :: t' =>
                if char_is c' "]" then Some (JArray [], t')
                else parse_elements f (c' :: t') []
            | [] => None
            end
          else if N.eqb c quote then
            match parse_string_body t [] with
            | Some (str, rest) => Some (JString str, rest)
            | None => None
            end
          else if char_is c "t" then
            option_map (pair (JBool true)) (strip_prefix (txt "rue") t)
          else if char_is c "f" then
            option_map (pair (JBool false)) (strip_prefix (txt "alse") t)
          else if char_is c "n" then
            option_map (pair JNull) (strip_prefix (txt "ull") t)
          else
            match parse_number (c :: t) with
            | Some (lexeme, rest) => Some (JNumber lexeme, rest)
            | None => None
            end
      end
  end

with parse_elements (fuel : nat) (s : Text) (acc : list JSON) {struct fuel}
  : option (JSON * Text) :=
  match fuel with
  | O => None
  | S f =>
      match parse_value f s with
      | None => None
      | Some (v, rest) =>
          match skip_ws rest with
          | c :: t =>
              if char_is c "," then parse_elements f t (v :: acc)
              else if char_is c "]" then Some (JArray (rev (v :: acc)), t)
              else None
          | [] => None
          end
      end
  end

with parse_members (fuel : nat) (s : Text) (acc : list (Text * JSON)) {struct fuel}
  : option (JSON * Text) :=
  match fuel with
  | O => None
  | S f =>
      match skip_ws s with
      | c :: t =>
          if N.eqb c quote then
            match parse_string_body t [] with
            | None => None
            | Some (k, rest) =>
                match skip_ws rest with
                | c' :: t' =>
                    if char_is c' ":" then
                      match parse_value f t' with
                      | None => None
                      | Some (v, rest') =>
                          match skip_ws rest' with
                          | c'' :: t'' =>
                              if char_is c'' "," then
                                parse_members f t'' (set k v acc)
                              else if char_is c'' "}" then
                                Some (JObject (set k v acc), t'')
                              else None
                          | [] => None
                          end
                      end
                    else None
                | [] => None
                end
            end
          else None
      | [] => None
      end
  end.

(** [JSON.parse(s)].  Every nested call that succeeds has consumed a
    character, so the length of the text is fuel enough. *)
Definition parse (s : Text) : option JSON :=
  match parse_value (S (List.length s)) s with
  | Some (v, rest) =>
      match skip_ws rest with
      | [] => Some v
      | _ :: _ => None
      end
  | None => None
  end.

End Json.

(* ================================================================= *)
(** ** The generation handler

    [pages/api/itineraries/[id]/collaborate.ts], lines 115-270. *)

Module Generate.

(** *** The string operations of the parse fallback *)

(** [s.replace(/<lit>\n?/g, '')] for a non-empty literal: every
    occurrence of [lit], with the line feed that may follow it, is
    removed, scanning from the left and resuming after each match.
    [skip] counts the characters of the current match still to drop. *)
Fixpoint remove_all (lit : Text) (skip : nat) (s : Text) {struct s} : Text :=
  match s with
  | [] => []
  | c :: t =>
      match skip with
      | S k => remove_all lit k t
      | O =>
          match Json.strip_prefix lit s with
          | Some rest =>
              let n := match rest with
                       | d :: _ => if N.eqb d 10 then S (List.length lit)
                                   else List.length lit
                       | [] => List.length lit
                       end in
              remove_all lit (pred n) t
          | None => c :: remove_all lit 0 t
          end
      end
  end.

(** WhiteSpace and LineTerminator of ECMA-262, which [trim] strips. *)
Definition is_space (c : N) : bool :=
  existsb (N.eqb c)
    [9; 10; 11; 12; 13; 32; 160; 5760; 8232; 8233; 8239; 8287; 12288; 65279]%N
  || ((8192 <=? c)%N && (c <=? 8202)%N).

Fixpoint trimStart (s : Text) : Text :=
  match s with
  | c :: t => if is_space c then trimStart t else s
  | [] => []
  end.

Definition trim (s : Text) : Text :=
  rev (trimStart (rev (trimStart s))).

Definition open_brace : N := N_of_ascii "{".
Definition close_brace : N := N_of_ascii "}".

(** The longest prefix of [s] that ends with a closing brace. *)
Fixpoint up_to_last_brace (s : Text) : option Text :=
  match s with
  | [] => None
  | c :: t =>
      match up_to_last_brace t with
      | Some m => Some (c :: m)
      | None => if Json.char_is c "}" then Some [c] else None
      end
  end.

(** [s.match(/\{[\s\S]*\}/)]: the leftmost match, the star being
    greedy; [jsonMatch[0]] when there is one. *)
Fixpoint match_braces (s : Text) : option Text :=
  match s with
  | [] => None
  | c :: t =>
      if Json.char_is c "{" then
        match up_to_last_brace t with
        | Some m => Some (c :: m)
        | None => match_braces t
        end
      else match_braces t
  end.

Definition clean (itineraryData : Text) : Text :=
  trim (remove_all (txt "```") 0 (remove_all (txt "```json") 0 itineraryData)).

(** Lines 181-206: [JSON.parse], and on failure the clean-up and the
    extraction of a JSON object. *)
Definition parseItineraryData (itineraryData : Text) : Result JSON :=
  match Json.parse itineraryData with
  | Some parsedData => Ok parsedData
  | None =>
      let cleanedData := clean itineraryData in
      match match_braces cleanedData with
      | Some jsonMatch =>
          match Json.parse jsonMatch with
          | Some parsedData => Ok parsedData
          | None => Throw (ParseFailure false)
          end
      | None => Throw (ParseFailure true)
      end
  end.

(** *** The three stages as the specification words them *)









(** *** The handler *)

Record Body : Type := {
  destination : JSValue;
  days : JSValue;
  budget : JSValue;
  interests : JSValue
}.

(** [v.k]: a [TypeError] on [null], [undefined] on the other values that
    are not objects. *)
Definition prop (v : JSON) (k : string) : Result JSValue :=
  match v with
  | JNull => Throw TypeError
  | JObject members => Ok (Json.get (txt k) members)
  | _ => Ok None
  end.

Definition isArray (v : JSValue) : bool :=
  match v with
  | Some (JArray _) => true
  | _ => false
  end.

Definition array_length (v : JSValue) : nat :=
  match v with
  | Some (JArray items) => List.length items
  | _ => 0
  end.

Section Handler.
Variable sch : Schema.
Variable fresh : ObjectId.
Variable now : nat.
(** Whether a number is [0]; the template literal of the title;
    [parseInt].  Their results on arbitrary values are those of the
    JavaScript engine. *)
Variable isZero : Text -> bool.
Variable titleOf : JSValue -> JSValue -> JSValue.
Variable parseInt : JSValue -> JSValue.
(** [lib/gemini.ts], the generation client. *)
Variable generateItinerary : JSValue -> JSValue -> JSValue -> JSValue -> Result Text.

Definition truthy (v : JSValue) : bool :=
  match v with
  | None | Some JNull => false
  | Some (JBool b) => b
  | Some (JNumber lexeme) => negb (isZero lexeme)
  | Some (JString s) => match s with [] => false | _ :: _ => true end
  | Some (JArray _) | Some (JObject _) => true
  end.

(** [a || b] *)
Definition js_or (a b : JSValue) : JSValue :=
  if truthy a then a else b.

Definition default_summary (budget : JSValue) : JSON :=
  JObject
    ((match budget with
      | Some b => [(txt "totalEstimatedCost", b)]
      | None => []
      end)
     ++ [(txt "highlights", JArray []); (txt "tips", JArray [])]).

Definition handler (session : option Session.t) (method : string)
    (reqBody : Body) (dbConnect : Result unit) (db : Store)
  : Response * Store :=
  if negb (method =? "POST") then
    (res 405 (message "Method not allowed"), db)
  else
    let attempt : Result (Response * Store) :=
      match session_user session with
      | None => Ok (res 401 (message "Unauthorized"), db)
      | Some user =>
          if negb (truthy (destination reqBody))
             || negb (truthy (days reqBody))
             || negb (truthy (budget reqBody))
          then Ok (res 400 (message "Please provide destination, days, and budget"), db)
          else
            match dbConnect with
            | Throw dbError => Ok (res 500 (error_message dbError), db)
            | Ok _ =>
                itineraryData <-
                  generateItinerary (destination reqBody)
                    (parseInt (days reqBody)) (budget reqBody)
                    (js_or (interests reqBody) (Some (JArray []))) ;;
                parsedData <- parseItineraryData itineraryData ;;
                parsedDays <- prop parsedData "days" ;;
                if negb (truthy parsedDays) || negb (isArray parsedDays)
                then Throw MissingDays
                else if (array_length parsedDays =? 0)%nat then Throw NoDays
                else
                  parsedDestination <- prop parsedData "destination" ;;
                  parsedTotalDays <- prop parsedData "totalDays" ;;
                  parsedBudget <- prop parsedData "budget" ;;
                  parsedInterests <- prop parsedData "interests" ;;
                  parsedSummary <- prop parsedData "summary" ;;
                  created <-
                    Itinerary_create sch fresh now
                      (Fields.Build
                         (Some (Session.id user))
                         (titleOf (destination reqBody) (days reqBody))
                         (js_or parsedDestination (destination reqBody))
                         (js_or parsedTotalDays (parseInt (days reqBody)))
                         (js_or parsedBudget (budget reqBody))
                         (js_or (js_or parsedInterests (interests reqBody))
                            (Some (JArray [])))
                         (js_or parsedDays (Some (JArray [])))
                         (js_or parsedSummary
                            (Some (default_summary (budget reqBody))))
                         (Some [])
                         (Some false))
                      db ;;
                  Ok (res 201 (data_created (fst created)), snd created)
            end
      end in
    match attempt with
    | Ok r => r
    | Throw error => (res 500 (error_message error), db)
    end.
End Handler.
End Generate.

(* ================================================================= *)
(** ** The membership tests of the itinerary page

    [pages/create.tsx], component [ItineraryDetail], lines 376-379. *)

Module Detail.

(** An identifier as the page receives it in the JSON response: the
    identifier itself, or the populated user record. *)
Inductive IdValue : Type :=
| Reference (id : Text)
| Expanded (_id : option Text) (name email : Text).

Record Itinerary : Type := {
  userId : option IdValue;
  collaborators : option (list IdValue)
}.

(** [v.toString()] *)
Definition js_toString (v : IdValue) : Text :=
  match v with
  | Reference id => id
  | Expanded _ _ _ => txt "[object Object]"
  end.

(** [typeof v === 'object'] *)
Definition is_object (v : IdValue) : bool :=
  match v with
  | Reference _ => false
  | Expanded _ _ _ => true
  end.

(** [v._id?.toString()] *)
Definition _id_toString (v : IdValue) : option Text :=
  match v with
  | Reference _ => None
  | Expanded i _ _ => i
  end.

(** [a === b] on values that are strings or [undefined]. *)
Definition strict_eq (a b : option Text) : bool :=
  match a, b with
  | Some x, Some y => text_eqb x y
  | None, None => true
  | _, _ => false
  end.

(** The callback of [collaborators.some(...)]; [sid] is
    [session?.user?.id]. *)
Definition same_user (sid : option Text) (collab : IdValue) : bool :=
  strict_eq (Some (js_toString collab)) sid
  || (is_object collab && strict_eq (_id_toString collab) sid).

Definition isOwner (itinerary : option Itinerary) (sid : option Text) : bool :=
  match itinerary with
  | None => false
  | Some it => strict_eq sid (option_map js_toString (userId it))
  end.

Definition isCollaborator (itinerary : option Itinerary) (sid : option Text) : bool :=
  match itinerary with
  | None => false
  | Some it =>
      match collaborators it with
      | None => false
      | Some cs => existsb (same_user sid) cs
      end
  end.

(** The identifier an [IdValue] stands for. *)
Definition normalize (v : IdValue) : option Text :=
  match v with
  | Reference id => Some id
  | Expanded i _ _ => i
  end.

End Detail.

(* ================================================================= *)
(** ** The creation form

    [pages/create.tsx], component [Create], lines 23-90. *)

Module Create.

(** The state [formData]; the inputs of the form hold strings. *)
Record FormData : Type := {
  destination : Text;
  days : Text;
  budget : Text;
  interests : list Text
}.

(** [l.includes(x)] *)
Definition includes (l : list Text) (x : Text) : bool :=
  existsb (fun i => text_eqb i x) l.

(** Lines 33-40: the update that [handleInterestToggle] applies to the
    previous state. *)
Definition handleInterestToggle (interest : Text) (prev : FormData) : FormData :=
  {| destination := destination prev;
     days := days prev;
     budget := budget prev;
     interests :=
       if includes (interests prev) interest
       then filter (fun i => negb (text_eqb i interest)) (interests prev)
       else interests prev ++ [interest] |}.

(** [!s] for a string. *)
Definition blank (s : Text) : bool :=
  match s with
  | [] => true
  | _ :: _ => false
  end.

(** Lines 45-48: whether [handleSubmit] goes on to send the request. *)
Definition submits (formData : FormData) : bool :=
  negb (blank (destination formData) || blank (days formData)
        || blank (budget formData)).

(** Line 58: [JSON.stringify(formData)], as the generation handler
    receives it in [req.body]. *)
Definition requestBody (formData : FormData) : Generate.Body :=
  {| Generate.destination := Some (JString (destination formData));
     Generate.days := Some (JString (days formData));
     Generate.budget := Some (JString (budget formData));
     Generate.interests := Some (JArray (map JString (interests formData))) |}.

End Create.

(* ================================================================= *)
(** ** The itinerary page and the responses it receives

    [pages/create.tsx], component [ItineraryDetail]. *)

Module ItineraryPage.

(** A populated reference in the JSON of a response: [_id] as a string,
    with the selected fields [name] and [email]. *)
Definition expanded (v : UserView) : Detail.IdValue :=
  Detail.Expanded (Some (toString (view_id v))) (view_name v) (view_email v).

(** Lines 254-255 and 291-293: [setItinerary(data.data)] on the populated
    document that the GET, add-collaborator and remove-collaborator
    responses carry; a reference that did not resolve is [null]. *)
Definition received (p : Populated) : Detail.Itinerary :=
  {| Detail.userId := option_map expanded (owner p);
     Detail.collaborators := Some (map expanded (collaborators p)) |}.

(** Line 503: the argument that the remove button passes to
    [handleRemoveCollaborator],
    [typeof collab === 'object' && collab._id ? collab._id.toString()
     : collab.toString()]. *)
Definition removalId (collab : Detail.IdValue) : Text :=
  if Detail.is_object collab
     && negb (Create.blank (or_else (Detail._id_toString collab) []))
  then or_else (Detail._id_toString collab) []
  else Detail.js_toString collab.

(** Line 481: the collaboration section is rendered. *)
Definition showsCollaboration (itinerary : option Detail.Itinerary)
    (sid : option Text) : bool :=
  Detail.isOwner itinerary sid || Detail.isCollaborator itinerary sid.

End ItineraryPage.

(* ================================================================= *)
(** ** The permission rules, as predicates on a stored itinerary *)

Definition is_owner (u : ObjectId) (it : Itinerary.t) : Prop :=
  Itinerary.userId it = u.

Definition is_collaborator (u : ObjectId) (it : Itinerary.t) : Prop :=
  In u (Itinerary.collaborators it).

(** Some stored itinerary with identifier [i] satisfies [rule]. *)
Definition stored_with (db : Store) (i : ObjectId)
    (rule : Itinerary.t -> Prop) : Prop :=
  exists it, In it (itineraries db) /\ Itinerary._id it = i /\ rule it.

(** An update document that Mongoose accepts: its values can be cast
    and the schema's validators pass. *)
Definition accepted (sch : Schema) (b : Fields.t) : Prop :=
  validateUpdate sch b = true /\
  content_castable sch b = true /\
  (exists cs, castOpt (mapM castObjectId) (Fields.collaborators b) = Ok cs).

(** [it'] is [it] with the fields of the update [b] written over it:
    the identifier is the same, every path that [b] supplies holds the
    cast of the supplied value, and every path that [b] omits holds what
    it held. *)
Definition updated_by (sch : Schema) (b : Fields.t) (it it' : Itinerary.t)
  : Prop :=
  Itinerary._id it' = Itinerary._id it
  /\ (forall p v, Fields.content b p = Some v ->
         Itinerary.content it' p = Some (cast sch p v))
  /\ (forall p, Fields.content b p = None ->
         Itinerary.content it' p = Itinerary.content it p)
  /\ (forall ids, Fields.collaborators b = Some ids ->
         mapM castObjectId ids = Ok (Itinerary.collaborators it'))
  /\ (Fields.collaborators b = None ->
      Itinerary.collaborators it' = Itinerary.collaborators it)
  /\ (forall flag, Fields.isPublic b = Some flag ->
         Itinerary.isPublic it' = flag)
  /\ (Fields.isPublic b = None ->
      Itinerary.isPublic it' = Itinerary.isPublic it).

(** The first stored itinerary with identifier [i] is [it], between the
    itineraries [before] and [after] it. *)
Definition first_with_id (i : ObjectId) (l before : list Itinerary.t)
    (it : Itinerary.t) (after : list Itinerary.t) : Prop :=
  l = before ++ it :: after
  /\ Itinerary._id it = i
  /\ (forall x, In x before -> Itinerary._id x <> i).

(** An itinerary nobody but its owner can reach. *)
Definition starts_private (it : Itinerary.t) : Prop :=
  Itinerary.collaborators it = [] /\ Itinerary.isPublic it = false.

Definition newer_or_same (a b : Itinerary.t) : Prop :=
  Itinerary.createdAt b <= Itinerary.createdAt a.

(* ================================================================= *)
(** ** Fuel of the JSON parser

    A successful call has consumed input, and succeeds alike with any
    fuel that is at least the number of characters it consumed. *)

Definition value_ok (f : nat) : Prop :=
  forall s v rest,
    Json.parse_value f s = Some (v, rest) ->
    List.length rest < List.length s
    /\ forall f', List.length s - List.length rest <= S f' ->
                  Json.parse_value (S f') s = Some (v, rest).

Definition elements_ok (f : nat) : Prop :=
  forall s acc v rest,
    Json.parse_elements f s acc = Some (v, rest) ->
    List.length rest < List.length s
    /\ forall f', List.length s - List.length rest <= S f' ->
                  Json.parse_elements (S f') s acc = Some (v, rest).

Definition members_ok (f : nat) : Prop :=
  forall s acc v rest,
    Json.parse_members f s acc = Some (v, rest) ->
    List.length rest < List.length s
    /\ forall f', List.length s - List.length rest <= S f' ->
                  Json.parse_members (S f') s acc = Some (v, rest).


(* ================================================================= *)
(** ** Example data *)

Module Example.

Definition alice_id : ObjectId := ObjId (txt "650000000000000000000a11").
Definition bob_id : ObjectId := ObjId (txt "650000000000000000000b22").
Definition zed_id : ObjectId := ObjId (txt "650000000000000000000c33").
Definition paris_id : ObjectId := ObjId (txt "65000000000000000000d001").
Definition rome_id : ObjectId := ObjId (txt "65000000000000000000d002").
Definition new_id : ObjectId := ObjId (txt "65000000000000000000d003").

Definition alice : User.t :=
  User.Build alice_id (txt "Alice") (txt "alice@example.com") (txt "$2a$10$a") None.
Definition bob : User.t :=
  User.Build bob_id (txt "Bob") (txt "bob@example.com") (txt "$2a$10$b") None.
Definition zed : User.t :=
  User.Build zed_id (txt "Zed") (txt "zed@example.com") (txt "$2a$10$z") None.

Definition str (s : string) : JSValue := Some (JString (txt s)).
Definition num (s : string) : JSValue := Some (JNumber (txt s)).

(** Alice's private itinerary, shared with Bob. *)
Definition paris : Itinerary.t :=
  Itinerary.Build paris_id alice_id
    (str "Paris - 3 Days Trip") (str "Paris") (num "3") (str "$1000")
    (Some (JArray [])) (Some (JArray [JObject []; JObject []; JObject []]))
    None [bob_id] false 10.

(** Bob's public itinerary, shared with nobody. *)
Definition rome : Itinerary.t :=
  Itinerary.Build rome_id bob_id
    (str "Rome - 2 Days Trip") (str "Rome") (num "2") (str "$500")
    (Some (JArray [])) (Some (JArray [JObject []; JObject []]))
    None [] true 20.

Definition db : Store :=
  {| users := [alice; bob; zed]; itineraries := [paris; rome] |}.

Definition defined (v : JSValue) : bool :=
  match v with Some _ => true | None => false end.

(** A schema that stores every value as supplied, whose array paths
    default to the empty array, and whose new documents need a title, a
    destination, a day count and a budget. *)
Definition schema : Schema :=
  {| castable := fun _ _ => true;
     cast := fun _ v => v;
     defaultOf := fun p =>
       match p with
       | Path.interests | Path.days => Some (JArray [])
       | _ => None
       end;
     validate := fun d =>
       defined (Fields.title d) && defined (Fields.destination d)
       && defined (Fields.totalDays d) && defined (Fields.budget d);
     validateUpdate := fun _ => true |}.

Definition no_fields : Fields.t :=
  Fields.Build None None None None None None None None None None.

(** [{ title, destination, totalDays, budget }] *)
Definition lisbon : Fields.t :=
  Fields.Build None (str "Lisbon") (str "Lisbon") (num "4") (str "$800")
    None None None None None.

(** The same with [userId], [collaborators] and [isPublic] supplied. *)
Definition lisbon_shared : Fields.t :=
  Fields.Build (Some (toString zed_id))
    (str "Lisbon") (str "Lisbon") (num "4") (str "$800")
    None None None (Some [toString zed_id]) (Some true).

(** What Alice's manual creation with that body stores. *)
Definition lisbon_stored : Itinerary.t :=
  Itinerary.Build new_id alice_id
    (str "Lisbon") (str "Lisbon") (num "4") (str "$800")
    (Some (JArray [])) (Some (JArray [])) None [zed_id] true 30.


(** A JSON text written with ['] for the double quote. *)
Definition json (s : string) : Text :=
  map (fun c => if N.eqb c 39 then Json.quote else c) (txt s).

End Example.

(* ================================================================= *)
(** ** Further predicates *)

(** The collaborator list of an itinerary is a set that excludes the
    owner. *)
Definition sharing_ok (it : Itinerary.t) : Prop :=
  NoDup (Itinerary.collaborators it)
  /\ ~ In (Itinerary.userId it) (Itinerary.collaborators it).

(** The filter of the remove-collaborator branch. *)
Definition without (cid : Text) (cs : list ObjectId) : list ObjectId :=
  filter (fun collabId => negb (text_eqb (toString collabId) cid)) cs.

(** The request bodies of the collaboration handler. *)
Definition add_request (e : Text) : Collaborate.Body :=
  {| Collaborate.email := Some e; Collaborate.collaboratorId := None |}.

Definition remove_request (cid : Text) : Collaborate.Body :=
  {| Collaborate.email := None; Collaborate.collaboratorId := Some cid |}.

(* ================================================================= *)
(** ** Further example data *)

Module Example2.

(** A request for three days in Paris, and one without a destination. *)
Definition paris_request : Generate.Body :=
  {| Generate.destination := Example.str "Paris";
     Generate.days := Example.num "3";
     Generate.budget := Example.str "$1000";
     Generate.interests := None |}.

Definition no_destination : Generate.Body :=
  {| Generate.destination := Some (JString []);
     Generate.days := Example.num "3";
     Generate.budget := Example.str "$1000";
     Generate.interests := None |}.

(** A generation client that answers with a fixed text. *)
Definition answers (raw : Text) (_ _ _ _ : JSValue) : Result Text := Ok raw.

Definition never_zero (_ : Text) : bool := false.
Definition fixed_title (_ _ : JSValue) : JSValue := Example.str "Paris - 3 Days Trip".
Definition same_value (v : JSValue) : JSValue := v.

Definition alice_session : Session.User :=
  {| Session.id := toString Example.alice_id |}.

End Example2.

(* ################################################################# *)
(** * Properties *)

(* ================================================================= *)
(** ** Strings and identifiers *)

Lemma text_eqb_eq (a b : Text) : text_eqb a b = true <-> a = b.
Proof.
  revert b; induction a as [|x a IH]; intros [|y b]; simpl;
    try (split; congruence).
  rewrite andb_true_iff, N.eqb_eq, IH. split.
  - intros [-> ->]; reflexivity.
  - intros H; injection H; auto.
Qed.

Lemma text_eqb_refl (a : Text) : text_eqb a a = true.
Proof. apply text_eqb_eq; reflexivity. Qed.

Lemma text_eqb_neq (a b : Text) : text_eqb a b = false <-> a <> b.
Proof.
  rewrite <- text_eqb_eq. destruct (text_eqb a b); split; congruence.
Qed.

Lemma oid_eqb_eq (a b : ObjectId) : oid_eqb a b = true <-> a = b.
Proof.
  unfold oid_eqb. rewrite text_eqb_eq. destruct a, b; simpl.
  split; congruence.
Qed.

Lemma oid_eqb_refl (a : ObjectId) : oid_eqb a a = true.
Proof. apply oid_eqb_eq; reflexivity. Qed.

Lemma oid_eqb_neq (a b : ObjectId) : oid_eqb a b = false <-> a <> b.
Proof.
  rewrite <- oid_eqb_eq. destruct (oid_eqb a b); split; congruence.
Qed.

Lemma hexToLower_fixes (l : Text) :
  forallb (fun c => isDigit c || isLowerHexLetter c) l = true ->
  map hexToLower l = l /\ forallb isHexDigit l = true.
Proof.
  induction l as [|c l IH]; simpl; [auto|].
  rewrite andb_true_iff. intros [Hc Hl]. destruct (IH Hl) as [-> ->].
  unfold isHexDigit. rewrite Hc. simpl. split; [|reflexivity].
  f_equal. unfold hexToLower, isUpperHexLetter.
  unfold isDigit, isLowerHexLetter in Hc.
  destruct ((65 <=? c)%N && (c <=? 70)%N) eqn:E; [|reflexivity].
  rewrite andb_true_iff, !N.leb_le in E.
  rewrite orb_true_iff, !andb_true_iff, !N.leb_le in Hc. lia.
Qed.

Lemma cast_toString (o : ObjectId) :
  canonical o = true -> castObjectId (toString o) = Ok o.
Proof.
  unfold canonical, castObjectId. rewrite andb_true_iff. intros [Hlen Hall].
  destruct (hexToLower_fixes _ Hall) as [Hmap Hhex].
  rewrite Hlen, Hhex, Hmap. destruct o; reflexivity.
Qed.

(* ================================================================= *)
(** ** Facts about filters and store operations *)

Lemma existsb_oid_In (u : ObjectId) (l : list ObjectId) :
  existsb (fun c => oid_eqb c u) l = true <-> In u l.
Proof.
  rewrite existsb_exists. split.
  - intros [x [Hin Heq]]. apply oid_eqb_eq in Heq. subst; assumption.
  - intros Hin. exists u. split; [assumption | apply oid_eqb_refl].
Qed.

Lemma find_Some_iff {A} (p : A -> bool) (l : list A) :
  (exists x, find p l = Some x) <-> (exists x, In x l /\ p x = true).
Proof.
  split.
  - intros [x H]. exists x. apply find_some in H. exact H.
  - intros [x [Hin Hp]]. destruct (find p l) as [y|] eqn:E.
    + exists y; reflexivity.
    + pose proof (find_none p l E x Hin). congruence.
Qed.

Lemma find_None_iff {A} (p : A -> bool) (l : list A) :
  find p l = None <-> (forall x, In x l -> p x = false).
Proof.
  split.
  - intros H x Hin. exact (find_none p l H x Hin).
  - intros H. destruct (find p l) as [y|] eqn:E; [|reflexivity].
    apply find_some in E. destruct E as [Hin Hp].
    rewrite (H y Hin) in Hp. discriminate.
Qed.

Lemma matches_may_read (i u : ObjectId) (it : Itinerary.t) :
  matches (may_read i u) it = true <->
  Itinerary._id it = i /\
  (Itinerary.userId it = u \/ In u (Itinerary.collaborators it)
   \/ Itinerary.isPublic it = true).
Proof.
  unfold matches, may_read; simpl.
  rewrite !andb_true_iff, !orb_true_iff, !oid_eqb_eq, existsb_oid_In, eqb_true_iff.
  intuition congruence.
Qed.

Lemma matches_may_edit (i u : ObjectId) (it : Itinerary.t) :
  matches (may_edit i u) it = true <->
  Itinerary._id it = i /\
  (Itinerary.userId it = u \/ In u (Itinerary.collaborators it)).
Proof.
  unfold matches, may_edit; simpl.
  rewrite !andb_true_iff, !orb_true_iff, !oid_eqb_eq, existsb_oid_In.
  intuition congruence.
Qed.

Lemma matches_may_administer (i u : ObjectId) (it : Itinerary.t) :
  matches (may_administer i u) it = true <->
  Itinerary._id it = i /\ Itinerary.userId it = u.
Proof.
  unfold matches, may_administer; simpl.
  rewrite !andb_true_iff, !oid_eqb_eq. intuition congruence.
Qed.

Lemma matches_mine_or_shared (u : ObjectId) (it : Itinerary.t) :
  matches (mine_or_shared u) it = true <->
  Itinerary.userId it = u \/ In u (Itinerary.collaborators it).
Proof.
  unfold matches, mine_or_shared; simpl.
  rewrite !andb_true_iff, !orb_true_iff, !oid_eqb_eq, existsb_oid_In.
  intuition congruence.
Qed.

Section CastFilters.
Variables i u : ObjectId.
Hypothesis Hi : canonical i = true.
Hypothesis Hu : canonical u = true.

Lemma cast_may_read :
  castFilter [c_id (toString i);
              c_or [c_userId (toString u); c_collaborators (toString u);
                    c_isPublic true]]
  = Ok (may_read i u).
Proof.
  unfold castFilter; cbn [mapM castCond bind].
  rewrite !(cast_toString _ Hi), !(cast_toString _ Hu). reflexivity.
Qed.

Lemma cast_may_edit :
  castFilter [c_id (toString i);
              c_or [c_userId (toString u); c_collaborators (toString u)]]
  = Ok (may_edit i u).
Proof.
  unfold castFilter; cbn [mapM castCond bind].
  rewrite !(cast_toString _ Hi), !(cast_toString _ Hu). reflexivity.
Qed.

Lemma cast_may_administer :
  castFilter [c_id (toString i); c_userId (toString u)]
  = Ok (may_administer i u).
Proof.
  unfold castFilter; cbn [mapM castCond bind].
  rewrite !(cast_toString _ Hi), !(cast_toString _ Hu). reflexivity.
Qed.

Lemma cast_mine_or_shared :
  castFilter [c_or [c_userId (toString u); c_collaborators (toString u)]]
  = Ok (mine_or_shared u).
Proof.
  unfold castFilter; cbn [mapM castCond bind].
  rewrite !(cast_toString _ Hu). reflexivity.
Qed.
End CastFilters.


(* ================================================================= *)
(** ** The first element that satisfies a test *)

Lemma find_first {A} (q : A -> bool) (l : list A) (x : A) :
  find q l = Some x ->
  exists before after,
    l = before ++ x :: after /\ q x = true
    /\ (forall y, In y before -> q y = false).
Proof.
  induction l as [|y l IH]; simpl; [discriminate|].
  destruct (q y) eqn:E.
  - intros H. injection H as ->. exists [], l. simpl. tauto.
  - intros H. destruct (IH H) as [before [after [-> [Hx Hb]]]].
    exists (y :: before), after. simpl. split; [reflexivity|].
    split; [exact Hx|]. intros z [<-|Hz]; auto.
Qed.

Lemma replace_first_at {A} (q : A -> bool) (f : A -> A)
    (before after : list A) (x : A) :
  q x = true -> (forall y, In y before -> q y = false) ->
  replace_first q f (before ++ x :: after) = before ++ f x :: after.
Proof.
  intros Hx. induction before as [|y before IH]; simpl; intros Hb.
  - rewrite Hx. reflexivity.
  - rewrite (Hb y (or_introl eq_refl)), IH; [reflexivity|].
    intros z Hz. apply Hb. right; exact Hz.
Qed.

Lemma remove_first_at {A} (q : A -> bool) (before after : list A) (x : A) :
  q x = true -> (forall y, In y before -> q y = false) ->
  remove_first q (before ++ x :: after) = before ++ after.
Proof.
  intros Hx. induction before as [|y before IH]; simpl; intros Hb.
  - rewrite Hx. reflexivity.
  - rewrite (Hb y (or_introl eq_refl)), IH; [reflexivity|].
    intros z Hz. apply Hb. right; exact Hz.
Qed.

(** In a list whose keys are distinct, an element is known by its key. *)
Lemma same_key_same {A B} (key : A -> B) (l : list A) (x y : A) :
  NoDup (map key l) -> In x l -> In y l -> key x = key y -> x = y.
Proof.
  induction l as [|z l IH]; simpl; intros Hnd Hx Hy Hk; [contradiction|].
  inversion Hnd as [|? ? Hnotin Hnd']; subst.
  destruct Hx as [->|Hx], Hy as [->|Hy]; auto.
  - exfalso. apply Hnotin. rewrite Hk. apply in_map. exact Hy.
  - exfalso. apply Hnotin. rewrite <- Hk. apply in_map. exact Hx.
Qed.

Lemma NoDup_middle_out {A B} (key : A -> B) (before after : list A) (x : A) :
  NoDup (map key (before ++ x :: after)) ->
  forall y, In y (before ++ after) -> key y <> key x.
Proof.
  rewrite map_app. simpl. intros Hnd y Hy Hk.
  apply NoDup_remove_2 in Hnd. apply Hnd.
  rewrite <- Hk, <- map_app. apply in_map. exact Hy.
Qed.

(** The first stored itinerary with a given identifier. *)
Lemma find_by_id_first (i : ObjectId) (l : list Itinerary.t) (it : Itinerary.t) :
  find (has_id i) l = Some it ->
  exists before after,
    first_with_id i l before it after
    /\ has_id i it = true
    /\ (forall y, In y before -> has_id i y = false).
Proof.
  intros H. destruct (find_first _ _ _ H) as [before [after [Hl [Hx Hb]]]].
  exists before, after. split; [|split; assumption].
  split; [exact Hl|]. split; [apply oid_eqb_eq; exact Hx|].
  intros y Hy. apply oid_eqb_neq. apply Hb. exact Hy.
Qed.

(* ================================================================= *)
(** ** Permission resolver: read, update, delete *)

Section ItineraryByIdProperties.
Variable sch : Schema.
Variable db : Store.
(** The requester [u] and the requested itinerary identifier [i]. *)
Variables u i : ObjectId.
Hypothesis Hu : canonical u = true.
Hypothesis Hi : canonical i = true.

Lemma find_may_read :
  (exists it, find (matches (may_read i u)) (itineraries db) = Some it) <->
  stored_with db i
    (fun it => is_owner u it \/ is_collaborator u it
               \/ Itinerary.isPublic it = true).
Proof.
  rewrite find_Some_iff. unfold stored_with.
  split; intros [it [Hin H]]; exists it;
    apply matches_may_read in H || (split; [assumption|apply matches_may_read]);
    tauto.
Qed.

Lemma find_may_edit :
  (exists it, find (matches (may_edit i u)) (itineraries db) = Some it) <->
  stored_with db i (fun it => is_owner u it \/ is_collaborator u it).
Proof.
  rewrite find_Some_iff. unfold stored_with.
  split; intros [it [Hin H]]; exists it;
    apply matches_may_edit in H || (split; [assumption|apply matches_may_edit]);
    tauto.
Qed.

Lemma find_may_administer :
  (exists it, find (matches (may_administer i u)) (itineraries db) = Some it) <->
  stored_with db i (is_owner u).
Proof.
  rewrite find_Some_iff. unfold stored_with.
  split; intros [it [Hin H]]; exists it;
    apply matches_may_administer in H
    || (split; [assumption|apply matches_may_administer]);
    tauto.
Qed.

Lemma get_response :
  forall b,
  ItineraryById.handler sch (signed_in (toString u)) "GET" (toString i) b db
  = match find (matches (may_read i u)) (itineraries db) with
    | Some it => (res 200 (data (Some (populate db it))), db)
    | None => (res 404 (message "Itinerary not found"), db)
    end.
Proof.
  intros b. unfold ItineraryById.handler, Itinerary_findOne; simpl.
  rewrite (cast_may_read i u Hi Hu); simpl.
  destruct (find _ _); reflexivity.
Qed.

(** C1. An authenticated GET of itinerary [i] by [u] succeeds exactly when
    a stored itinerary with that identifier has [u] as owner, lists [u]
    among its collaborators or is public: the answer is then 200 and
    carries such an itinerary, as stored, with its owner and collaborators
    populated.  Otherwise the answer is 404 with the message "Itinerary
    not found".  It never answers 403, and it leaves the store as it
    was. *)
Theorem get_allowed_iff_owner_collaborator_or_public (b : Fields.t) :
  let r := ItineraryById.handler sch (signed_in (toString u)) "GET"
             (toString i) b db in
  (status (fst r) = 200 <->
     stored_with db i
       (fun it => is_owner u it \/ is_collaborator u it
                  \/ Itinerary.isPublic it = true))
  /\ (status (fst r) = 200 ->
      exists it,
        In it (itineraries db) /\ Itinerary._id it = i
        /\ (is_owner u it \/ is_collaborator u it
            \/ Itinerary.isPublic it = true)
        /\ fst r = res 200 (data (Some (populate db it)))
        /\ doc (populate db it) = it)
  /\ (status (fst r) <> 200 ->
        fst r = res 404 (message "Itinerary not found"))
  /\ status (fst r) <> 403
  /\ snd r = db.
Proof.
  cbv zeta. rewrite get_response. rewrite <- find_may_read.
  destruct (find _ _) as [it|] eqn:E; simpl.
  - split; [split; eauto|]. split.
    + intros _. exists it. apply find_some in E. destruct E as [Hin Hm].
      apply matches_may_read in Hm. destruct Hm as [Hid Hrule].
      repeat split; assumption.
    + repeat split; try congruence; discriminate.
  - split; [split; [discriminate | intros [it H]; discriminate]|].
    split; [discriminate|]. repeat split; try congruence; discriminate.
Qed.

Lemma put_response (b : Fields.t) :
  ItineraryById.handler sch (signed_in (toString u)) "PUT" (toString i) b db
  = match find (matches (may_edit i u)) (itineraries db) with
    | Some _ =>
        match Itinerary_findByIdAndUpdate sch (toString i) b db with
        | Ok (updated, db') =>
            (res 200 (data (option_map (populate db') updated)), db')
        | Throw e => (res 500 (error_message e), db)
        end
    | None =>
        (res 404 (message "Itinerary not found or you do not have permission"), db)
    end.
Proof.
  unfold ItineraryById.handler, Itinerary_findOne; simpl.
  rewrite (cast_may_edit i u Hi Hu); simpl.
  destruct (find _ _); reflexivity.
Qed.

Lemma content_of_update (o : option ObjectId) (cs : option (list ObjectId))
    (b : Fields.t) (it : Itinerary.t) (p : Path.t) :
  Itinerary.content (apply_update sch o cs b it) p = updated_content sch b it p.
Proof. destruct p; reflexivity. Qed.

Lemma apply_update_updated_by (cs : option (list ObjectId)) (b : Fields.t)
    (it : Itinerary.t) :
  castOpt (mapM castObjectId) (Fields.collaborators b) = Ok cs ->
  updated_by sch b it (apply_update sch None cs b it).
Proof.
  intros Hcs. split; [reflexivity|].
  split; [|split; [|split; [|split; [|split]]]].
  - intros p v Hp. rewrite content_of_update. unfold updated_content.
    rewrite Hp. reflexivity.
  - intros p Hp. rewrite content_of_update. unfold updated_content.
    rewrite Hp. reflexivity.
  - intros ids Hids. rewrite Hids in Hcs. simpl in Hcs.
    destruct (mapM castObjectId ids) as [l|e]; simpl in Hcs; [|discriminate].
    injection Hcs as <-. reflexivity.
  - intros Hnone. rewrite Hnone in Hcs. injection Hcs as <-. reflexivity.
  - intros flag Hflag. simpl. rewrite Hflag. reflexivity.
  - intros Hnone. simpl. rewrite Hnone. reflexivity.
Qed.

(** What an accepted update of a stored identifier does. *)
Lemma update_accepted (b : Fields.t) (x : Itinerary.t) :
  accepted sch b -> In x (itineraries db) -> Itinerary._id x = i ->
  exists before it after it',
    first_with_id i (itineraries db) before it after
    /\ updated_by sch b it it'
    /\ Itinerary_findByIdAndUpdate sch (toString i) b db
       = Ok (Some it', with_itineraries (before ++ it' :: after) db).
Proof.
  intros [Hv [Hc [cs Hcs]]] Hin Hid.
  assert (Hex : exists y, find (has_id i) (itineraries db) = Some y).
  { apply find_Some_iff. exists x. split; [exact Hin|].
    apply oid_eqb_eq. exact Hid. }
  destruct Hex as [it Hfind].
  destruct (find_by_id_first i _ it Hfind)
    as [before [after [Hfirst [Hq Hbefore]]]].
  exists before, it, after, (apply_update sch None cs b it).
  split; [exact Hfirst|]. split; [apply apply_update_updated_by; exact Hcs|].
  unfold Itinerary_findByIdAndUpdate.
  rewrite (cast_toString _ Hi); simpl. rewrite Hcs; simpl.
  rewrite Hc, Hv, Hfind. destruct Hfirst as [Hl _].
  rewrite Hl at 1. rewrite (replace_first_at _ _ _ _ _ Hq Hbefore).
  reflexivity.
Qed.

(** C2. An authenticated PUT on itinerary [i] by [u] answers 200 only when
    a stored itinerary with that identifier has [u] as owner or among its
    collaborators.  When there is one, every update document that Mongoose
    accepts is applied: the stored itinerary with that identifier holds
    the supplied fields and keeps the others, nothing else in the store
    changes, and the answer is 200 with the itinerary as updated; an
    update document that Mongoose rejects is answered 500 and changes
    nothing.  When there is none the answer is 404 and the store is
    unchanged; in particular, the public-read flag of an itinerary that
    [u] neither owns nor collaborates on does not help. *)
Theorem put_allowed_iff_owner_or_collaborator (b : Fields.t) :
  let r := ItineraryById.handler sch (signed_in (toString u)) "PUT"
             (toString i) b db in
  (status (fst r) = 200 ->
     stored_with db i (fun it => is_owner u it \/ is_collaborator u it))
  /\ (accepted sch b ->
      stored_with db i (fun it => is_owner u it \/ is_collaborator u it) ->
      exists before it after it',
        first_with_id i (itineraries db) before it after
        /\ updated_by sch b it it'
        /\ r = (res 200
                  (data (Some (populate
                                 (with_itineraries (before ++ it' :: after) db)
                                 it'))),
                with_itineraries (before ++ it' :: after) db)
        /\ (NoDup (map Itinerary._id (itineraries db)) ->
            is_owner u it \/ is_collaborator u it))
  /\ (~ accepted sch b ->
      stored_with db i (fun it => is_owner u it \/ is_collaborator u it) ->
      status (fst r) = 500 /\ snd r = db)
  /\ (~ stored_with db i (fun it => is_owner u it \/ is_collaborator u it) ->
      r = (res 404 (message "Itinerary not found or you do not have permission"), db))
  /\ ((forall it, In it (itineraries db) -> Itinerary._id it = i ->
         Itinerary.isPublic it = true /\ ~ is_owner u it /\ ~ is_collaborator u it) ->
      r = (res 404 (message "Itinerary not found or you do not have permission"), db)).
Proof.
  cbv zeta. rewrite put_response.
  assert (Hnone : ~ stored_with db i (fun it => is_owner u it \/ is_collaborator u it) ->
                  find (matches (may_edit i u)) (itineraries db) = None).
  { intros Hn. destruct (find _ _) as [it|] eqn:E; [|reflexivity].
    exfalso. apply Hn. apply find_may_edit. eauto. }
  split; [|split; [|split; [|split]]].
  - intros H. apply find_may_edit.
    destruct (find _ _) as [it|]; [eauto | discriminate].
  - intros Hacc Hst. pose proof Hst as [x [Hin [Hid Hrule]]].
    apply find_may_edit in Hst. destruct Hst as [y ->].
    destruct (update_accepted b x Hacc Hin Hid)
      as [before [it [after [it' [Hfirst [Hupd ->]]]]]].
    exists before, it, after, it'.
    split; [exact Hfirst|]. split; [exact Hupd|]. split; [reflexivity|].
    intros Hnd. destruct Hfirst as [Hl [Hit _]].
    replace it with x; [exact Hrule|].
    apply (same_key_same Itinerary._id (itineraries db)); try assumption.
    + rewrite Hl. apply in_or_app. right. left. reflexivity.
    + congruence.
  - intros Hnacc Hst. apply find_may_edit in Hst. destruct Hst as [y ->].
    unfold Itinerary_findByIdAndUpdate.
    rewrite (cast_toString _ Hi); simpl.
    destruct (castOpt (mapM castObjectId) (Fields.collaborators b))
      as [cs|e] eqn:Ecs; simpl; [|split; reflexivity].
    destruct (content_castable sch b) eqn:Ec; [|split; reflexivity].
    destruct (validateUpdate sch b) eqn:Ev; [|split; reflexivity].
    exfalso. apply Hnacc. split; [exact Ev|]. split; [exact Ec | eauto].
  - intros Hn. rewrite (Hnone Hn). reflexivity.
  - intros Hall. rewrite Hnone; [reflexivity|].
    intros [it [Hin [Hid Hrule]]]. destruct (Hall it Hin Hid) as [_ [Ho Hc]].
    tauto.
Qed.

Lemma delete_response (b : Fields.t) :
  ItineraryById.handler sch (signed_in (toString u)) "DELETE" (toString i) b db
  = match find (matches (may_administer i u)) (itineraries db) with
    | Some _ =>
        (res 200 (success_message "Itinerary deleted successfully"),
         with_itineraries (remove_first (has_id i) (itineraries db)) db)
    | None =>
        (res 404 (message "Itinerary not found or you do not have permission"), db)
    end.
Proof.
  unfold ItineraryById.handler, Itinerary_findOne, Itinerary_findByIdAndDelete; simpl.
  rewrite (cast_may_administer i u Hi Hu); simpl.
  rewrite (cast_toString _ Hi); simpl.
  destruct (find _ _); reflexivity.
Qed.

(** C3. An authenticated DELETE of itinerary [i] by [u] succeeds exactly
    when a stored itinerary with that identifier has [u] as owner: the
    answer is then 200 and the stored itinerary with that identifier is
    gone, the others staying as they were and in their order; with
    identifiers that are distinct, as the store keeps them, the itinerary
    removed is the requester's own and none with that identifier is left.
    Every other requester gets 404 and the store is unchanged, whether or
    not the requester is a collaborator and whether or not the itinerary
    is public. *)
Theorem delete_allowed_iff_owner (b : Fields.t) :
  let r := ItineraryById.handler sch (signed_in (toString u)) "DELETE"
             (toString i) b db in
  (status (fst r) = 200 <-> stored_with db i (is_owner u))
  /\ (stored_with db i (is_owner u) ->
      exists before it after,
        first_with_id i (itineraries db) before it after
        /\ r = (res 200 (success_message "Itinerary deleted successfully"),
                with_itineraries (before ++ after) db)
        /\ (NoDup (map Itinerary._id (itineraries db)) ->
            is_owner u it
            /\ forall x, In x (before ++ after) -> Itinerary._id x <> i))
  /\ (~ stored_with db i (is_owner u) ->
      r = (res 404 (message "Itinerary not found or you do not have permission"), db))
  /\ ((forall it, In it (itineraries db) -> Itinerary._id it = i ->
         ~ is_owner u it) ->
      r = (res 404 (message "Itinerary not found or you do not have permission"), db)).
Proof.
  cbv zeta. rewrite delete_response.
  destruct (find (matches (may_administer i u)) (itineraries db)) as [y|] eqn:E;
    simpl.
  - assert (Hst : stored_with db i (is_owner u))
      by (apply find_may_administer; eauto).
    split; [tauto|]. split; [|split].
    + intros _. destruct Hst as [x [Hin [Hid Howner]]].
      assert (Hex : exists z, find (has_id i) (itineraries db) = Some z).
      { apply find_Some_iff. exists x. split; [exact Hin|].
        apply oid_eqb_eq. exact Hid. }
      destruct Hex as [it Hfind].
      destruct (find_by_id_first i _ it Hfind)
        as [before [after [Hfirst [Hq Hbefore]]]].
      exists before, it, after. split; [exact Hfirst|].
      destruct Hfirst as [Hl [Hit _]]. split.
      * rewrite Hl at 1. rewrite (remove_first_at _ _ _ _ Hq Hbefore).
        reflexivity.
      * intros Hnd. split.
        -- replace it with x; [exact Howner|].
           apply (same_key_same Itinerary._id (itineraries db));
             try assumption.
           ++ rewrite Hl. apply in_or_app. right. left. reflexivity.
           ++ congruence.
        -- rewrite Hl in Hnd. intros z Hz. rewrite <- Hit.
           exact (NoDup_middle_out Itinerary._id before after it Hnd z Hz).
    + intros Hn. exfalso. apply Hn. exact Hst.
    + intros Hall. exfalso. destruct Hst as [it' [Hin [Hid Ho]]].
      exact (Hall it' Hin Hid Ho).
  - assert (Hst : ~ stored_with db i (is_owner u)).
    { intros H. apply find_may_administer in H. destruct H as [it H].
      congruence. }
    split; [split; [discriminate | tauto]|].
    split; [tauto|]. split; reflexivity.
Qed.
End ItineraryByIdProperties.

(** Whatever the session, the method, the identifier and the body are, the
    handler answers with one of five status codes, none of them 403. *)
Lemma handler_statuses (sch : Schema) (session : option Session.t)
    (method : string) (id : Text) (b : Fields.t) (db : Store) :
  In (status (fst (ItineraryById.handler sch session method id b db)))
     [200; 401; 404; 405; 500].
Proof.
  unfold ItineraryById.handler.
  destruct (session_user session) as [user|]; [|simpl; tauto].
  destruct (method =? "GET").
  { destruct (Itinerary_findOne _ db) as [[it|]|e]; simpl; tauto. }
  destruct (method =? "PUT").
  { destruct (Itinerary_findOne _ db) as [[it|]|e]; simpl; try tauto.
    destruct (Itinerary_findByIdAndUpdate sch id b db) as [[upd db']|e];
      simpl; tauto. }
  destruct (method =? "DELETE").
  { destruct (Itinerary_findOne _ db) as [[it|]|e]; simpl; try tauto.
    destruct (Itinerary_findByIdAndDelete id db) as [db'|e]; simpl; tauto. }
  simpl; tauto.
Qed.

Lemma get_allowed_witness :
  canonical Example.bob_id = true /\ canonical Example.paris_id = true /\
  exists it,
    fst (ItineraryById.handler Example.schema
           (signed_in (toString Example.bob_id)) "GET"
           (toString Example.paris_id) Example.no_fields Example.db)
    = res 200 (data (Some (populate Example.db it)))
    /\ Itinerary._id it = Example.paris_id
    /\ In it (itineraries Example.db).
Proof.
  split; [reflexivity|]. split; [reflexivity|].
  destruct (get_allowed_iff_owner_collaborator_or_public Example.schema
              Example.db Example.bob_id Example.paris_id
              eq_refl eq_refl Example.no_fields)
    as [_ [Hbody _]].
  destruct (Hbody eq_refl) as [it [Hin [Hid [_ [Hres _]]]]].
  exists it. split; [exact Hres|]. split; [exact Hid | exact Hin].
Defined.

Lemma put_allowed_witness :
  canonical Example.bob_id = true /\ canonical Example.paris_id = true /\
  status (fst (ItineraryById.handler Example.schema
                 (signed_in (toString Example.bob_id)) "PUT"
                 (toString Example.paris_id) Example.lisbon Example.db))
  = 200
  /\ exists it',
       In it' (itineraries
                 (snd (ItineraryById.handler Example.schema
                         (signed_in (toString Example.bob_id)) "PUT"
                         (toString Example.paris_id) Example.lisbon
                         Example.db)))
       /\ Itinerary._id it' = Example.paris_id
       /\ Itinerary.title it' = Example.str "Lisbon".
Proof.
  split; [reflexivity|]. split; [reflexivity|].
  assert (Hacc : accepted Example.schema Example.lisbon).
  { split; [reflexivity|]. split; [reflexivity|]. exists None. reflexivity. }
  assert (Hst : stored_with Example.db Example.paris_id
                  (fun it => is_owner Example.bob_id it
                             \/ is_collaborator Example.bob_id it)).
  { exists Example.paris. simpl. unfold is_collaborator. simpl. tauto. }
  destruct (put_allowed_iff_owner_or_collaborator Example.schema
              Example.db Example.bob_id Example.paris_id
              eq_refl eq_refl Example.lisbon)
    as [_ [Happlied _]].
  destruct (Happlied Hacc Hst)
    as [before [it [after [it' [[_ [Hit _]] [[Hid [Hset _]] [Hres _]]]]]]].
  rewrite Hres. split; [reflexivity|]. exists it'. split; [|split].
  - simpl. apply in_or_app. right. left. reflexivity.
  - congruence.
  - exact (Hset Path.title (JString (txt "Lisbon")) eq_refl).
Defined.

Lemma delete_allowed_witness :
  canonical Example.alice_id = true /\ canonical Example.paris_id = true /\
  fst (ItineraryById.handler Example.schema
         (signed_in (toString Example.alice_id)) "DELETE"
         (toString Example.paris_id) Example.no_fields Example.db)
  = res 200 (success_message "Itinerary deleted successfully").
Proof.
  split; [reflexivity|]. split; [reflexivity|].
  destruct (delete_allowed_iff_owner Example.schema
              Example.db Example.alice_id Example.paris_id
              eq_refl eq_refl Example.no_fields)
    as [_ [Hgone _]].
  assert (Hst : stored_with Example.db Example.paris_id
                  (is_owner Example.alice_id)).
  { exists Example.paris. simpl. unfold is_owner. simpl. tauto. }
  destruct (Hgone Hst) as [before [it [after [_ [Hres _]]]]].
  rewrite Hres. reflexivity.
Defined.

(* ================================================================= *)
(** ** Listing and manual creation *)

Lemma insert_newest_first_perm (x : Itinerary.t) (l : list Itinerary.t) :
  Permutation (ItineraryIndex.insert_newest_first x l) (x :: l).
Proof.
  induction l as [|y l IH]; simpl; [reflexivity|].
  destruct (Itinerary.createdAt y <=? Itinerary.createdAt x)%nat.
  - reflexivity.
  - rewrite IH. apply perm_swap.
Qed.

Lemma sort_createdAt_desc_perm (l : list Itinerary.t) :
  Permutation (ItineraryIndex.sort_createdAt_desc l) l.
Proof.
  induction l as [|x l IH]; simpl; [reflexivity|].
  rewrite insert_newest_first_perm. apply perm_skip. exact IH.
Qed.

Lemma insert_newest_first_sorted (x : Itinerary.t) (l : list Itinerary.t) :
  Sorted newer_or_same l ->
  Sorted newer_or_same (ItineraryIndex.insert_newest_first x l).
Proof.
  induction l as [|y l IH]; simpl; intros Hs.
  - repeat constructor.
  - destruct (Itinerary.createdAt y <=? Itinerary.createdAt x)%nat eqn:E.
    + apply Nat.leb_le in E. constructor; [assumption|].
      constructor. exact E.
    + apply Nat.leb_gt in E. inversion Hs as [|? ? Hs' Hhd]; subst.
      constructor; [apply IH; assumption|].
      destruct l as [|z l]; simpl.
      * constructor. unfold newer_or_same. lia.
      * destruct (Itinerary.createdAt z <=? Itinerary.createdAt x)%nat.
        -- constructor. unfold newer_or_same. lia.
        -- constructor. inversion Hhd; assumption.
Qed.

Lemma sort_createdAt_desc_sorted (l : list Itinerary.t) :
  Sorted newer_or_same (ItineraryIndex.sort_createdAt_desc l).
Proof.
  induction l as [|x l IH]; simpl; [constructor|].
  apply insert_newest_first_sorted. exact IH.
Qed.

Section ItineraryIndexProperties.
Variable sch : Schema.
Variable fresh : ObjectId.
Variable now : nat.
Variable db : Store.
Variable u : ObjectId.
Hypothesis Hu : canonical u = true.

(** C4. An authenticated list request by [u] answers 200 with the stored
    itineraries that [u] owns or collaborates on, each of them once and no
    other, newest first.  An itinerary of somebody else that does not list
    [u] as collaborator is absent from the answer even when it is public. *)
Theorem list_returns_owned_and_shared (b : Fields.t) :
  exists l,
    ItineraryIndex.handler sch fresh now (signed_in (toString u)) "GET" b db
    = (res 200 (data_list (map (populate db) l)), db)
    /\ Permutation l (filter (matches (mine_or_shared u)) (itineraries db))
    /\ (forall it, In it l <->
          In it (itineraries db) /\ (is_owner u it \/ is_collaborator u it))
    /\ (forall it, Itinerary.isPublic it = true ->
          ~ is_owner u it -> ~ is_collaborator u it -> ~ In it l)
    /\ Sorted newer_or_same l.
Proof.
  exists (ItineraryIndex.sort_createdAt_desc
            (filter (matches (mine_or_shared u)) (itineraries db))).
  assert (Hmem : forall it,
             In it (ItineraryIndex.sort_createdAt_desc
                      (filter (matches (mine_or_shared u)) (itineraries db)))
             <-> In it (itineraries db)
                 /\ (is_owner u it \/ is_collaborator u it)).
  { intros it. unfold is_owner, is_collaborator.
    rewrite <- matches_mine_or_shared, <- filter_In.
    split; apply Permutation_in;
      [|symmetry]; apply sort_createdAt_desc_perm. }
  split; [|split; [|split; [|split]]].
  - unfold ItineraryIndex.handler, Itinerary_find; simpl.
    rewrite (cast_mine_or_shared u Hu). reflexivity.
  - apply sort_createdAt_desc_perm.
  - exact Hmem.
  - intros it _ Ho Hc Hin. apply Hmem in Hin. tauto.
  - apply sort_createdAt_desc_sorted.
Qed.

Lemma post_response (b : Fields.t) :
  ItineraryIndex.handler sch fresh now (signed_in (toString u)) "POST" b db
  = match mapM castObjectId (or_else (Fields.collaborators b) []) with
    | Ok cs =>
        if validate sch (Fields.spread_with_userId b (toString u)) then
          let it := Itinerary.Build fresh u
                      (new_content sch b Path.title)
                      (new_content sch b Path.destination)
                      (new_content sch b Path.totalDays)
                      (new_content sch b Path.budget)
                      (new_content sch b Path.interests)
                      (new_content sch b Path.days)
                      (new_content sch b Path.summary)
                      cs (or_else (Fields.isPublic b) false) now in
          (res 201 (data_created it),
           with_itineraries (itineraries db ++ [it]) db)
        else (res 500 (error_message ValidationError), db)
    | Throw _ => (res 500 (error_message ValidationError), db)
    end.
Proof.
  unfold ItineraryIndex.handler, Itinerary_create; simpl.
  rewrite (cast_toString _ Hu); simpl.
  destruct (mapM castObjectId _); simpl; [|reflexivity].
  destruct (validate sch _); reflexivity.
Qed.

(** C10. Whatever [userId] the body of a manual-creation request carries,
    the itinerary that a 201 answer reports and appends to the store is
    owned by the session user; and the request does answer 201 whenever
    Mongoose accepts the document. *)
Theorem manual_create_owner_is_session_user (b : Fields.t) :
  let r := ItineraryIndex.handler sch fresh now (signed_in (toString u))
             "POST" b db in
  (status (fst r) = 201 ->
     exists it, body (fst r) = data_created it
                /\ itineraries (snd r) = itineraries db ++ [it]
                /\ Itinerary.userId it = u)
  /\ (forall it, body (fst r) = data_created it -> Itinerary.userId it = u)
  /\ ((exists cs, mapM castObjectId (or_else (Fields.collaborators b) []) = Ok cs) ->
      validate sch (Fields.spread_with_userId b (toString u)) = true ->
      status (fst r) = 201).
Proof.
  cbv zeta. rewrite post_response.
  destruct (mapM castObjectId _) as [cs|e]; simpl.
  - destruct (validate sch _); simpl.
    + split; [eauto|]. split; [|reflexivity].
      intros it H. injection H as <-. reflexivity.
    + split; [discriminate|]. split; [discriminate|].
      intros _ H; discriminate.
  - split; [discriminate|]. split; [discriminate|].
    intros [cs H]; discriminate.
Qed.
End ItineraryIndexProperties.

Lemma list_returns_owned_and_shared_witness :
  canonical Example.bob_id = true /\
  exists l,
    ItineraryIndex.handler Example.schema Example.new_id 30
      (signed_in (toString Example.bob_id)) "GET" Example.no_fields Example.db
    = (res 200 (data_list (map (populate Example.db) l)), Example.db)
    /\ (In Example.paris l /\ In Example.rome l).
Proof.
  split; [reflexivity|].
  destruct (list_returns_owned_and_shared Example.schema Example.new_id 30
              Example.db Example.bob_id eq_refl Example.no_fields)
    as [l [Hres [_ [Hmem _]]]].
  exists l. split; [exact Hres|].
  split; apply Hmem; simpl; unfold is_owner, is_collaborator; simpl; tauto.
Defined.

Lemma manual_create_owner_witness :
  canonical Example.alice_id = true /\
  exists it,
    body (fst (ItineraryIndex.handler Example.schema Example.new_id 30
                 (signed_in (toString Example.alice_id)) "POST"
                 Example.lisbon_shared Example.db))
    = data_created it
    /\ Fields.userId Example.lisbon_shared = Some (toString Example.zed_id)
    /\ Itinerary.userId it = Example.alice_id.
Proof.
  split; [reflexivity|].
  destruct (manual_create_owner_is_session_user Example.schema Example.new_id 30
              Example.db Example.alice_id eq_refl Example.lisbon_shared)
    as [Hcreated _].
  destruct (Hcreated eq_refl) as [it [Hbody [_ Howner]]].
  exists it. split; [exact Hbody|]. split; [reflexivity | exact Howner].
Defined.

(* ================================================================= *)
(** ** Collaboration manager *)

Lemma find_unique {A B} (key : A -> B) (p : A -> bool) (l : list A) (x : A) :
  NoDup (map key l) -> In x l -> p x = true ->
  (forall y, p y = true -> key y = key x) ->
  find p l = Some x.
Proof.
  intros Hnd Hin Hp Hkey. induction l as [|y l IH]; simpl in *; [contradiction|].
  inversion Hnd as [|? ? Hnotin Hnd']; subst.
  destruct (p y) eqn:Ey.
  - destruct Hin as [->|Hin]; [reflexivity|].
    exfalso. apply Hnotin. rewrite (Hkey y Ey). apply in_map. exact Hin.
  - destruct Hin as [->|Hin]; [congruence|]. apply IH; assumption.
Qed.

Lemma map_replace_first {A B} (key : A -> B) (q : A -> bool) (g : A -> A)
    (l : list A) :
  (forall x, q x = true -> key (g x) = key x) ->
  map key (replace_first q g l) = map key l.
Proof.
  intros H. induction l as [|y l IH]; simpl; [reflexivity|].
  destruct (q y) eqn:E; simpl; [rewrite (H y E) | rewrite IH]; reflexivity.
Qed.

Lemma In_replace_first {A} (q : A -> bool) (g : A -> A) (l : list A) (x : A) :
  find q l = Some x -> In (g x) (replace_first q g l).
Proof.
  induction l as [|y l IH]; simpl; [discriminate|].
  destruct (q y) eqn:E.
  - intros H; injection H as ->. left; reflexivity.
  - intros H. right. apply IH. exact H.
Qed.

Lemma already_collaborator_In (c : ObjectId) (l : list ObjectId) :
  Collaborate.already_collaborator c l = true <-> In c l.
Proof. exact (existsb_oid_In c l). Qed.

Section CollaborateProperties.
Variable castEmail : Text -> Text.
Variable db : Store.
(** The owner [u], the itinerary [it] with identifier [i], the e-mail [e]. *)
Variables u i : ObjectId.
Variable it : Itinerary.t.
Variable e : Text.
Variable other : option Text.
Hypothesis Hu : canonical u = true.
Hypothesis Hi : canonical i = true.
Hypothesis Hids : NoDup (map Itinerary._id (itineraries db)).
Hypothesis Hstored : In it (itineraries db).
Hypothesis Hid : Itinerary._id it = i.
Hypothesis Howner : Itinerary.userId it = u.
Hypothesis He : e <> [].

Lemma owner_finds (l : list Itinerary.t) (x : Itinerary.t) :
  NoDup (map Itinerary._id l) -> In x l ->
  Itinerary._id x = i -> Itinerary.userId x = u ->
  find (matches (may_administer i u)) l = Some x
  /\ find (has_id i) l = Some x.
Proof.
  intros Hnd Hin Hxi Hxu. split.
  - apply (find_unique Itinerary._id); try assumption.
    + apply matches_may_administer. tauto.
    + intros y Hy. apply matches_may_administer in Hy. destruct Hy; congruence.
  - apply (find_unique Itinerary._id); try assumption.
    + apply oid_eqb_eq. assumption.
    + intros y Hy. apply oid_eqb_eq in Hy. congruence.
Qed.

Lemma add_response (l : list Itinerary.t) (x : Itinerary.t) :
  NoDup (map Itinerary._id l) -> In x l ->
  Itinerary._id x = i -> Itinerary.userId x = u ->
  Collaborate.handler castEmail (signed_in (toString u)) "POST" (toString i)
    {| Collaborate.email := Some e; Collaborate.collaboratorId := other |}
    (with_itineraries l db)
  = match Collaborate.User_findOne castEmail e db with
    | None => (res 404 (message "User not found"), with_itineraries l db)
    | Some c =>
        if oid_eqb (User._id c) u then
          (res 400 (message "You cannot add yourself as a collaborator"),
           with_itineraries l db)
        else if existsb (fun id' => oid_eqb id' (User._id c))
                  (Itinerary.collaborators x) then
          (res 400 (message "User is already a collaborator"),
           with_itineraries l db)
        else
          let x' := Itinerary.with_collaborators
                      (Itinerary.collaborators x ++ [User._id c]) x in
          let db' := with_itineraries
                       (replace_first (has_id i) (fun _ => x') l) db in
          (res 200 (data (Some (populate db' x'))), db')
    end.
Proof.
  intros Hnd Hin Hxi Hxu.
  destruct (owner_finds l x Hnd Hin Hxi Hxu) as [Hfind Hbyid].
  unfold Collaborate.handler, Itinerary_findOne; simpl.
  destruct e as [|c0 e']; [congruence|]. simpl.
  rewrite (cast_may_administer i u Hi Hu); simpl. rewrite Hfind.
  unfold Collaborate.User_findOne; simpl.
  destruct (find _ (users db)) as [c|]; [|reflexivity].
  fold (oid_eqb (User._id c) u).
  destruct (oid_eqb (User._id c) u); [reflexivity|].
  change (Collaborate.already_collaborator (User._id c) (Itinerary.collaborators x))
    with (existsb (fun id' => oid_eqb id' (User._id c)) (Itinerary.collaborators x)).
  destruct (existsb _ (Itinerary.collaborators x)); [reflexivity|].
  unfold Itinerary_findById, Itinerary_save. rewrite (cast_toString _ Hi); simpl.
  rewrite Hxi.
  set (x' := Itinerary.with_collaborators _ x).
  assert (Hx' : find (has_id i) (replace_first (has_id i) (fun _ => x') l) = Some x').
  { apply (find_unique Itinerary._id).
    - rewrite map_replace_first; [assumption|].
      intros y Hy. apply oid_eqb_eq in Hy. simpl. congruence.
    - apply (@In_replace_first _ (has_id i) (fun _ => x') l x Hbyid).
    - apply oid_eqb_eq. exact Hxi.
    - intros y Hy. apply oid_eqb_eq in Hy. simpl. congruence. }
  rewrite Hx'. reflexivity.
Qed.

(** C5. Let [u] own itinerary [i] and ask to add the user with e-mail [e].
    - If no user record has that e-mail, the answer is 404 "User not found".
    - If the resolved user is [u], the answer is 400 "You cannot add
      yourself as a collaborator".
    - If the resolved user is already among the collaborators, the answer
      is 400 "User is already a collaborator".
    In these three cases the store, and so the collaborator list, is
    unchanged.
    - Otherwise the answer is 200, the resolved identifier is appended to
      the collaborator list and the itinerary is persisted; the same
      request made again answers 400 "User is already a collaborator" and
      changes nothing. *)
Theorem add_collaborator_outcomes :
  let add := fun db0 =>
    Collaborate.handler castEmail (signed_in (toString u)) "POST" (toString i)
      {| Collaborate.email := Some e; Collaborate.collaboratorId := other |} db0 in
  ((forall c, In c (users db) -> User.email c <> castEmail e) ->
   add db = (res 404 (message "User not found"), db))
  /\ (forall c, Collaborate.User_findOne castEmail e db = Some c ->
      (User._id c = u ->
       add db = (res 400 (message "You cannot add yourself as a collaborator"), db))
      /\ (User._id c <> u -> In (User._id c) (Itinerary.collaborators it) ->
          add db = (res 400 (message "User is already a collaborator"), db))
      /\ (User._id c <> u -> ~ In (User._id c) (Itinerary.collaborators it) ->
          let it' := Itinerary.with_collaborators
                       (Itinerary.collaborators it ++ [User._id c]) it in
          let db' := with_itineraries
                       (replace_first (has_id i) (fun _ => it') (itineraries db))
                       db in
          add db = (res 200 (data (Some (populate db' it'))), db')
          /\ find (has_id i) (itineraries db') = Some it'
          /\ add db' = (res 400 (message "User is already a collaborator"), db'))).
Proof.
  cbv zeta.
  assert (Hdb : with_itineraries (itineraries db) db = db) by (destruct db; reflexivity).
  pose proof (add_response (itineraries db) it Hids Hstored Hid Howner) as Hadd.
  rewrite Hdb in Hadd.
  split.
  - intros Hnone. rewrite Hadd.
    replace (Collaborate.User_findOne castEmail e db) with (@None User.t);
      [reflexivity|].
    symmetry. apply find_None_iff. intros c Hc. apply text_eqb_neq. auto.
  - intros c Hc. rewrite Hadd, Hc.
    split; [|split].
    + intros Hself. apply oid_eqb_eq in Hself. rewrite Hself. reflexivity.
    + intros Hself Hin. apply oid_eqb_neq in Hself. rewrite Hself.
      apply existsb_oid_In in Hin. rewrite Hin. reflexivity.
    + intros Hself Hnotin. apply oid_eqb_neq in Hself. rewrite Hself.
      destruct (existsb _ (Itinerary.collaborators it)) eqn:E;
        [apply existsb_oid_In in E; contradiction|].
      set (it' := Itinerary.with_collaborators _ it).
      set (l' := replace_first (has_id i) (fun _ => it') (itineraries db)).
      assert (Hnd' : NoDup (map Itinerary._id l')).
      { unfold l'. rewrite map_replace_first; [assumption|].
        intros y Hy. apply oid_eqb_eq in Hy. simpl. congruence. }
      assert (Hin' : In it' l').
      { apply (@In_replace_first _ (has_id i) (fun _ => it') (itineraries db) it).
        apply (owner_finds (itineraries db) it); assumption. }
      split; [reflexivity|]. split.
      * apply (owner_finds l' it'); assumption.
      * assert (Hex : existsb (fun id' => oid_eqb id' (User._id c))
                        (Itinerary.collaborators it') = true).
        { apply existsb_oid_In. simpl. apply in_or_app. right. left.
          reflexivity. }
        rewrite (add_response l' it' Hnd' Hin' Hid Howner).
        rewrite Hc, Hself, Hex. reflexivity.
Qed.
End CollaborateProperties.

Lemma add_collaborator_witness :
  canonical Example.alice_id = true /\ canonical Example.paris_id = true /\
  NoDup (map Itinerary._id (itineraries Example.db)) /\
  In Example.paris (itineraries Example.db) /\
  Itinerary._id Example.paris = Example.paris_id /\
  Itinerary.userId Example.paris = Example.alice_id /\
  txt "zed@example.com" <> [] /\
  status (fst (Collaborate.handler (fun e => e)
                 (signed_in (toString Example.alice_id)) "POST"
                 (toString Example.paris_id)
                 {| Collaborate.email := Some (txt "zed@example.com");
                    Collaborate.collaboratorId := None |}
                 Example.db))
  = 200.
Proof.
  assert (Hnd : NoDup (map Itinerary._id (itineraries Example.db))).
  { simpl. repeat constructor; simpl; intros H;
      repeat (destruct H as [H|H]; [discriminate H|]); exact H. }
  assert (He : txt "zed@example.com" <> []) by discriminate.
  repeat (split; [first [reflexivity | exact Hnd | exact He | left; reflexivity]|]).
  destruct (add_collaborator_outcomes (fun e => e) Example.db
              Example.alice_id Example.paris_id Example.paris
              (txt "zed@example.com") None
              eq_refl eq_refl Hnd (or_introl eq_refl) eq_refl eq_refl He)
    as [_ Hfound].
  destruct (Hfound Example.zed eq_refl) as [_ [_ Hadded]].
  assert (Hne : User._id Example.zed <> Example.alice_id) by discriminate.
  assert (Hnew : ~ In (User._id Example.zed) (Itinerary.collaborators Example.paris)).
  { simpl. intros [H|[]]. discriminate H. }
  destruct (Hadded Hne Hnew) as [Hres _].
  rewrite Hres. reflexivity.
Defined.

(* ================================================================= *)
(** ** Identifier comparison *)

Lemma strict_eq_Some (a b : Text) :
  Detail.strict_eq (Some a) (Some b) = true <-> a = b.
Proof. apply text_eqb_eq. Qed.

Lemma same_user_Reference (sid id : Text) :
  Detail.same_user (Some sid) (Detail.Reference id) = true <-> id = sid.
Proof.
  unfold Detail.same_user; simpl. rewrite orb_false_r. apply text_eqb_eq.
Qed.

Lemma same_user_Expanded (sid : Text) (i : option Text) (n e : Text) :
  sid <> txt "[object Object]" ->
  Detail.same_user (Some sid) (Detail.Expanded i n e) = true <-> i = Some sid.
Proof.
  intros Hsid. unfold Detail.same_user.
  cbn [Detail.js_toString Detail.is_object Detail._id_toString andb].
  rewrite orb_true_iff, strict_eq_Some. split.
  - intros [H | H]; [congruence|].
    destruct i as [i|]; [|discriminate].
    apply strict_eq_Some in H. congruence.
  - intros ->. right. apply strict_eq_Some. reflexivity.
Qed.

(** C6. The membership test of the page recognises a user in both forms of
    a collaborator entry, the bare identifier and the populated record,
    whatever the display fields of the record are; so a collaborator list
    with an entry standing for the session user makes [isCollaborator]
    true.  The test depends on the entry only through the identifier it
    normalizes to.  The duplicate test of the add-collaborator handler
    likewise compares the string forms of the two identifiers. *)
Theorem collaborator_check_normalizes :
  (forall id name email : Text,
      Detail.same_user (Some id) (Detail.Reference id) = true
      /\ Detail.same_user (Some id) (Detail.Expanded (Some id) name email) = true)
  /\ (forall (sid : Text) (v : Detail.IdValue) (cs : list Detail.IdValue)
             (o : option Detail.IdValue),
         In v cs -> Detail.normalize v = Some sid ->
         Detail.isCollaborator
           (Some {| Detail.userId := o; Detail.collaborators := Some cs |})
           (Some sid) = true)
  /\ (forall (sid i : option Text) (n e n' e' : Text),
         Detail.same_user sid (Detail.Expanded i n e)
         = Detail.same_user sid (Detail.Expanded i n' e'))
  /\ (forall (sid : Text) (v : Detail.IdValue),
         sid <> txt "[object Object]" ->
         (Detail.same_user (Some sid) v = true <-> Detail.normalize v = Some sid))
  /\ (forall (c : ObjectId) (l : list ObjectId),
         Collaborate.already_collaborator c l = true <->
         exists c', In c' l /\ toString c' = toString c).
Proof.
  assert (Hboth : forall (sid : Text) (v : Detail.IdValue),
             Detail.normalize v = Some sid ->
             Detail.same_user (Some sid) v = true).
  { intros sid [id | i n e]; simpl; intros H.
    - apply same_user_Reference. congruence.
    - subst i. unfold Detail.same_user; simpl.
      rewrite text_eqb_refl. apply orb_true_r. }
  split; [|split; [|split; [|split]]].
  - intros id name email. split; apply Hboth; reflexivity.
  - intros sid v cs o Hin Hn. simpl. apply existsb_exists.
    exists v. split; [assumption | apply Hboth; assumption].
  - reflexivity.
  - intros sid [id | i n e] Hsid; simpl.
    + rewrite same_user_Reference. split; congruence.
    + apply same_user_Expanded. assumption.
  - intros c l. unfold Collaborate.already_collaborator.
    rewrite existsb_exists. split; intros [c' [Hin H]]; exists c';
      (split; [assumption|]); apply text_eqb_eq; assumption.
Qed.

(** By contrast the ownership test of the same page compares the session
    identifier with [userId.toString()], which for a populated owner is
    not the identifier. *)
Lemma isOwner_populated (sid : Text) (i : option Text) (n e : Text)
    (cs : option (list Detail.IdValue)) :
  sid <> txt "[object Object]" ->
  Detail.isOwner
    (Some {| Detail.userId := Some (Detail.Expanded i n e);
             Detail.collaborators := cs |})
    (Some sid) = false.
Proof.
  intros Hsid. simpl. apply text_eqb_neq. exact Hsid.
Qed.

(* ================================================================= *)
(** ** Ingestion pipeline: the parse fallback *)

Lemma char_is_iff (c : N) (a : ascii) :
  Json.char_is c a = true <-> c = N_of_ascii a.
Proof. unfold Json.char_is. apply N.eqb_eq. Qed.

Lemma is_close_brace (c : N) :
  Json.char_is c "}" = true <-> c = Generate.close_brace.
Proof. apply char_is_iff. Qed.

Lemma is_open_brace (c : N) :
  Json.char_is c "{" = true <-> c = Generate.open_brace.
Proof. apply char_is_iff. Qed.

Lemma up_to_last_brace_none (s : Text) :
  ~ In Generate.close_brace s -> Generate.up_to_last_brace s = None.
Proof.
  induction s as [|c s IH]; simpl; intros Hnot; [reflexivity|].
  rewrite IH by tauto.
  destruct (Json.char_is c "}") eqn:E; [|reflexivity].
  apply is_close_brace in E. exfalso. apply Hnot. left. congruence.
Qed.







(** *** The repair of a fenced object *)







(* ================================================================= *)
(** ** [JSON.parse]: the fuel is enough *)

Lemma skip_ws_le (s : Text) : List.length (Json.skip_ws s) <= List.length s.
Proof.
  induction s as [|c s IH]; simpl; [lia|].
  destruct (Json.is_ws c); simpl; lia.
Qed.

Lemma strip_prefix_le (p s r : Text) :
  Json.strip_prefix p s = Some r -> List.length r <= List.length s.
Proof.
  revert s. induction p as [|a p IH]; intros [|b s]; simpl; intros H;
    try discriminate; try (injection H as <-; simpl; lia).
  destruct (N.eqb a b); [|discriminate]. apply IH in H. lia.
Qed.

Lemma digits_le (s : Text) : List.length (snd (Json.digits s)) <= List.length s.
Proof.
  induction s as [|c s IH]; simpl; [lia|].
  destruct (isDigit c); simpl; [|lia].
  destruct (Json.digits s) as [ds rest]; simpl in *. lia.
Qed.

Lemma number_int_lt (s i r : Text) :
  Json.number_int s = Some (i, r) -> List.length r < List.length s.
Proof.
  destruct s as [|c t]; simpl; [discriminate|].
  destruct (Json.char_is c "0").
  - intros H; injection H as <- <-. simpl in *; lia.
  - destruct (isDigit c) eqn:E; [|discriminate].
    pose proof (digits_le t) as Hd. destruct (Json.digits t) as [ds rest].
    simpl in Hd. intros H; injection H as <- <-. simpl in *; lia.
Qed.

Lemma number_frac_le (s f r : Text) :
  Json.number_frac s = Some (f, r) -> List.length r <= List.length s.
Proof.
  destruct s as [|c t]; simpl.
  - intros H; injection H as <- <-. simpl; lia.
  - destruct (Json.char_is c ".").
    + pose proof (digits_le t) as Hd. destruct (Json.digits t) as [[|d ds] rest];
        [discriminate|]. simpl in Hd. intros H; injection H as <- <-. simpl in *; lia.
    + intros H; injection H as <- <-. simpl; lia.
Qed.

Lemma optional_le (p : N -> bool) (s sg r : Text) :
  Json.optional p s = (sg, r) -> List.length r <= List.length s.
Proof.
  destruct s as [|c t]; simpl; [intros H; injection H as <- <-; simpl; lia|].
  destruct (p c); intros H; injection H as <- <-; simpl; lia.
Qed.

Lemma number_exp_le (s e r : Text) :
  Json.number_exp s = Some (e, r) -> List.length r <= List.length s.
Proof.
  destruct s as [|c t]; simpl.
  - intros H; injection H as <- <-. simpl; lia.
  - destruct (Json.char_is c "e" || Json.char_is c "E").
    + destruct (Json.optional _ t) as [sg t'] eqn:Et.
      apply optional_le in Et.
      pose proof (digits_le t') as Hd. destruct (Json.digits t') as [[|d ds] rest];
        [discriminate|]. simpl in Hd. intros H; injection H as <- <-. simpl in *; lia.
    + intros H; injection H as <- <-. simpl; lia.
Qed.

Lemma parse_number_lt (s lx r : Text) :
  Json.parse_number s = Some (lx, r) -> List.length r < List.length s.
Proof.
  unfold Json.parse_number.
  destruct (Json.optional _ s) as [sg s1] eqn:Es.
  apply optional_le in Es.
  destruct (Json.number_int s1) as [[i s2]|] eqn:Ei; [|discriminate].
  apply number_int_lt in Ei.
  destruct (Json.number_frac s2) as [[f s3]|] eqn:Ef; [|discriminate].
  apply number_frac_le in Ef.
  destruct (Json.number_exp s3) as [[e s4]|] eqn:Ee; [|discriminate].
  apply number_exp_le in Ee.
  intros H; injection H as <- <-. simpl in *; lia.
Qed.

Lemma parse_string_body_lt (s acc str r : Text) :
  Json.parse_string_body s acc = Some (str, r) -> List.length r < List.length s.
Proof.
  remember (List.length s) as n eqn:Hn. revert s acc Hn.
  induction n as [n IH] using lt_wf_ind. intros s acc Hn. subst n.
  destruct s as [|c t]; simpl; [discriminate|].
  destruct (N.eqb c Json.quote).
  - intros H; injection H as <- <-. lia.
  - destruct (Json.char_is c "\").
    + destruct t as [|e t']; [discriminate|].
      destruct (Json.char_is e "u").
      * destruct t' as [|h1 [|h2 [|h3 [|h4 t'']]]]; try discriminate.
        match goal with |- (if ?b then _ else _) = _ -> _ => destruct b end; [|discriminate].
        intros H.
        assert (Hlt : List.length t'' < List.length (c :: e :: h1 :: h2 :: h3 :: h4 :: t''))
          by (simpl; lia).
        pose proof (fun a => IH _ Hlt t'' a eq_refl) as IH'. apply IH' in H. simpl in *; lia.
      * destruct (Json.simple_escape e); [|discriminate].
        intros H.
        assert (Hlt : List.length t' < List.length (c :: e :: t')) by (simpl; lia).
        pose proof (fun a => IH _ Hlt t' a eq_refl) as IH'. apply IH' in H. simpl in *; lia.
    + destruct (c <? 32)%N; [discriminate|].
      intros H.
      assert (Hlt : List.length t < List.length (c :: t)) by (simpl; lia).
      pose proof (fun a => IH _ Hlt t a eq_refl) as IH'. apply IH' in H. simpl in *; lia.
Qed.

Lemma parse_value_step (f : nat) :
  value_ok f -> elements_ok f -> members_ok f -> value_ok (S f).
Proof.
  intros IHV IHE IHM s v rest H. cbn [Json.parse_value] in H.
  pose proof (skip_ws_le s) as Hws.
  destruct (Json.skip_ws s) as [|c t] eqn:Es; [discriminate|]. cbn [List.length] in Hws.
  destruct (Json.char_is c "{") eqn:E1.
  { pose proof (skip_ws_le t) as Hws'.
    destruct (Json.skip_ws t) as [|c' t'] eqn:Et; [discriminate|]. cbn [List.length] in Hws'.
    destruct (Json.char_is c' "}") eqn:E2.
    - injection H as <- <-. split; [lia|].
      intros f' _. cbn [Json.parse_value]. rewrite Es, E1, Et, E2. reflexivity.
    - apply IHM in H. destruct H as [Hlen Hfuel]. cbn [List.length] in Hlen. split; [lia|].
      intros [|f'] Hb; [cbn [List.length] in *; lia|].
      cbn [Json.parse_value]. rewrite Es, E1, Et, E2. apply Hfuel. cbn [List.length] in *; lia. }
  destruct (Json.char_is c "[") eqn:E2.
  { pose proof (skip_ws_le t) as Hws'.
    destruct (Json.skip_ws t) as [|c' t'] eqn:Et; [discriminate|]. cbn [List.length] in Hws'.
    destruct (Json.char_is c' "]") eqn:E3.
    - injection H as <- <-. split; [lia|].
      intros f' _. cbn [Json.parse_value]. rewrite Es, E1, E2, Et, E3. reflexivity.
    - apply IHE in H. destruct H as [Hlen Hfuel]. cbn [List.length] in Hlen. split; [lia|].
      intros [|f'] Hb; [cbn [List.length] in *; lia|].
      cbn [Json.parse_value]. rewrite Es, E1, E2, Et, E3. apply Hfuel. cbn [List.length] in *; lia. }
  assert (Hscalar :
    forall f', Json.parse_value (S f') s = Json.parse_value (S f) s).
  { intros f'. cbn [Json.parse_value]. rewrite Es, E1, E2. reflexivity. }
  assert (Hlen : List.length rest < List.length s).
  { destruct (N.eqb c Json.quote).
    - destruct (Json.parse_string_body t []) as [[str r]|] eqn:Eb; [|discriminate].
      injection H as <- <-. apply parse_string_body_lt in Eb. lia.
    - destruct (Json.char_is c "t").
      { destruct (Json.strip_prefix (txt "rue") t) as [r|] eqn:Ep; [|discriminate].
        injection H as <- <-. apply strip_prefix_le in Ep. lia. }
      destruct (Json.char_is c "f").
      { destruct (Json.strip_prefix (txt "alse") t) as [r|] eqn:Ep; [|discriminate].
        injection H as <- <-. apply strip_prefix_le in Ep. lia. }
      destruct (Json.char_is c "n").
      { destruct (Json.strip_prefix (txt "ull") t) as [r|] eqn:Ep; [|discriminate].
        injection H as <- <-. apply strip_prefix_le in Ep. lia. }
      destruct (Json.parse_number (c :: t)) as [[lx r]|] eqn:En; [|discriminate].
      injection H as <- <-. apply parse_number_lt in En. cbn [List.length] in En. lia. }
  split; [exact Hlen|].
  intros f' _. rewrite Hscalar. cbn [Json.parse_value]. rewrite Es, E1, E2. exact H.
Qed.

Lemma parse_elements_step (f : nat) :
  value_ok f -> elements_ok f -> elements_ok (S f).
Proof.
  intros IHV IHE s acc v rest H. cbn [Json.parse_elements] in H.
  destruct (Json.parse_value f s) as [[v1 r1]|] eqn:Ev; [|discriminate].
  apply IHV in Ev. destruct Ev as [Hl1 Hf1].
  pose proof (skip_ws_le r1) as Hws.
  destruct (Json.skip_ws r1) as [|c t] eqn:Er; [discriminate|].
  cbn [List.length] in Hws.
  destruct (Json.char_is c ",") eqn:E1.
  - apply IHE in H. destruct H as [Hl2 Hf2]. split; [lia|].
    intros [|f'] Hb; [lia|]. cbn [Json.parse_elements].
    rewrite (Hf1 f') by lia. rewrite Er, E1. apply Hf2. lia.
  - destruct (Json.char_is c "]") eqn:E2; [|discriminate].
    injection H as <- <-. split; [lia|].
    intros [|f'] Hb; [lia|]. cbn [Json.parse_elements].
    rewrite (Hf1 f') by lia. rewrite Er, E1, E2. reflexivity.
Qed.

Lemma parse_members_step (f : nat) :
  value_ok f -> members_ok f -> members_ok (S f).
Proof.
  intros IHV IHM s acc v rest H. cbn [Json.parse_members] in H.
  pose proof (skip_ws_le s) as Hws.
  destruct (Json.skip_ws s) as [|c t] eqn:Es; [discriminate|].
  cbn [List.length] in Hws.
  destruct (N.eqb c Json.quote) eqn:E1; [|discriminate].
  destruct (Json.parse_string_body t []) as [[k r1]|] eqn:Ek; [|discriminate].
  pose proof (parse_string_body_lt _ _ _ _ Ek) as Hk.
  pose proof (skip_ws_le r1) as Hws1.
  destruct (Json.skip_ws r1) as [|c' t'] eqn:Er1; [discriminate|].
  cbn [List.length] in Hws1.
  destruct (Json.char_is c' ":") eqn:E2; [|discriminate].
  destruct (Json.parse_value f t') as [[v1 r2]|] eqn:Ev; [|discriminate].
  apply IHV in Ev. destruct Ev as [Hl1 Hf1].
  pose proof (skip_ws_le r2) as Hws2.
  destruct (Json.skip_ws r2) as [|c'' t''] eqn:Er2; [discriminate|].
  cbn [List.length] in Hws2.
  destruct (Json.char_is c'' ",") eqn:E3.
  - apply IHM in H. destruct H as [Hl2 Hf2]. split; [lia|].
    intros [|f'] Hb; [lia|]. cbn [Json.parse_members].
    rewrite Es, E1, Ek, Er1, E2. rewrite (Hf1 f') by lia.
    rewrite Er2, E3. apply Hf2. lia.
  - destruct (Json.char_is c'' "}") eqn:E4; [|discriminate].
    injection H as <- <-. split; [lia|].
    intros [|f'] Hb; [lia|]. cbn [Json.parse_members].
    rewrite Es, E1, Ek, Er1, E2. rewrite (Hf1 f') by lia.
    rewrite Er2, E3, E4. reflexivity.
Qed.

Lemma parse_fuel_ok (f : nat) : value_ok f /\ elements_ok f /\ members_ok f.
Proof.
  induction f as [|f [IHV [IHE IHM]]].
  - split; [|split]; intros ? ? ?; simpl; intros; discriminate.
  - split; [|split].
    + apply parse_value_step; assumption.
    + apply parse_elements_step; assumption.
    + apply parse_members_step; assumption.
Qed.

(** The fuel of [Json.parse] never cuts a parse short. *)
Theorem parse_value_fuel (s : Text) (f : nat) (v : JSON) (rest : Text) :
  Json.parse_value f s = Some (v, rest) ->
  Json.parse_value (S (List.length s)) s = Some (v, rest).
Proof.
  intros H. destruct (parse_fuel_ok f) as [HV _].
  destruct (HV s v rest H) as [Hlen Hfuel]. apply Hfuel. lia.
Qed.

(* ================================================================= *)
(** ** Creation: the sharing state of a new itinerary *)

Lemma create_result (sch : Schema) (fresh : ObjectId) (now : nat)
    (d : Fields.t) (db : Store) (it : Itinerary.t) (db' : Store) :
  Itinerary_create sch fresh now d db = Ok (it, db') ->
  db' = with_itineraries (itineraries db ++ [it]) db
  /\ mapM castObjectId (or_else (Fields.collaborators d) default_collaborators)
     = Ok (Itinerary.collaborators it)
  /\ Itinerary.isPublic it = or_else (Fields.isPublic d) default_isPublic
  /\ (exists o, Fields.userId d = Some o
                /\ castObjectId o = Ok (Itinerary.userId it)).
Proof.
  unfold Itinerary_create. destruct (Fields.userId d) as [o|]; [|discriminate].
  destruct (castObjectId o) as [oid|] eqn:Eo; simpl; [|discriminate].
  destruct (mapM castObjectId _) as [cs|]; simpl; [|discriminate].
  destruct (validate sch d); [|discriminate].
  intros H. injection H as <- <-. simpl. eauto 6.
Qed.

Section GenerateProperties.
Variable sch : Schema.
Variable fresh : ObjectId.
Variable now : nat.
Variable isZero : Text -> bool.
Variable titleOf : JSValue -> JSValue -> JSValue.
Variable parseInt : JSValue -> JSValue.
Variable generateItinerary : JSValue -> JSValue -> JSValue -> JSValue -> Result Text.

Lemma generate_created (session : option Session.t) (method : string)
    (reqBody : Generate.Body) (dbConnect : Result unit) (db : Store) :
  let r := Generate.handler sch fresh now isZero titleOf parseInt
             generateItinerary session method reqBody dbConnect db in
  status (fst r) = 201 ->
  exists it, body (fst r) = data_created it
             /\ itineraries (snd r) = itineraries db ++ [it]
             /\ starts_private it.
Proof.
  cbv zeta. unfold Generate.handler.
  destruct (negb (method =? "POST")); [discriminate|].
  destruct (session_user session) as [user|]; [|discriminate].
  destruct (negb _ || negb _ || negb _); [discriminate|].
  destruct dbConnect as [[]|e]; [|discriminate].
  destruct (generateItinerary _ _ _ _) as [raw|e]; simpl; [|discriminate].
  destruct (Generate.parseItineraryData raw) as [parsedData|e]; simpl;
    [|discriminate].
  destruct (Generate.prop parsedData "days") as [parsedDays|e]; simpl;
    [|discriminate].
  destruct (negb _ || negb _); [discriminate|].
  destruct (Generate.array_length parsedDays =? 0)%nat; [discriminate|].
  destruct (Generate.prop parsedData "destination") as [d1|e]; simpl;
    [|discriminate].
  destruct (Generate.prop parsedData "totalDays") as [d2|e]; simpl;
    [|discriminate].
  destruct (Generate.prop parsedData "budget") as [d3|e]; simpl;
    [|discriminate].
  destruct (Generate.prop parsedData "interests") as [d4|e]; simpl;
    [|discriminate].
  destruct (Generate.prop parsedData "summary") as [d5|e]; simpl;
    [|discriminate].
  destruct (Itinerary_create _ _ _ _ _) as [[it db']|e] eqn:Ec; simpl;
    [|discriminate].
  intros _. apply create_result in Ec. simpl in Ec.
  destruct Ec as [-> [Hcs [Hpub _]]].
  exists it. split; [reflexivity|]. split; [reflexivity|].
  split; [congruence | exact Hpub].
Qed.
End GenerateProperties.

Lemma manual_created (sch : Schema) (fresh : ObjectId) (now : nat)
    (session : option Session.t) (b : Fields.t) (db : Store) :
  let r := ItineraryIndex.handler sch fresh now session "POST" b db in
  status (fst r) = 201 ->
  exists it, body (fst r) = data_created it
             /\ itineraries (snd r) = itineraries db ++ [it]
             /\ mapM castObjectId (or_else (Fields.collaborators b) [])
                = Ok (Itinerary.collaborators it)
             /\ Itinerary.isPublic it = or_else (Fields.isPublic b) false.
Proof.
  cbv zeta. unfold ItineraryIndex.handler.
  destruct (session_user session) as [user|]; [|discriminate]. simpl.
  destruct (Itinerary_create _ _ _ _ _) as [[it db']|e] eqn:Ec; simpl;
    [|discriminate].
  intros _. apply create_result in Ec. simpl in Ec.
  destruct Ec as [-> [Hcs [Hpub _]]].
  exists it. auto.
Qed.

(** C8, as the code has it.  An itinerary created from a generation
    result is persisted with no collaborator and [isPublic = false],
    whatever the request and the generated text are.  A manually created
    itinerary is persisted with the collaborators and the public-read flag
    of the request body, and with no collaborator and [isPublic = false]
    only where the body has no such field. *)
Theorem created_sharing_state :
  (forall sch fresh now isZero titleOf parseInt generateItinerary
          session method reqBody dbConnect db,
      let r := Generate.handler sch fresh now isZero titleOf parseInt
                 generateItinerary session method reqBody dbConnect db in
      status (fst r) = 201 ->
      exists it, body (fst r) = data_created it
                 /\ itineraries (snd r) = itineraries db ++ [it]
                 /\ starts_private it)
  /\ (forall sch fresh now session b db,
      let r := ItineraryIndex.handler sch fresh now session "POST" b db in
      status (fst r) = 201 ->
      exists it, body (fst r) = data_created it
                 /\ itineraries (snd r) = itineraries db ++ [it]
                 /\ mapM castObjectId (or_else (Fields.collaborators b) [])
                    = Ok (Itinerary.collaborators it)
                 /\ Itinerary.isPublic it = or_else (Fields.isPublic b) false
                 /\ (Fields.collaborators b = None -> Fields.isPublic b = None ->
                     starts_private it)).
Proof.
  split.
  - intros sch fresh now isZero titleOf parseInt generateItinerary
           session method reqBody dbConnect db.
    apply generate_created.
  - intros sch fresh now session b db r H.
    destruct (manual_created sch fresh now session b db H)
      as [it [Hbody [Hstore [Hcs Hpub]]]].
    exists it. repeat (split; [assumption|]).
    intros Hc Hp. rewrite Hc in Hcs. rewrite Hp in Hpub. simpl in *.
    split; [congruence | assumption].
Qed.

(** Both creation paths do answer 201: the generation of a three-day plan
    for Alice, which starts private, and her manual creation of an
    itinerary without sharing fields. *)
Lemma created_sharing_state_witness :
  (exists it,
      body (fst (Generate.handler Example.schema Example.new_id 30
                   (fun _ => false) (fun _ _ => Example.str "Paris - 3 Days Trip")
                   (fun d => d)
                   (fun _ _ _ _ => Ok (Example.json "{'days':[{},{},{}]}"))
                   (signed_in (toString Example.alice_id)) "POST"
                   {| Generate.destination := Example.str "Paris";
                      Generate.days := Example.num "3";
                      Generate.budget := Example.str "$1000";
                      Generate.interests := None |}
                   (Ok tt) Example.db))
      = data_created it
      /\ starts_private it)
  /\ (exists it,
      body (fst (ItineraryIndex.handler Example.schema Example.new_id 30
                   (signed_in (toString Example.alice_id)) "POST"
                   Example.lisbon Example.db))
      = data_created it
      /\ starts_private it).
Proof.
  destruct created_sharing_state as [Hgen Hman]. split.
  - destruct (Hgen Example.schema Example.new_id 30
                (fun _ => false) (fun _ _ => Example.str "Paris - 3 Days Trip")
                (fun d => d)
                (fun _ _ _ _ => Ok (Example.json "{'days':[{},{},{}]}"))
                (signed_in (toString Example.alice_id)) "POST"
                {| Generate.destination := Example.str "Paris";
                   Generate.days := Example.num "3";
                   Generate.budget := Example.str "$1000";
                   Generate.interests := None |}
                (Ok tt) Example.db eq_refl)
      as [it [Hbody [_ Hprivate]]].
    exists it. split; assumption.
  - destruct (Hman Example.schema Example.new_id 30
                (signed_in (toString Example.alice_id)) Example.lisbon
                Example.db eq_refl)
      as [it [Hbody [_ [_ [_ Hprivate]]]]].
    exists it. split; [assumption | apply Hprivate; reflexivity].
Defined.

(** C8 as stated fails for manual creation.  Alice posts an itinerary
    whose body names Zed as collaborator and sets [isPublic]; the answer
    is 201 and the stored itinerary is shared with Zed and public. *)
Lemma manual_create_can_start_shared :
  ItineraryIndex.handler Example.schema Example.new_id 30
    (signed_in (toString Example.alice_id)) "POST"
    Example.lisbon_shared Example.db
  = (res 201 (data_created Example.lisbon_stored),
     with_itineraries (itineraries Example.db ++ [Example.lisbon_stored])
       Example.db)
  /\ Itinerary.collaborators Example.lisbon_stored = [Example.zed_id]
  /\ Itinerary.isPublic Example.lisbon_stored = true
  /\ ~ starts_private Example.lisbon_stored.
Proof.
  split; [vm_compute; reflexivity|].
  split; [reflexivity|]. split; [reflexivity|].
  intros [H _]. discriminate H.
Qed.

(* ================================================================= *)
(** ** Update: the owner of an itinerary *)



(* ================================================================= *)
(** ** What the handlers leave alone *)

Lemma In_replace_first_inv {A} (q : A -> bool) (f : A -> A) (l : list A) (x : A) :
  In x (replace_first q f l) ->
  In x l \/ exists y, In y l /\ q y = true /\ x = f y.
Proof.
  induction l as [|y l IH]; simpl; [tauto|].
  destruct (q y) eqn:E; simpl.
  - intros [<-|H]; [right; exists y; auto | left; auto].
  - intros [<-|H]; [left; auto|].
    destruct (IH H) as [H'|[z [Hz [Hq Hx]]]]; [left; auto|].
    right. exists z. auto.
Qed.

Lemma In_replace_first_other {A} (q : A -> bool) (f : A -> A) (l : list A) (x : A) :
  q x = false -> (forall y, q y = true -> q (f y) = true) ->
  (In x (replace_first q f l) <-> In x l).
Proof.
  intros Hx Hf. induction l as [|y l IH]; simpl; [tauto|].
  destruct (q y) eqn:E; simpl.
  - split; intros [H|H]; auto.
    + subst x. rewrite (Hf y E) in Hx. discriminate.
    + subst x. congruence.
  - rewrite IH. tauto.
Qed.

Lemma length_replace_first {A} (q : A -> bool) (f : A -> A) (l : list A) :
  List.length (replace_first q f l) = List.length l.
Proof.
  induction l as [|y l IH]; simpl; [reflexivity|].
  destruct (q y); simpl; congruence.
Qed.

Lemma In_remove_first_other {A} (q : A -> bool) (l : list A) (x : A) :
  q x = false -> (In x (remove_first q l) <-> In x l).
Proof.
  intros Hx. induction l as [|y l IH]; simpl; [tauto|].
  destruct (q y) eqn:E; simpl.
  - split; [auto|]. intros [H|H]; [subst; congruence | assumption].
  - rewrite IH. tauto.
Qed.

Lemma length_remove_first {A} (q : A -> bool) (l : list A) :
  List.length (remove_first q l) <= List.length l.
Proof.
  induction l as [|y l IH]; simpl; [lia|].
  destruct (q y); simpl; lia.
Qed.

Lemma replace_first_fixed {A} (q : A -> bool) (f : A -> A) (l : list A) :
  (forall x, In x l -> q x = true -> f x = x) -> replace_first q f l = l.
Proof.
  induction l as [|y l IH]; simpl; intros H; [reflexivity|].
  destruct (q y) eqn:E.
  - rewrite (H y (or_introl eq_refl) E). reflexivity.
  - rewrite IH; [reflexivity|]. intros x Hx. apply H. right; exact Hx.
Qed.

Lemma replace_first_twice {A} (q : A -> bool) (f g : A -> A) (l : list A) :
  (forall x, q x = true -> q (f x) = true) ->
  replace_first q g (replace_first q f l)
  = replace_first q (fun x => g (f x)) l.
Proof.
  intros Hf. induction l as [|y l IH]; simpl; [reflexivity|].
  destruct (q y) eqn:E; simpl.
  - rewrite (Hf y E). reflexivity.
  - rewrite E, IH. reflexivity.
Qed.

Lemma has_id_false (i : ObjectId) (it : Itinerary.t) :
  Itinerary._id it <> i -> has_id i it = false.
Proof. intros H. apply oid_eqb_neq. exact H. Qed.

Lemma with_itineraries_same (db : Store) :
  with_itineraries (itineraries db) db = db.
Proof. destruct db; reflexivity. Qed.

(** X1. Whatever the request is, the handler of one itinerary never
    touches the user records; it leaves the store as it was unless it
    answers 200, and always on a GET; it never adds an itinerary; and the
    itineraries whose identifier is not the requested one are the same
    before and after. *)
Theorem by_id_effects (sch : Schema) (session : option Session.t)
    (method : string) (id : Text) (b : Fields.t) (db : Store) :
  let r := ItineraryById.handler sch session method id b db in
  users (snd r) = users db
  /\ (status (fst r) = 200 \/ snd r = db)
  /\ (method = "GET" -> snd r = db)
  /\ List.length (itineraries (snd r)) <= List.length (itineraries db)
  /\ (forall i it, castObjectId id = Ok i -> Itinerary._id it <> i ->
        (In it (itineraries (snd r)) <-> In it (itineraries db))).
Proof.
  cbv zeta. unfold ItineraryById.handler.
  destruct (session_user session) as [user|];
    [|simpl; repeat split; auto; tauto].
  destruct (method =? "GET") eqn:Eget.
  { destruct (Itinerary_findOne _ db) as [[it|]|e]; simpl;
      repeat split; auto; tauto. }
  assert (Hnotget : method = "GET" ->
                    forall s : Store, s = db).
  { intros ->. discriminate Eget. }
  destruct (method =? "PUT").
  { destruct (Itinerary_findOne _ db) as [[it|]|e];
      try (simpl; repeat split; auto; tauto).
    unfold Itinerary_findByIdAndUpdate.
    destruct (castObjectId id) as [i|e]; simpl;
      [|repeat split; auto; tauto].
    destruct (castOpt (mapM castObjectId) (Fields.collaborators b)) as [cs|e];
      simpl; [|repeat split; auto; tauto].
    destruct (content_castable sch b); [|simpl; repeat split; auto; tauto].
    destruct (validateUpdate sch b); [|simpl; repeat split; auto; tauto].
    destruct (find (has_id i) (itineraries db)) as [found|]; simpl;
      [|repeat split; auto; tauto].
    split; [reflexivity|]. split; [auto|]. split; [auto|].
    split; [rewrite length_replace_first; lia|].
    intros i' it' Hi' Hne. injection Hi' as <-.
    apply In_replace_first_other; [apply has_id_false; assumption|].
    intros y Hy. exact Hy. }
  destruct (method =? "DELETE").
  { destruct (Itinerary_findOne _ db) as [[it|]|e];
      try (simpl; repeat split; auto; tauto).
    unfold Itinerary_findByIdAndDelete.
    destruct (castObjectId id) as [i|e]; simpl;
      [|repeat split; auto; tauto].
    split; [reflexivity|]. split; [auto|]. split; [auto|].
    split; [apply length_remove_first|].
    intros i' it' Hi' Hne. injection Hi' as <-.
    apply In_remove_first_other. apply has_id_false. assumption. }
  simpl. repeat split; auto; tauto.
Qed.

(* ================================================================= *)
(** ** Collaboration manager: removal, invariants and composition *)

Lemma findOne_administer_inv (id sid : Text) (db : Store) (it : Itinerary.t) :
  Itinerary_findOne [c_id id; c_userId sid] db = Ok (Some it) ->
  exists i uo,
    castObjectId id = Ok i /\ castObjectId sid = Ok uo
    /\ In it (itineraries db) /\ Itinerary._id it = i /\ Itinerary.userId it = uo.
Proof.
  unfold Itinerary_findOne, castFilter. cbn [mapM castCond bind].
  destruct (castObjectId id) as [i|e]; [|discriminate].
  destruct (castObjectId sid) as [uo|e]; [|discriminate].
  intros H. injection H as H. apply find_some in H. destruct H as [Hin Hm].
  apply (matches_may_administer i uo it) in Hm. destruct Hm as [Hid Ho].
  exists i, uo. auto.
Qed.

(** The store after a request to the collaboration handler: unchanged,
    with an answer other than 200; or one owned itinerary saved with a
    collaborator appended or with a collaborator filtered out, with the
    answer 200. *)
Lemma collaborate_cases (castEmail : Text -> Text) (session : option Session.t)
    (method : string) (id : Text) (reqBody : Collaborate.Body) (db : Store) :
  let r := Collaborate.handler castEmail session method id reqBody db in
  (snd r = db /\ status (fst r) <> 200)
  \/ exists user i uo it cs,
       session_user session = Some user
       /\ castObjectId id = Ok i
       /\ castObjectId (Session.id user) = Ok uo
       /\ In it (itineraries db)
       /\ Itinerary._id it = i /\ Itinerary.userId it = uo
       /\ status (fst r) = 200
       /\ snd r = Itinerary_save (Itinerary.with_collaborators cs it) db
       /\ ((exists c, In c (users db)
                      /\ toString (User._id c) <> Session.id user
                      /\ ~ In (User._id c) (Itinerary.collaborators it)
                      /\ cs = Itinerary.collaborators it ++ [User._id c])
           \/ (exists cid, cs = without cid (Itinerary.collaborators it))).
Proof.
  cbv zeta. unfold Collaborate.handler.
  destruct (session_user session) as [user|] eqn:Es;
    [|left; split; [reflexivity | discriminate]].
  destruct (method =? "POST").
  { destruct (Collaborate.falsy (Collaborate.email reqBody));
      [left; split; [reflexivity | discriminate]|].
    destruct (Itinerary_findOne _ db) as [[it|]|e] eqn:Ef;
      try (left; split; [reflexivity | discriminate]).
    destruct (findOne_administer_inv _ _ _ _ Ef)
      as [i [uo [Hi [Hu [Hin [Hid Ho]]]]]].
    destruct (Collaborate.User_findOne castEmail _ db) as [c|] eqn:Ec;
      [|left; split; [reflexivity | discriminate]].
    destruct (text_eqb (toString (User._id c)) (Session.id user)) eqn:Eself;
      [left; split; [reflexivity | discriminate]|].
    destruct (Collaborate.already_collaborator (User._id c)
                (Itinerary.collaborators it)) eqn:Edup;
      [left; split; [reflexivity | discriminate]|].
    right. exists user, i, uo, it,
      (Itinerary.collaborators it ++ [User._id c]).
    unfold Itinerary_findById. rewrite Hi. simpl.
    repeat (split; [first [reflexivity | assumption]|]).
    left. exists c. split; [|split; [|split]].
    - unfold Collaborate.User_findOne in Ec. apply find_some in Ec. tauto.
    - apply text_eqb_neq. exact Eself.
    - intros H. apply already_collaborator_In in H. congruence.
    - reflexivity. }
  destruct (method =? "DELETE").
  { destruct (Collaborate.falsy (Collaborate.collaboratorId reqBody));
      [left; split; [reflexivity | discriminate]|].
    destruct (Itinerary_findOne _ db) as [[it|]|e] eqn:Ef;
      try (left; split; [reflexivity | discriminate]).
    destruct (findOne_administer_inv _ _ _ _ Ef)
      as [i [uo [Hi [Hu [Hin [Hid Ho]]]]]].
    right. exists user, i, uo, it,
      (without (or_else (Collaborate.collaboratorId reqBody) [])
         (Itinerary.collaborators it)).
    unfold Itinerary_findById. rewrite Hi. simpl.
    repeat (split; [first [reflexivity | assumption]|]).
    right. eexists. reflexivity. }
  left; split; [reflexivity | discriminate].
Qed.

(** X2. Whatever the request is, the collaboration handler never touches
    the user records and never adds or removes an itinerary; it leaves the
    store as it was unless it answers 200; and the itineraries whose
    identifier is not the requested one are the same before and after. *)
Theorem collaborate_effects (castEmail : Text -> Text)
    (session : option Session.t) (method : string) (id : Text)
    (reqBody : Collaborate.Body) (db : Store) :
  let r := Collaborate.handler castEmail session method id reqBody db in
  users (snd r) = users db
  /\ (status (fst r) = 200 \/ snd r = db)
  /\ List.length (itineraries (snd r)) = List.length (itineraries db)
  /\ map Itinerary._id (itineraries (snd r)) = map Itinerary._id (itineraries db)
  /\ (forall i it, castObjectId id = Ok i -> Itinerary._id it <> i ->
        (In it (itineraries (snd r)) <-> In it (itineraries db))).
Proof.
  cbv zeta.
  destruct (collaborate_cases castEmail session method id reqBody db)
    as [[Hs _] | (user & i & uo & it & cs & _ & Hi & _ & _ & Hid & _ & Hst & Hs & _)];
    rewrite Hs.
  - repeat split; auto; tauto.
  - unfold Itinerary_save. simpl. rewrite Hid.
    split; [reflexivity|]. split; [left; exact Hst|].
    split; [apply length_replace_first|].
    split.
    + apply map_replace_first. intros y Hy. apply oid_eqb_eq in Hy.
      simpl. congruence.
    + intros i' it' Hi' Hne. rewrite Hi in Hi'. injection Hi' as <-.
      apply In_replace_first_other; [apply has_id_false; assumption|].
      intros y Hy. simpl. apply oid_eqb_eq. exact Hid.
Qed.

Lemma without_NoDup (cid : Text) (cs : list ObjectId) :
  NoDup cs -> NoDup (without cid cs).
Proof. apply NoDup_filter. Qed.

Lemma without_In (cid : Text) (cs : list ObjectId) (c : ObjectId) :
  In c (without cid cs) <-> In c cs /\ toString c <> cid.
Proof.
  unfold without. rewrite filter_In, negb_true_iff, text_eqb_neq. tauto.
Qed.

(** X3. The collaboration handler keeps the collaborator lists sets that
    exclude the owner: if every stored itinerary has a duplicate-free
    collaborator list without its owner, then so has every stored
    itinerary after any request of a signed-in user. *)
Theorem collaborate_keeps_sharing_ok (castEmail : Text -> Text)
    (u : ObjectId) (method : string) (id : Text)
    (reqBody : Collaborate.Body) (db : Store) :
  canonical u = true ->
  (forall it, In it (itineraries db) -> sharing_ok it) ->
  forall it,
    In it (itineraries
             (snd (Collaborate.handler castEmail (signed_in (toString u))
                     method id reqBody db))) ->
    sharing_ok it.
Proof.
  intros Hu Hok it'.
  destruct (collaborate_cases castEmail (signed_in (toString u)) method id
              reqBody db)
    as [[Hs _] | (user & i & uo & it & cs & Huser & Hi & Huo & Hin & Hid & Ho & _ & Hs & Hcs)];
    rewrite Hs.
  - apply Hok.
  - simpl in Huser. injection Huser as <-. simpl in *.
    rewrite (cast_toString u Hu) in Huo. injection Huo as <-.
    unfold Itinerary_save. simpl. intros H.
    apply In_replace_first_inv in H.
    destruct H as [H | [y [_ [_ ->]]]]; [apply Hok; exact H|].
    destruct (Hok it Hin) as [Hnd Hnot]. unfold sharing_ok. simpl.
    destruct Hcs as [[c [_ [Hself [Hnew ->]]]] | [cid ->]].
    + split.
      * apply NoDup_app; [assumption | repeat constructor; simpl; tauto |].
        intros x Hx [<-|[]]. contradiction.
      * rewrite in_app_iff. simpl. intros [H|[H|[]]]; [contradiction|].
        apply Hself. rewrite H, Ho. reflexivity.
    + split; [apply without_NoDup; assumption|].
      rewrite without_In. tauto.
Qed.

Lemma collaborate_keeps_sharing_ok_witness :
  canonical Example.alice_id = true
  /\ (forall it, In it (itineraries Example.db) -> sharing_ok it)
  /\ (forall it,
        In it (itineraries
                 (snd (Collaborate.handler (fun e => e)
                         (signed_in (toString Example.alice_id)) "POST"
                         (toString Example.paris_id)
                         (add_request (txt "zed@example.com")) Example.db))) ->
        sharing_ok it).
Proof.
  assert (Hok : forall it, In it (itineraries Example.db) -> sharing_ok it).
  { intros it [<-|[<-|[]]]; split; simpl.
    - repeat constructor. simpl. tauto.
    - intros [H|[]]. discriminate H.
    - constructor.
    - tauto. }
  split; [reflexivity|]. split; [exact Hok|].
  exact (collaborate_keeps_sharing_ok (fun e => e) Example.alice_id "POST"
           (toString Example.paris_id) (add_request (txt "zed@example.com"))
           Example.db eq_refl Hok).
Defined.

Lemma administer_finds (u i : ObjectId) (l : list Itinerary.t) (x : Itinerary.t) :
  NoDup (map Itinerary._id l) -> In x l ->
  Itinerary._id x = i -> Itinerary.userId x = u ->
  find (matches (may_administer i u)) l = Some x
  /\ find (has_id i) l = Some x.
Proof.
  intros Hnd Hin Hxi Hxu. split.
  - apply (find_unique Itinerary._id); try assumption.
    + apply matches_may_administer. tauto.
    + intros y Hy. apply matches_may_administer in Hy. destruct Hy; congruence.
  - apply (find_unique Itinerary._id); try assumption.
    + apply oid_eqb_eq. assumption.
    + intros y Hy. apply oid_eqb_eq in Hy. congruence.
Qed.

Lemma with_collaborators_same (it : Itinerary.t) :
  Itinerary.with_collaborators (Itinerary.collaborators it) it = it.
Proof. destruct it; reflexivity. Qed.

Lemma with_collaborators_twice (cs cs' : list ObjectId) (it : Itinerary.t) :
  Itinerary.with_collaborators cs' (Itinerary.with_collaborators cs it)
  = Itinerary.with_collaborators cs' it.
Proof. reflexivity. Qed.

Lemma collaborators_with (cs : list ObjectId) (it : Itinerary.t) :
  Itinerary.collaborators (Itinerary.with_collaborators cs it) = cs.
Proof. reflexivity. Qed.

Lemma without_none (cid : Text) (cs : list ObjectId) :
  (forall c, In c cs -> toString c <> cid) -> without cid cs = cs.
Proof.
  intros H. induction cs as [|c cs IH]; simpl; [reflexivity|].
  assert (Hc : text_eqb (toString c) cid = false)
    by (apply text_eqb_neq; apply H; left; reflexivity).
  rewrite Hc. simpl. f_equal. apply IH. intros x Hx. apply H. right; exact Hx.
Qed.

Lemma without_appended (c : ObjectId) (cs : list ObjectId) :
  ~ In c cs -> without (toString c) (cs ++ [c]) = cs.
Proof.
  intros Hnew. unfold without. rewrite filter_app. simpl.
  rewrite text_eqb_refl. simpl. rewrite app_nil_r.
  apply without_none. intros x Hx Heq. apply Hnew.
  replace c with x; [exact Hx|]. destruct x, c; simpl in *; congruence.
Qed.

(** Saving a copy of the stored itinerary with identifier [i] over a list
    with distinct identifiers. *)
Lemma save_over (i : ObjectId) (l : list Itinerary.t) (x x' : Itinerary.t) :
  NoDup (map Itinerary._id l) -> In x l ->
  Itinerary._id x = i -> Itinerary._id x' = i ->
  NoDup (map Itinerary._id (replace_first (has_id i) (fun _ => x') l))
  /\ In x' (replace_first (has_id i) (fun _ => x') l)
  /\ (x' = x -> replace_first (has_id i) (fun _ => x') l = l).
Proof.
  intros Hnd Hin Hx Hx'.
  assert (Hfind : find (has_id i) l = Some x).
  { apply (find_unique Itinerary._id); try assumption.
    - apply oid_eqb_eq. assumption.
    - intros y Hy. apply oid_eqb_eq in Hy. congruence. }
  split; [|split].
  - rewrite map_replace_first; [assumption|].
    intros y Hy. apply oid_eqb_eq in Hy. congruence.
  - exact (In_replace_first (has_id i) (fun _ => x') l x Hfind).
  - intros ->. apply replace_first_fixed. intros y Hy Hq.
    apply oid_eqb_eq in Hq.
    assert (Hy' : find (has_id i) l = Some y).
    { apply (find_unique Itinerary._id); try assumption.
      - apply oid_eqb_eq. assumption.
      - intros z Hz. apply oid_eqb_eq in Hz. congruence. }
    congruence.
Qed.

Section RemoveCollaborator.
Variable castEmail : Text -> Text.
Variable db : Store.
(** The owner [u] and the identifier [i] of the itinerary. *)
Variables u i : ObjectId.
Hypothesis Hu : canonical u = true.
Hypothesis Hi : canonical i = true.

Lemma remove_response (cid : Text) (l : list Itinerary.t) (x : Itinerary.t) :
  cid <> [] ->
  NoDup (map Itinerary._id l) -> In x l ->
  Itinerary._id x = i -> Itinerary.userId x = u ->
  let x' := Itinerary.with_collaborators
              (without cid (Itinerary.collaborators x)) x in
  let db' := with_itineraries (replace_first (has_id i) (fun _ => x') l) db in
  Collaborate.handler castEmail (signed_in (toString u)) "DELETE" (toString i)
    (remove_request cid) (with_itineraries l db)
  = (res 200 (data (Some (populate db' x'))), db').
Proof.
  intros Hcid Hnd Hin Hxi Hxu. cbv zeta.
  destruct (administer_finds u i l x Hnd Hin Hxi Hxu) as [Hfind _].
  unfold Collaborate.handler, Itinerary_findOne; simpl.
  destruct cid as [|c0 cid']; [congruence|]. simpl.
  rewrite (cast_may_administer i u Hi Hu); simpl. rewrite Hfind.
  unfold Itinerary_findById, Itinerary_save. rewrite (cast_toString _ Hi); simpl.
  rewrite Hxi.
  set (x' := Itinerary.with_collaborators _ x).
  destruct (save_over i l x x' Hnd Hin Hxi Hxi) as [Hnd' [Hin' _]].
  assert (Hx' : find (has_id i) (replace_first (has_id i) (fun _ => x') l) = Some x').
  { apply (administer_finds u i _ x' Hnd' Hin' Hxi Hxu). }
  rewrite Hx'. reflexivity.
Qed.

Variable it : Itinerary.t.
Hypothesis Hids : NoDup (map Itinerary._id (itineraries db)).
Hypothesis Hstored : In it (itineraries db).
Hypothesis Hid : Itinerary._id it = i.
Hypothesis Howner : Itinerary.userId it = u.

(** X4. When the owner of a stored itinerary asks to remove the
    collaborator [cid], the answer is 200 and the itinerary is persisted
    with exactly the collaborators whose identifier is not [cid], in their
    order; the same request made again changes nothing more. *)
Theorem remove_collaborator_outcome (cid : Text) :
  cid <> [] ->
  let remove := fun db0 =>
    Collaborate.handler castEmail (signed_in (toString u)) "DELETE"
      (toString i) (remove_request cid) db0 in
  let it' := Itinerary.with_collaborators
               (without cid (Itinerary.collaborators it)) it in
  let db' := with_itineraries
               (replace_first (has_id i) (fun _ => it') (itineraries db)) db in
  remove db = (res 200 (data (Some (populate db' it'))), db')
  /\ find (has_id i) (itineraries db') = Some it'
  /\ (forall c, In c (Itinerary.collaborators it') <->
                In c (Itinerary.collaborators it) /\ toString c <> cid)
  /\ snd (remove db') = db'.
Proof.
  intros Hcid. cbv zeta.
  set (it' := Itinerary.with_collaborators _ it).
  set (l' := replace_first (has_id i) (fun _ => it') (itineraries db)).
  pose proof (remove_response cid (itineraries db) it Hcid Hids Hstored Hid Howner)
    as Hrm. cbv zeta in Hrm. rewrite with_itineraries_same in Hrm.
  destruct (save_over i (itineraries db) it it' Hids Hstored Hid Hid)
    as [Hnd' [Hin' _]].
  split; [exact Hrm|]. split; [|split].
  - apply (administer_finds u i l' it' Hnd' Hin' Hid Howner).
  - intros c. apply without_In.
  - rewrite (remove_response cid l' it' Hcid Hnd' Hin' Hid Howner). cbn [snd].
    assert (Hsame : Itinerary.with_collaborators
                      (without cid (Itinerary.collaborators it')) it' = it').
    { rewrite without_none; [apply with_collaborators_same|].
      intros c Hc. unfold it' in Hc. simpl in Hc.
      apply without_In in Hc. tauto. }
    rewrite Hsame.
    destruct (save_over i l' it' it' Hnd' Hin' Hid Hid) as [_ [_ Hfix]].
    rewrite (Hfix eq_refl). reflexivity.
Qed.

(** X5. Removing an identifier that no collaborator has is not an error:
    the answer is 200 and the store is exactly as before. *)
Theorem remove_non_member_changes_nothing (cid : Text) :
  cid <> [] ->
  (forall c, In c (Itinerary.collaborators it) -> toString c <> cid) ->
  Collaborate.handler castEmail (signed_in (toString u)) "DELETE"
    (toString i) (remove_request cid) db
  = (res 200 (data (Some (populate db it))), db).
Proof.
  intros Hcid Hnone.
  pose proof (remove_response cid (itineraries db) it Hcid Hids Hstored Hid Howner)
    as Hrm. cbv zeta in Hrm. rewrite with_itineraries_same in Hrm.
  rewrite Hrm. rewrite (without_none cid _ Hnone), with_collaborators_same.
  destruct (save_over i (itineraries db) it it Hids Hstored Hid Hid)
    as [_ [_ Hfix]].
  rewrite (Hfix eq_refl), with_itineraries_same. reflexivity.
Qed.

Lemma add_then_remove_store (e : Text) (c : User.t) :
  e <> [] ->
  Collaborate.User_findOne castEmail e db = Some c ->
  canonical (User._id c) = true ->
  User._id c <> u ->
  ~ In (User._id c) (Itinerary.collaborators it) ->
  let added :=
    Collaborate.handler castEmail (signed_in (toString u)) "POST" (toString i)
      (add_request e) db in
  let removed :=
    Collaborate.handler castEmail (signed_in (toString u)) "DELETE"
      (toString i) (remove_request (toString (User._id c))) (snd added) in
  status (fst added) = 200
  /\ find (has_id i) (itineraries (snd added))
     = Some (Itinerary.with_collaborators
               (Itinerary.collaborators it ++ [User._id c]) it)
  /\ status (fst removed) = 200
  /\ snd removed = db.
Proof.
  intros He Hc Hcanon Hself Hnew. cbv zeta.
  pose proof (add_response castEmail db u i e None Hu Hi He
                (itineraries db) it Hids Hstored Hid Howner) as Hadd.
  rewrite with_itineraries_same, Hc in Hadd.
  apply oid_eqb_neq in Hself. rewrite Hself in Hadd.
  assert (Hex : existsb (fun id' => oid_eqb id' (User._id c))
                  (Itinerary.collaborators it) = false).
  { destruct (existsb _ _) eqn:E; [|reflexivity].
    apply existsb_oid_In in E. contradiction. }
  rewrite Hex in Hadd. cbv zeta in Hadd.
  unfold add_request. rewrite Hadd. split; [reflexivity|]. cbn [snd].
  set (it' := Itinerary.with_collaborators
                (Itinerary.collaborators it ++ [User._id c]) it).
  set (l' := replace_first (has_id i) (fun _ => it') (itineraries db)).
  destruct (save_over i (itineraries db) it it' Hids Hstored Hid Hid)
    as [Hnd' [Hin' _]].
  split; [exact (proj2 (administer_finds u i l' it' Hnd' Hin' Hid Howner))|].
  assert (Hcid : toString (User._id c) <> []).
  { intros H. unfold canonical in Hcanon. rewrite H in Hcanon.
    discriminate Hcanon. }
  rewrite (remove_response _ l' it' Hcid Hnd' Hin' Hid Howner).
  split; [reflexivity|]. cbn [snd].
  unfold l'.
  rewrite replace_first_twice
    by (intros y Hy; simpl; apply oid_eqb_eq; exact Hid).
  assert (Hback : Itinerary.with_collaborators
                    (without (toString (User._id c)) (Itinerary.collaborators it'))
                    it' = it).
  { unfold it'. rewrite with_collaborators_twice, collaborators_with.
    rewrite (without_appended _ _ Hnew). apply with_collaborators_same. }
  rewrite Hback.
  destruct (save_over i (itineraries db) it it Hids Hstored Hid Hid)
    as [_ [_ Hfix]].
  rewrite (Hfix eq_refl). apply with_itineraries_same.
Qed.

(** X6. When the owner adds a user who is not yet a collaborator and then
    removes that user's identifier, both requests are answered 200; in
    between, the itinerary lists the user last; afterwards every stored
    itinerary has the collaborators, the owner and the public-read flag it
    had before the two requests. *)
Theorem add_then_remove_restores (e : Text) (c : User.t) :
  e <> [] ->
  Collaborate.User_findOne castEmail e db = Some c ->
  canonical (User._id c) = true ->
  User._id c <> u ->
  ~ In (User._id c) (Itinerary.collaborators it) ->
  let sharing := fun x : Itinerary.t =>
    (Itinerary._id x, Itinerary.userId x, Itinerary.collaborators x,
     Itinerary.isPublic x) in
  let added :=
    Collaborate.handler castEmail (signed_in (toString u)) "POST" (toString i)
      (add_request e) db in
  let removed :=
    Collaborate.handler castEmail (signed_in (toString u)) "DELETE"
      (toString i) (remove_request (toString (User._id c))) (snd added) in
  status (fst added) = 200
  /\ (exists mid,
        find (has_id i) (itineraries (snd added)) = Some mid
        /\ Itinerary.collaborators mid
           = Itinerary.collaborators it ++ [User._id c])
  /\ status (fst removed) = 200
  /\ map sharing (itineraries (snd removed)) = map sharing (itineraries db).
Proof.
  intros He Hc Hcanon Hself Hnew.
  destruct (add_then_remove_store e c He Hc Hcanon Hself Hnew)
    as [Hadded [Hmid [Hremoved Hback]]].
  cbv zeta. split; [exact Hadded|]. split; [|split].
  - eexists. split; [exact Hmid | reflexivity].
  - exact Hremoved.
  - rewrite Hback. reflexivity.
Qed.
End RemoveCollaborator.

Lemma example_ids_distinct :
  NoDup (map Itinerary._id (itineraries Example.db)).
Proof.
  simpl. repeat constructor; simpl; intros H;
    repeat (destruct H as [H|H]; [discriminate H|]); exact H.
Qed.

Lemma remove_collaborator_outcome_witness :
  canonical Example.alice_id = true /\ canonical Example.paris_id = true
  /\ NoDup (map Itinerary._id (itineraries Example.db))
  /\ In Example.paris (itineraries Example.db)
  /\ toString Example.bob_id <> []
  /\ find (has_id Example.paris_id)
       (itineraries
          (snd (Collaborate.handler (fun e => e)
                  (signed_in (toString Example.alice_id)) "DELETE"
                  (toString Example.paris_id)
                  (remove_request (toString Example.bob_id)) Example.db)))
     = Some (Itinerary.with_collaborators [] Example.paris).
Proof.
  assert (Hcid : toString Example.bob_id <> []) by discriminate.
  split; [reflexivity|]. split; [reflexivity|].
  split; [exact example_ids_distinct|]. split; [left; reflexivity|].
  split; [exact Hcid|].
  destruct (remove_collaborator_outcome (fun e => e) Example.db
              Example.alice_id Example.paris_id eq_refl eq_refl Example.paris
              example_ids_distinct (or_introl eq_refl) eq_refl eq_refl
              (toString Example.bob_id) Hcid)
    as [Hres [Hfound _]].
  rewrite Hres. exact Hfound.
Defined.

Lemma remove_non_member_witness :
  canonical Example.alice_id = true /\ canonical Example.paris_id = true
  /\ toString Example.zed_id <> []
  /\ (forall c, In c (Itinerary.collaborators Example.paris) ->
                toString c <> toString Example.zed_id)
  /\ snd (Collaborate.handler (fun e => e)
            (signed_in (toString Example.alice_id)) "DELETE"
            (toString Example.paris_id)
            (remove_request (toString Example.zed_id)) Example.db)
     = Example.db.
Proof.
  assert (Hcid : toString Example.zed_id <> []) by discriminate.
  assert (Hnone : forall c, In c (Itinerary.collaborators Example.paris) ->
                            toString c <> toString Example.zed_id).
  { intros c [<-|[]]. discriminate. }
  split; [reflexivity|]. split; [reflexivity|].
  split; [exact Hcid|]. split; [exact Hnone|].
  rewrite (remove_non_member_changes_nothing (fun e => e) Example.db
             Example.alice_id Example.paris_id eq_refl eq_refl Example.paris
             example_ids_distinct (or_introl eq_refl) eq_refl eq_refl
             (toString Example.zed_id) Hcid Hnone).
  reflexivity.
Defined.

Lemma add_then_remove_witness :
  canonical Example.alice_id = true /\ canonical Example.paris_id = true
  /\ Collaborate.User_findOne (fun e => e) (txt "zed@example.com") Example.db
     = Some Example.zed
  /\ ~ In (User._id Example.zed) (Itinerary.collaborators Example.paris)
  /\ map (fun x : Itinerary.t =>
            (Itinerary._id x, Itinerary.userId x, Itinerary.collaborators x,
             Itinerary.isPublic x))
       (itineraries
          (snd (Collaborate.handler (fun e => e)
                  (signed_in (toString Example.alice_id)) "DELETE"
                  (toString Example.paris_id)
                  (remove_request (toString (User._id Example.zed)))
                  (snd (Collaborate.handler (fun e => e)
                          (signed_in (toString Example.alice_id)) "POST"
                          (toString Example.paris_id)
                          (add_request (txt "zed@example.com")) Example.db)))))
     = [(Example.paris_id, Example.alice_id, [Example.bob_id], false);
        (Example.rome_id, Example.bob_id, [], true)].
Proof.
  assert (He : txt "zed@example.com" <> []) by discriminate.
  assert (Hne : User._id Example.zed <> Example.alice_id) by discriminate.
  assert (Hnew : ~ In (User._id Example.zed)
                   (Itinerary.collaborators Example.paris)).
  { simpl. intros [H|[]]. discriminate H. }
  split; [reflexivity|]. split; [reflexivity|]. split; [reflexivity|].
  split; [exact Hnew|].
  destruct (add_then_remove_restores (fun e => e) Example.db
              Example.alice_id Example.paris_id eq_refl eq_refl
              Example.paris example_ids_distinct (or_introl eq_refl)
              eq_refl eq_refl (txt "zed@example.com") Example.zed
              He eq_refl eq_refl Hne Hnew)
    as [_ [_ [_ Hback]]].
  eapply eq_trans; [exact Hback | reflexivity].
Defined.

Section CollaborateGuards.
Variable castEmail : Text -> Text.
Variable db : Store.
Variables u i : ObjectId.
Hypothesis Hu : canonical u = true.
Hypothesis Hi : canonical i = true.
(** [u] owns no stored itinerary with identifier [i]. *)
Hypothesis Hnot : forall it, In it (itineraries db) ->
                             Itinerary._id it = i -> Itinerary.userId it <> u.

(** X7. Only the owner administers collaborators.  A signed-in user who
    does not own the itinerary, collaborator or not, gets 404 for an add
    and for a remove request and the store is unchanged. *)
Theorem collaborate_owner_only (e cid : Text) (other1 other2 : option Text) :
  e <> [] -> cid <> [] ->
  Collaborate.handler castEmail (signed_in (toString u)) "POST" (toString i)
    {| Collaborate.email := Some e; Collaborate.collaboratorId := other1 |} db
  = (res 404 (message "Itinerary not found or you do not have permission"), db)
  /\ Collaborate.handler castEmail (signed_in (toString u)) "DELETE" (toString i)
       {| Collaborate.email := other2; Collaborate.collaboratorId := Some cid |} db
     = (res 404 (message "Itinerary not found or you do not have permission"), db).
Proof.
  intros He Hcid.
  assert (Hnone : find (matches (may_administer i u)) (itineraries db) = None).
  { apply find_None_iff. intros it Hin.
    destruct (matches (may_administer i u) it) eqn:E; [|reflexivity].
    apply matches_may_administer in E. destruct E as [Hid Ho].
    exfalso. exact (Hnot it Hin Hid Ho). }
  unfold Collaborate.handler, Itinerary_findOne; simpl.
  destruct e as [|e0 e']; [congruence|].
  destruct cid as [|c0 cid']; [congruence|]. simpl.
  rewrite (cast_may_administer i u Hi Hu); simpl. rewrite Hnone.
  split; reflexivity.
Qed.
End CollaborateGuards.

Lemma collaborate_owner_only_witness :
  canonical Example.bob_id = true /\ canonical Example.paris_id = true
  /\ In Example.bob_id (Itinerary.collaborators Example.paris)
  /\ status (fst (Collaborate.handler (fun e => e)
                    (signed_in (toString Example.bob_id)) "POST"
                    (toString Example.paris_id)
                    (add_request (txt "zed@example.com")) Example.db))
     = 404.
Proof.
  assert (Hnot : forall it, In it (itineraries Example.db) ->
                   Itinerary._id it = Example.paris_id ->
                   Itinerary.userId it <> Example.bob_id).
  { intros it [<-|[<-|[]]] Hid; simpl in *; discriminate. }
  assert (He : txt "zed@example.com" <> []) by discriminate.
  split; [reflexivity|]. split; [reflexivity|]. split; [left; reflexivity|].
  unfold add_request.
  rewrite (proj1 (collaborate_owner_only (fun e => e) Example.db
                    Example.bob_id Example.paris_id eq_refl eq_refl Hnot
                    (txt "zed@example.com") (txt "x") None None
                    He ltac:(discriminate))).
  reflexivity.
Defined.

(** X8. A request without the field it needs is rejected before anything
    is looked up: for every signed-in user, identifier and store, an add
    request whose e-mail is missing or empty and a remove request whose
    collaborator identifier is missing or empty answer 400 and change
    nothing. *)
Theorem collaborate_missing_field (castEmail : Text -> Text)
    (user : Session.User) (id : Text) (reqBody : Collaborate.Body)
    (db : Store) :
  (Collaborate.falsy (Collaborate.email reqBody) = true ->
   Collaborate.handler castEmail
     (Some {| Session.user := Some user |}) "POST" id reqBody db
   = (res 400 (message "Please provide an email"), db))
  /\ (Collaborate.falsy (Collaborate.collaboratorId reqBody) = true ->
      Collaborate.handler castEmail
        (Some {| Session.user := Some user |}) "DELETE" id reqBody db
      = (res 400 (message "Please provide a collaborator ID"), db)).
Proof.
  unfold Collaborate.handler; simpl. split; intros ->; reflexivity.
Qed.

(* ================================================================= *)
(** ** One itinerary: what a deletion leaves behind *)

Lemma remove_first_unique {A B} (key : A -> B) (q : A -> bool) (l : list A) (k : B) :
  NoDup (map key l) ->
  (forall x, In x l -> (q x = true <-> key x = k)) ->
  forall x, In x (remove_first q l) -> key x <> k.
Proof.
  induction l as [|y l IH]; simpl; intros Hnd Hq x Hx; [contradiction|].
  inversion Hnd as [|? ? Hnotin Hnd']; subst.
  destruct (q y) eqn:E.
  - apply Hq in E; [|left; reflexivity]. intros Hk. apply Hnotin.
    rewrite E, <- Hk. apply in_map. exact Hx.
  - destruct Hx as [<-|Hx].
    + intros Hk. apply (Hq y (or_introl eq_refl)) in Hk. congruence.
    + apply IH; auto.
Qed.

Lemma length_remove_first_found {A} (q : A -> bool) (l : list A) (x : A) :
  find q l = Some x -> S (List.length (remove_first q l)) = List.length l.
Proof.
  induction l as [|y l IH]; simpl; [discriminate|].
  destruct (q y); [reflexivity|]. intros H. simpl. rewrite IH; auto.
Qed.

Section ItineraryByIdMore.
Variable sch : Schema.
Variable db : Store.
(** The requester [u] and the stored itinerary [it] with identifier [i]. *)
Variables u i : ObjectId.
Variable it : Itinerary.t.
Hypothesis Hu : canonical u = true.
Hypothesis Hi : canonical i = true.
Hypothesis Hids : NoDup (map Itinerary._id (itineraries db)).
Hypothesis Hstored : In it (itineraries db).
Hypothesis Hid : Itinerary._id it = i.

(** X9. After its owner has deleted an itinerary, the store holds one
    itinerary less and none with that identifier, and a GET of it answers
    404 to everybody, the former owner included. *)
Theorem delete_then_get_not_found (b b' : Fields.t) (v : ObjectId) :
  Itinerary.userId it = u ->
  canonical v = true ->
  let deleted :=
    ItineraryById.handler sch (signed_in (toString u)) "DELETE" (toString i)
      b db in
  status (fst deleted) = 200
  /\ S (List.length (itineraries (snd deleted))) = List.length (itineraries db)
  /\ (forall x, In x (itineraries (snd deleted)) -> Itinerary._id x <> i)
  /\ ItineraryById.handler sch (signed_in (toString v)) "GET" (toString i)
       b' (snd deleted)
     = (res 404 (message "Itinerary not found"), snd deleted).
Proof.
  intros Howner Hv. cbv zeta.
  destruct (administer_finds u i (itineraries db) it Hids Hstored Hid Howner)
    as [Hfind Hbyid].
  rewrite (delete_response sch db u i Hu Hi b), Hfind. cbn [fst snd status res].
  assert (Hgone : forall x,
             In x (remove_first (has_id i) (itineraries db)) ->
             Itinerary._id x <> i).
  { apply (remove_first_unique Itinerary._id); [assumption|].
    intros x _. apply oid_eqb_eq. }
  split; [reflexivity|]. split; [|split].
  - simpl. apply (length_remove_first_found _ _ _ Hbyid).
  - exact Hgone.
  - rewrite (get_response sch _ v i Hv Hi b').
    replace (find (matches (may_read i v)) _) with (@None Itinerary.t);
      [reflexivity|].
    symmetry. apply find_None_iff. intros x Hx.
    destruct (matches (may_read i v) x) eqn:E; [|reflexivity].
    apply matches_may_read in E. destruct E as [Hxi _].
    exfalso. exact (Hgone x Hx Hxi).
Qed.

End ItineraryByIdMore.

Lemma delete_then_get_witness :
  canonical Example.alice_id = true /\ canonical Example.paris_id = true
  /\ Itinerary.userId Example.paris = Example.alice_id
  /\ status (fst (ItineraryById.handler Example.schema
                    (signed_in (toString Example.alice_id)) "GET"
                    (toString Example.paris_id) Example.no_fields
                    (snd (ItineraryById.handler Example.schema
                            (signed_in (toString Example.alice_id)) "DELETE"
                            (toString Example.paris_id) Example.no_fields
                            Example.db))))
     = 404.
Proof.
  split; [reflexivity|]. split; [reflexivity|]. split; [reflexivity|].
  destruct (delete_then_get_not_found Example.schema Example.db
              Example.alice_id Example.paris_id Example.paris
              eq_refl eq_refl example_ids_distinct (or_introl eq_refl) eq_refl
              Example.no_fields Example.no_fields Example.alice_id
              eq_refl eq_refl)
    as [_ [_ [_ Hget]]].
  rewrite Hget. reflexivity.
Defined.

(* ================================================================= *)
(** ** Listing, manual creation and generation: effects and composition *)

(** X13. Whatever the request is, the list and manual-creation handler
    never touches the user records and never changes or removes a stored
    itinerary: the store is as it was unless the answer is 201, and then it
    has grown by exactly the created itinerary, appended with the
    identifier and the creation time of the driver. *)
Theorem index_effects (sch : Schema) (fresh : ObjectId) (now : nat)
    (session : option Session.t) (method : string) (b : Fields.t)
    (db : Store) :
  let r := ItineraryIndex.handler sch fresh now session method b db in
  users (snd r) = users db
  /\ ((status (fst r) <> 201 /\ snd r = db)
      \/ exists it,
           fst r = res 201 (data_created it)
           /\ itineraries (snd r) = itineraries db ++ [it]
           /\ Itinerary._id it = fresh
           /\ Itinerary.createdAt it = now).
Proof.
  cbv zeta. unfold ItineraryIndex.handler.
  destruct (session_user session) as [user|];
    [|split; [reflexivity | left; split; [discriminate | reflexivity]]].
  destruct (method =? "GET").
  { destruct (Itinerary_find _ db); simpl;
      (split; [reflexivity | left; split; [discriminate | reflexivity]]). }
  destruct (method =? "POST");
    [|split; [reflexivity | left; split; [discriminate | reflexivity]]].
  unfold Itinerary_create. simpl.
  destruct (castObjectId (Session.id user)) as [o|e]; simpl;
    [|split; [reflexivity | left; split; [discriminate | reflexivity]]].
  destruct (mapM castObjectId _) as [cs|e]; simpl;
    [|split; [reflexivity | left; split; [discriminate | reflexivity]]].
  destruct (validate sch _); simpl;
    [|split; [reflexivity | left; split; [discriminate | reflexivity]]].
  split; [reflexivity|]. right. eexists. repeat split.
Qed.

Lemma list_response (sch : Schema) (fresh : ObjectId) (now : nat)
    (db : Store) (u : ObjectId) (b : Fields.t) :
  canonical u = true ->
  ItineraryIndex.handler sch fresh now (signed_in (toString u)) "GET" b db
  = (res 200
       (data_list
          (map (populate db)
             (ItineraryIndex.sort_createdAt_desc
                (filter (matches (mine_or_shared u)) (itineraries db))))),
     db).
Proof.
  intros Hu. unfold ItineraryIndex.handler, Itinerary_find; simpl.
  rewrite (cast_mine_or_shared u Hu). reflexivity.
Qed.

(** X14. What a user creates manually is theirs to see: after a 201, the
    created itinerary is in the creator's list and a GET of its identifier
    by the creator answers 200. *)
Theorem created_is_visible_to_creator (sch : Schema) (fresh fresh' : ObjectId)
    (now now' : nat) (db : Store) (u : ObjectId) (b b' : Fields.t) :
  canonical u = true -> canonical fresh = true ->
  let created :=
    ItineraryIndex.handler sch fresh now (signed_in (toString u)) "POST" b db in
  status (fst created) = 201 ->
  exists it l,
    body (fst created) = data_created it
    /\ ItineraryIndex.handler sch fresh' now' (signed_in (toString u)) "GET"
         b' (snd created)
       = (res 200 (data_list (map (populate (snd created)) l)), snd created)
    /\ In it l
    /\ status (fst (ItineraryById.handler sch (signed_in (toString u)) "GET"
                      (toString fresh) b' (snd created)))
       = 200.
Proof.
  intros Hu Hfresh. cbv zeta. rewrite (post_response sch fresh now db u Hu b).
  destruct (mapM castObjectId _) as [cs|e]; [|discriminate].
  destruct (validate sch _); [|discriminate]. cbv zeta. intros _.
  set (it := Itinerary.Build fresh u _ _ _ _ _ _ _ cs _ now).
  set (db' := with_itineraries (itineraries db ++ [it]) db).
  exists it. eexists. split; [reflexivity|].
  cbn [fst snd]. split; [apply list_response; exact Hu|]. split.
  - apply (Permutation_in it
             (Permutation_sym (sort_createdAt_desc_perm _))).
    apply filter_In. split.
    + simpl. apply in_or_app. right. left. reflexivity.
    + apply matches_mine_or_shared. left. reflexivity.
  - rewrite (get_response sch db' u fresh Hu Hfresh b').
    assert (Hex : exists x, find (matches (may_read fresh u)) (itineraries db')
                            = Some x).
    { apply find_Some_iff. exists it. split.
      - simpl. apply in_or_app. right. left. reflexivity.
      - apply matches_may_read. split; [reflexivity|]. left. reflexivity. }
    destruct Hex as [x ->]. reflexivity.
Qed.

Lemma created_is_visible_witness :
  canonical Example.alice_id = true /\ canonical Example.new_id = true
  /\ status (fst (ItineraryIndex.handler Example.schema Example.new_id 30
                    (signed_in (toString Example.alice_id)) "POST"
                    Example.lisbon Example.db))
     = 201
  /\ status (fst (ItineraryById.handler Example.schema
                    (signed_in (toString Example.alice_id)) "GET"
                    (toString Example.new_id) Example.no_fields
                    (snd (ItineraryIndex.handler Example.schema Example.new_id 30
                            (signed_in (toString Example.alice_id)) "POST"
                            Example.lisbon Example.db))))
     = 200.
Proof.
  split; [reflexivity|]. split; [reflexivity|]. split; [reflexivity|].
  destruct (created_is_visible_to_creator Example.schema Example.new_id
              Example.new_id 30 30 Example.db Example.alice_id
              Example.lisbon Example.no_fields eq_refl eq_refl eq_refl)
    as [it [l [_ [_ [_ Hget]]]]].
  exact Hget.
Defined.

(* ================================================================= *)
(** ** Generation: validation, persistence and effects *)

Section GenerateMore.
Variable sch : Schema.
Variable fresh : ObjectId.
Variable now : nat.
Variable isZero : Text -> bool.
Variable titleOf : JSValue -> JSValue -> JSValue.
Variable parseInt : JSValue -> JSValue.
Variable generateItinerary : JSValue -> JSValue -> JSValue -> JSValue -> Result Text.

Let handler := Generate.handler sch fresh now isZero titleOf parseInt
                 generateItinerary.
Let truthy := Generate.truthy isZero.

Lemma generate_cases (session : option Session.t) (method : string)
    (reqBody : Generate.Body) (dbConnect : Result unit) (db : Store) :
  let r := handler session method reqBody dbConnect db in
  (status (fst r) <> 201 /\ snd r = db)
  \/ exists it,
       r = (res 201 (data_created it),
            with_itineraries (itineraries db ++ [it]) db)
       /\ Itinerary._id it = fresh
       /\ Itinerary.createdAt it = now.
Proof.
  cbv zeta. unfold handler, Generate.handler.
  destruct (negb (method =? "POST"));
    [left; split; [discriminate | reflexivity]|].
  destruct (session_user session) as [user|];
    [|left; split; [discriminate | reflexivity]].
  destruct (negb _ || negb _ || negb _);
    [left; split; [discriminate | reflexivity]|].
  destruct dbConnect as [[]|e]; [|left; split; [discriminate | reflexivity]].
  destruct (generateItinerary _ _ _ _) as [raw|e]; simpl;
    [|left; split; [discriminate | reflexivity]].
  destruct (Generate.parseItineraryData raw) as [parsedData|e]; simpl;
    [|left; split; [discriminate | reflexivity]].
  destruct (Generate.prop parsedData "days") as [parsedDays|e]; simpl;
    [|left; split; [discriminate | reflexivity]].
  destruct (negb _ || negb _);
    [left; split; [discriminate | reflexivity]|].
  destruct (Generate.array_length parsedDays =? 0)%nat;
    [left; split; [discriminate | reflexivity]|].
  destruct (Generate.prop parsedData "destination") as [d1|e]; simpl;
    [|left; split; [discriminate | reflexivity]].
  destruct (Generate.prop parsedData "totalDays") as [d2|e]; simpl;
    [|left; split; [discriminate | reflexivity]].
  destruct (Generate.prop parsedData "budget") as [d3|e]; simpl;
    [|left; split; [discriminate | reflexivity]].
  destruct (Generate.prop parsedData "interests") as [d4|e]; simpl;
    [|left; split; [discriminate | reflexivity]].
  destruct (Generate.prop parsedData "summary") as [d5|e]; simpl;
    [|left; split; [discriminate | reflexivity]].
  unfold Itinerary_create. simpl.
  destruct (castObjectId (Session.id user)) as [o|e]; simpl;
    [|left; split; [discriminate | reflexivity]].
  destruct (validate sch _); simpl;
    [|left; split; [discriminate | reflexivity]].
  right. eexists. repeat split.
Qed.

(** X15. Whatever the request is, the generation handler never touches
    the user records and never changes or removes a stored itinerary: the
    store is as it was unless the answer is 201, and then it has grown by
    exactly the created itinerary.  A method other than POST is answered
    405 before the session is even looked at. *)
Theorem generate_effects (session : option Session.t) (method : string)
    (reqBody : Generate.Body) (dbConnect : Result unit) (db : Store) :
  let r := handler session method reqBody dbConnect db in
  users (snd r) = users db
  /\ ((status (fst r) <> 201 /\ snd r = db)
      \/ exists it,
           fst r = res 201 (data_created it)
           /\ itineraries (snd r) = itineraries db ++ [it]
           /\ Itinerary._id it = fresh
           /\ Itinerary.createdAt it = now)
  /\ ((method =? "POST") = false ->
      r = (res 405 (message "Method not allowed"), db)).
Proof.
  cbv zeta. split; [|split].
  - destruct (generate_cases session method reqBody dbConnect db)
      as [[_ ->] | [it [-> _]]]; reflexivity.
  - destruct (generate_cases session method reqBody dbConnect db)
      as [H | [it [-> [Hid Hat]]]]; [left; exact H|].
    right. exists it. auto.
  - intros H. unfold handler, Generate.handler. rewrite H. reflexivity.
Qed.

(** X16. A request that lacks a destination, a day count or a budget is
    answered 400 and nothing else happens: the answer does not depend on
    the connection to the database nor on the generation client, and the
    store is unchanged. *)
Theorem generate_rejects_missing_params (user : Session.User)
    (reqBody : Generate.Body) (dbConnect : Result unit) (db : Store)
    (otherClient : JSValue -> JSValue -> JSValue -> JSValue -> Result Text) :
  truthy (Generate.destination reqBody) = false
  \/ truthy (Generate.days reqBody) = false
  \/ truthy (Generate.budget reqBody) = false ->
  handler (Some {| Session.user := Some user |}) "POST" reqBody dbConnect db
  = (res 400 (message "Please provide destination, days, and budget"), db)
  /\ Generate.handler sch fresh now isZero titleOf parseInt otherClient
       (Some {| Session.user := Some user |}) "POST" reqBody dbConnect db
     = (res 400 (message "Please provide destination, days, and budget"), db).
Proof.
  intros H. unfold handler, truthy, Generate.handler in *. simpl.
  assert (Hguard : negb (Generate.truthy isZero (Generate.destination reqBody))
                   || negb (Generate.truthy isZero (Generate.days reqBody))
                   || negb (Generate.truthy isZero (Generate.budget reqBody))
                   = true).
  { destruct H as [-> | [-> | ->]]; simpl;
      rewrite ?orb_true_r; reflexivity. }
  rewrite Hguard. split; reflexivity.
Qed.

Variable user : Session.User.
Variable reqBody : Generate.Body.
Variable db : Store.
Variable raw : Text.
Hypothesis Hdest : truthy (Generate.destination reqBody) = true.
Hypothesis Hdays : truthy (Generate.days reqBody) = true.
Hypothesis Hbudget : truthy (Generate.budget reqBody) = true.
Hypothesis Hraw :
  generateItinerary (Generate.destination reqBody)
    (parseInt (Generate.days reqBody)) (Generate.budget reqBody)
    (Generate.js_or isZero (Generate.interests reqBody) (Some (JArray [])))
  = Ok raw.

Lemma generate_after_parse :
  handler (Some {| Session.user := Some user |}) "POST" reqBody (Ok tt) db
  = match
      (parsedData <- Generate.parseItineraryData raw ;;
       parsedDays <- Generate.prop parsedData "days" ;;
       if negb (truthy parsedDays) || negb (Generate.isArray parsedDays)
       then Throw MissingDays
       else if (Generate.array_length parsedDays =? 0)%nat then Throw NoDays
       else
         parsedDestination <- Generate.prop parsedData "destination" ;;
         parsedTotalDays <- Generate.prop parsedData "totalDays" ;;
         parsedBudget <- Generate.prop parsedData "budget" ;;
         parsedInterests <- Generate.prop parsedData "interests" ;;
         parsedSummary <- Generate.prop parsedData "summary" ;;
         created <-
           Itinerary_create sch fresh now
             (Fields.Build
                (Some (Session.id user))
                (titleOf (Generate.destination reqBody) (Generate.days reqBody))
                (Generate.js_or isZero parsedDestination
                   (Generate.destination reqBody))
                (Generate.js_or isZero parsedTotalDays
                   (parseInt (Generate.days reqBody)))
                (Generate.js_or isZero parsedBudget (Generate.budget reqBody))
                (Generate.js_or isZero
                   (Generate.js_or isZero parsedInterests
                      (Generate.interests reqBody))
                   (Some (JArray [])))
                (Generate.js_or isZero parsedDays (Some (JArray [])))
                (Generate.js_or isZero parsedSummary
                   (Some (Generate.default_summary (Generate.budget reqBody))))
                (Some [])
                (Some false))
             db ;;
         Ok (res 201 (data_created (fst created)), snd created))
    with
    | Ok r => r
    | Throw error => (res 500 (error_message error), db)
    end.
Proof.
  unfold handler, truthy, Generate.handler in *. simpl.
  rewrite Hdest, Hdays, Hbudget. simpl. rewrite Hraw. reflexivity.
Qed.

(** X17. The day collection of the generated payload is validated before
    anything is stored.  A payload that is [null] fails on the property
    access; a payload without a [days] array (not an object, no such key, or
    a value that is not an array) is rejected as "missing days"; a payload
    whose [days] is the empty array is rejected as "no days", a different
    error.  Each is a 500 and the store is unchanged. *)
Theorem generate_validates_days (parsedData : JSON) :
  Generate.parseItineraryData raw = Ok parsedData ->
  let r := handler (Some {| Session.user := Some user |}) "POST" reqBody
             (Ok tt) db in
  (parsedData = JNull -> r = (res 500 (error_message TypeError), db))
  /\ (forall parsedDays,
         Generate.prop parsedData "days" = Ok parsedDays ->
         Generate.isArray parsedDays = false ->
         r = (res 500 (error_message MissingDays), db))
  /\ (Generate.prop parsedData "days" = Ok (Some (JArray [])) ->
      r = (res 500 (error_message NoDays), db)).
Proof.
  intros Hparse. cbv zeta. rewrite generate_after_parse, Hparse. simpl.
  split; [|split].
  - intros ->. reflexivity.
  - intros parsedDays -> Harr. simpl. rewrite Harr, orb_true_r. reflexivity.
  - intros ->. reflexivity.
Qed.

(** X18. A payload that is an object with a non-empty [days] array is
    stored, unless the cast of the session identifier or the validation of
    the document fails (a 500, the store unchanged).  The stored itinerary
    is owned by the session user and starts private.  Its day collection
    is the one parsed, never the empty fallback; destination, day count,
    budget and interests come from the payload where it has a truthy value
    and from the request otherwise; each value is stored as the schema
    casts it. *)
Theorem generate_stores_payload (members : list (Text * JSON))
    (d : JSON) (ds : list JSON) :
  Generate.parseItineraryData raw = Ok (JObject members) ->
  Json.get (txt "days") members = Some (JArray (d :: ds)) ->
  let r := handler (Some {| Session.user := Some user |}) "POST" reqBody
             (Ok tt) db in
  (fst r = res 500 (error_message ValidationError) /\ snd r = db)
  \/ exists it,
       r = (res 201 (data_created it),
            with_itineraries (itineraries db ++ [it]) db)
       /\ castObjectId (Session.id user) = Ok (Itinerary.userId it)
       /\ Itinerary._id it = fresh
       /\ Itinerary.collaborators it = [] /\ Itinerary.isPublic it = false
       /\ Itinerary.days it = Some (cast sch Path.days (JArray (d :: ds)))
       /\ Itinerary.destination it
          = stored_value sch Path.destination
              (Generate.js_or isZero (Json.get (txt "destination") members)
                 (Generate.destination reqBody))
       /\ Itinerary.totalDays it
          = stored_value sch Path.totalDays
              (Generate.js_or isZero (Json.get (txt "totalDays") members)
                 (parseInt (Generate.days reqBody)))
       /\ Itinerary.budget it
          = stored_value sch Path.budget
              (Generate.js_or isZero (Json.get (txt "budget") members)
                 (Generate.budget reqBody))
       /\ Itinerary.interests it
          = stored_value sch Path.interests
              (Generate.js_or isZero
                 (Generate.js_or isZero (Json.get (txt "interests") members)
                    (Generate.interests reqBody))
                 (Some (JArray []))).
Proof.
  intros Hparse Hget. cbv zeta. rewrite generate_after_parse, Hparse.
  unfold Generate.prop. cbn [bind]. rewrite Hget.
  unfold truthy. cbn [Generate.truthy Generate.isArray negb orb
                      Generate.array_length List.length Nat.eqb].
  unfold Itinerary_create. cbn [Fields.userId bind].
  destruct (castObjectId (Session.id user)) as [o|e]; cbn [as_validation bind];
    [|left; split; reflexivity].
  cbn [Fields.collaborators or_else default_collaborators mapM bind
       as_validation].
  destruct (validate sch _); [|left; split; reflexivity].
  right. eexists. split; [reflexivity|]. cbn.
  repeat split.
Qed.
End GenerateMore.

Lemma generate_rejects_missing_params_witness :
  Generate.truthy Example2.never_zero
    (Generate.destination Example2.no_destination) = false
  /\ Generate.handler Example.schema Example.new_id 30 Example2.never_zero
       Example2.fixed_title Example2.same_value
       (Example2.answers (Example.json "{'days':[{}]}"))
       (Some {| Session.user := Some Example2.alice_session |}) "POST"
       Example2.no_destination (Ok tt) Example.db
     = (res 400 (message "Please provide destination, days, and budget"),
        Example.db).
Proof.
  split; [reflexivity|].
  exact (proj1 (generate_rejects_missing_params Example.schema Example.new_id 30
                  Example2.never_zero Example2.fixed_title Example2.same_value
                  (Example2.answers (Example.json "{'days':[{}]}"))
                  Example2.alice_session Example2.no_destination (Ok tt)
                  Example.db (Example2.answers [])
                  (or_introl eq_refl))).
Defined.

Lemma generate_validates_days_witness :
  Generate.parseItineraryData (Example.json "{'days':[]}")
  = Ok (JObject [(txt "days", JArray [])])
  /\ Generate.handler Example.schema Example.new_id 30 Example2.never_zero
       Example2.fixed_title Example2.same_value
       (Example2.answers (Example.json "{'days':[]}"))
       (Some {| Session.user := Some Example2.alice_session |}) "POST"
       Example2.paris_request (Ok tt) Example.db
     = (res 500 (error_message NoDays), Example.db).
Proof.
  assert (Hparse : Generate.parseItineraryData (Example.json "{'days':[]}")
                   = Ok (JObject [(txt "days", JArray [])]))
    by (vm_compute; reflexivity).
  split; [exact Hparse|].
  destruct (generate_validates_days Example.schema Example.new_id 30
              Example2.never_zero Example2.fixed_title Example2.same_value
              (Example2.answers (Example.json "{'days':[]}"))
              Example2.alice_session Example2.paris_request Example.db
              (Example.json "{'days':[]}") eq_refl eq_refl eq_refl eq_refl
              (JObject [(txt "days", JArray [])]) Hparse)
    as [_ [_ Hempty]].
  apply Hempty. reflexivity.
Defined.

Lemma generate_stores_payload_witness :
  Generate.parseItineraryData
    (Example.json "{'days':[{},{},{}],'destination':'Paris, France'}")
  = Ok (JObject [(txt "days", JArray [JObject []; JObject []; JObject []]);
                 (txt "destination", JString (txt "Paris, France"))])
  /\ exists it,
       fst (Generate.handler Example.schema Example.new_id 30
              Example2.never_zero Example2.fixed_title Example2.same_value
              (Example2.answers
                 (Example.json
                    "{'days':[{},{},{}],'destination':'Paris, France'}"))
              (Some {| Session.user := Some Example2.alice_session |}) "POST"
              Example2.paris_request (Ok tt) Example.db)
       = res 201 (data_created it)
       /\ Itinerary.userId it = Example.alice_id
       /\ Itinerary.days it
          = Some (JArray [JObject []; JObject []; JObject []])
       /\ Itinerary.destination it = Example.str "Paris, France".
Proof.
  set (raw := Example.json "{'days':[{},{},{}],'destination':'Paris, France'}").
  set (members := [(txt "days", JArray [JObject []; JObject []; JObject []]);
                   (txt "destination", JString (txt "Paris, France"))]).
  assert (Hparse : Generate.parseItineraryData raw = Ok (JObject members))
    by (vm_compute; reflexivity).
  split; [exact Hparse|].
  destruct (generate_stores_payload Example.schema Example.new_id 30
              Example2.never_zero Example2.fixed_title Example2.same_value
              (Example2.answers raw)
              Example2.alice_session Example2.paris_request Example.db
              raw eq_refl eq_refl eq_refl eq_refl
              members (JObject []) [JObject []; JObject []] Hparse eq_refl)
    as [[Hfail _] | [it [Hres [Howner [_ [_ [_ [Hdays [Hdest _]]]]]]]]].
  - vm_compute in Hfail. discriminate Hfail.
  - exists it. rewrite Hres. split; [reflexivity|].
    split; [|split; [exact Hdays | exact Hdest]].
    vm_compute in Howner. injection Howner as Ho. symmetry. exact Ho.
Defined.

(* ================================================================= *)
(** ** Ingestion pipeline: what the fallback can extract *)

Lemma up_to_last_brace_None_inv (s : Text) :
  Generate.up_to_last_brace s = None -> ~ In Generate.close_brace s.
Proof.
  induction s as [|c s IH]; simpl; [tauto|].
  destruct (Generate.up_to_last_brace s); [discriminate|].
  destruct (Json.char_is c "}") eqn:E; [discriminate|].
  intros _ [H|H]; [|exact (IH eq_refl H)].
  subst c. discriminate E.
Qed.

Lemma up_to_last_brace_sound (s m : Text) :
  Generate.up_to_last_brace s = Some m ->
  exists a post,
    s = m ++ post /\ m = a ++ [Generate.close_brace]
    /\ ~ In Generate.close_brace post.
Proof.
  revert m. induction s as [|c s IH]; simpl; intros m H; [discriminate|].
  destruct (Generate.up_to_last_brace s) as [m'|] eqn:E.
  - injection H as <-. destruct (IH m' eq_refl) as [a [post [Hs [Hm Hpost]]]].
    exists (c :: a), post. subst m'. rewrite Hs at 1. auto.
  - destruct (Json.char_is c "}") eqn:Ec; [|discriminate].
    injection H as <-. apply is_close_brace in Ec. subst c.
    exists [], s. split; [reflexivity|]. split; [reflexivity|].
    apply up_to_last_brace_None_inv. exact E.
Qed.

Lemma match_braces_needs_close (s : Text) :
  ~ In Generate.close_brace s -> Generate.match_braces s = None.
Proof.
  induction s as [|c s IH]; simpl; intros Hnot; [reflexivity|].
  rewrite (up_to_last_brace_none s) by tauto.
  rewrite IH by tauto. destruct (Json.char_is c "{"); reflexivity.
Qed.

(** The shape of a match of the fallback's regular expression. *)
Lemma match_braces_shape (s m : Text) :
  Generate.match_braces s = Some m ->
  exists pre mid post,
    s = pre ++ m ++ post
    /\ m = Generate.open_brace :: mid ++ [Generate.close_brace]
    /\ ~ In Generate.open_brace pre
    /\ ~ In Generate.close_brace post.
Proof.
  revert m. induction s as [|c s IH]; simpl; intros m H; [discriminate|].
  destruct (Json.char_is c "{") eqn:Ec.
  - apply is_open_brace in Ec. subst c.
    destruct (Generate.up_to_last_brace s) as [m'|] eqn:E.
    + injection H as <-.
      destruct (up_to_last_brace_sound s m' E) as [a [post [Hs [Hm Hpost]]]].
      exists [], a, post. subst m'. rewrite Hs at 1. simpl. auto.
    + rewrite match_braces_needs_close in H; [discriminate|].
      apply up_to_last_brace_None_inv. exact E.
  - destruct (IH m H) as [pre [mid [post [Hs [Hm [Hpre Hpost]]]]]].
    exists (c :: pre), mid, post. rewrite Hs at 1.
    split; [reflexivity|]. split; [exact Hm|]. split; [|exact Hpost].
    intros [Hc|Hin]; [|exact (Hpre Hin)].
    subst c. discriminate Ec.
Qed.

(** X19. What the regular expression of the fallback extracts is a part
    of the text that begins with an opening brace and ends with a closing
    brace, with no opening brace before it and no closing brace after it:
    the span from the first [{] to the last [}]. *)
Theorem match_braces_sound (s m : Text) :
  Generate.match_braces s = Some m ->
  exists pre mid post,
    s = pre ++ m ++ post
    /\ m = Generate.open_brace :: mid ++ [Generate.close_brace]
    /\ ~ In Generate.open_brace pre
    /\ ~ In Generate.close_brace post.
Proof. exact (match_braces_shape s m). Qed.

Lemma match_braces_sound_witness :
  Generate.match_braces (txt "Plan: {a} and {b}. Enjoy")
  = Some (txt "{a} and {b}")
  /\ exists pre mid post,
       txt "Plan: {a} and {b}. Enjoy" = pre ++ txt "{a} and {b}" ++ post
       /\ txt "{a} and {b}"
          = Generate.open_brace :: mid ++ [Generate.close_brace]
       /\ ~ In Generate.open_brace pre
       /\ ~ In Generate.close_brace post.
Proof.
  split; [reflexivity|].
  exact (match_braces_sound (txt "Plan: {a} and {b}. Enjoy")
           (txt "{a} and {b}") eq_refl).
Defined.

Lemma parse_members_object (f : nat) :
  forall s acc v rest,
    Json.parse_members f s acc = Some (v, rest) ->
    exists members, v = JObject members.
Proof.
  induction f as [|f IH]; intros s acc v rest H; [discriminate|].
  cbn [Json.parse_members] in H.
  destruct (Json.skip_ws s) as [|c t]; [discriminate|].
  destruct (N.eqb c Json.quote); [|discriminate].
  destruct (Json.parse_string_body t []) as [[k r1]|]; [|discriminate].
  destruct (Json.skip_ws r1) as [|c' t']; [discriminate|].
  destruct (Json.char_is c' ":"); [|discriminate].
  destruct (Json.parse_value f t') as [[v1 r2]|]; [|discriminate].
  destruct (Json.skip_ws r2) as [|c'' t'']; [discriminate|].
  destruct (Json.char_is c'' ",").
  - exact (IH _ _ _ _ H).
  - destruct (Json.char_is c'' "}"); [|discriminate].
    injection H as <- _. eexists. reflexivity.
Qed.

Lemma parse_brace_object (t : Text) (v : JSON) :
  Json.parse (Generate.open_brace :: t) = Some v ->
  exists members, v = JObject members.
Proof.
  unfold Json.parse. cbn [Json.parse_value].
  assert (Hws : Json.skip_ws (Generate.open_brace :: t) = Generate.open_brace :: t)
    by reflexivity.
  assert (Hb : Json.char_is Generate.open_brace "{" = true) by reflexivity.
  rewrite Hws, Hb.
  destruct (Json.skip_ws t) as [|c' t']; [discriminate|].
  destruct (Json.char_is c' "}").
  - cbv beta iota. destruct (Json.skip_ws t'); [|discriminate].
    intros H; injection H as <-. eexists. reflexivity.
  - destruct (Json.parse_members _ _ _) as [[v' rest]|] eqn:E; [|discriminate].
    destruct (Json.skip_ws rest); [|discriminate].
    intros H; injection H as <-. exact (parse_members_object _ _ _ _ _ E).
Qed.

(** X20. When the direct parse of the generated text fails, the fallback
    can only produce a JSON object: an array, a string, a number or a
    literal wrapped in prose or in a fenced block is never recovered, and
    the fallback never yields [null]. *)
Theorem fallback_yields_object (raw : Text) (v : JSON) :
  Json.parse raw = None ->
  Generate.parseItineraryData raw = Ok v ->
  exists members, v = JObject members.
Proof.
  unfold Generate.parseItineraryData. intros ->.
  destruct (Generate.match_braces (Generate.clean raw)) as [m|] eqn:Em;
    [|discriminate].
  destruct (match_braces_shape _ _ Em) as [pre [mid [post [_ [Hm _]]]]].
  subst m.
  destruct (Json.parse _) as [v'|] eqn:Ep; [|discriminate].
  intros H; injection H as <-. exact (parse_brace_object _ _ Ep).
Qed.

Lemma fallback_yields_object_witness :
  Json.parse (Example.json "Here is your plan: {'days':[{}]}") = None
  /\ Generate.parseItineraryData
       (Example.json "Here is your plan: {'days':[{}]}")
     = Ok (JObject [(txt "days", JArray [JObject []])])
  /\ exists members,
       JObject [(txt "days", JArray [JObject []])] = JObject members.
Proof.
  assert (H1 : Json.parse (Example.json "Here is your plan: {'days':[{}]}")
               = None) by (vm_compute; reflexivity).
  assert (H2 : Generate.parseItineraryData
                 (Example.json "Here is your plan: {'days':[{}]}")
               = Ok (JObject [(txt "days", JArray [JObject []])]))
    by (vm_compute; reflexivity).
  split; [exact H1|]. split; [exact H2|].
  exact (fallback_yields_object _ _ H1 H2).
Defined.

(* ================================================================= *)
(** ** The itinerary page on the responses of the server *)

Lemma canonical_not_object_literal (u : ObjectId) :
  canonical u = true -> toString u <> txt "[object Object]".
Proof.
  unfold canonical. intros H Heq. rewrite Heq in H. discriminate H.
Qed.

Lemma canonical_not_empty (u : ObjectId) :
  canonical u = true -> toString u <> [].
Proof.
  unfold canonical. intros H Heq. rewrite Heq in H. discriminate H.
Qed.

Lemma toString_inj (a b : ObjectId) : toString a = toString b -> a = b.
Proof. destruct a, b; simpl; congruence. Qed.

Lemma User_findById_id (i : ObjectId) (db : Store) (usr : User.t) :
  User_findById i db = Some usr -> User._id usr = i /\ In usr (users db).
Proof.
  unfold User_findById. intros H. apply find_some in H.
  destruct H as [Hin Heq]. apply oid_eqb_eq in Heq. auto.
Qed.

(** X21. On the itinerary that a response carries, the ownership test of
    the page is false for every signed-in user, the owner included: the
    owner arrives as a populated record (or as [null]), and the test
    compares the session identifier with the record's [toString()].  So
    the collaboration section is shown exactly when [isCollaborator]
    holds. *)
Theorem isOwner_false_on_response (p : Populated) (u : ObjectId) :
  canonical u = true ->
  Detail.isOwner (Some (ItineraryPage.received p)) (Some (toString u)) = false
  /\ ItineraryPage.showsCollaboration (Some (ItineraryPage.received p))
       (Some (toString u))
     = Detail.isCollaborator (Some (ItineraryPage.received p))
         (Some (toString u)).
Proof.
  intros Hu.
  assert (Hno : Detail.isOwner (Some (ItineraryPage.received p))
                  (Some (toString u)) = false).
  { simpl. destruct (owner p) as [v|]; simpl; [|reflexivity].
    apply text_eqb_neq. apply canonical_not_object_literal. exact Hu. }
  split; [exact Hno|].
  unfold ItineraryPage.showsCollaboration. rewrite Hno. reflexivity.
Qed.

Lemma isOwner_false_on_response_witness :
  canonical Example.alice_id = true
  /\ Itinerary.userId Example.paris = Example.alice_id
  /\ Detail.isOwner
       (Some (ItineraryPage.received (populate Example.db Example.paris)))
       (Some (toString Example.alice_id))
     = false.
Proof.
  split; [reflexivity|]. split; [reflexivity|].
  exact (proj1 (isOwner_false_on_response
                  (populate Example.db Example.paris) Example.alice_id
                  eq_refl)).
Defined.

(** X22. On the itinerary that a response carries, the collaborator test
    of the page holds for a signed-in user exactly when the stored
    itinerary lists that user as collaborator and the user record still
    exists (population drops a reference that does not resolve). *)
Theorem isCollaborator_on_response (db : Store) (it : Itinerary.t)
    (u : ObjectId) :
  canonical u = true ->
  (Detail.isCollaborator (Some (ItineraryPage.received (populate db it)))
     (Some (toString u)) = true
   <-> In u (Itinerary.collaborators it)
       /\ exists usr, User_findById u db = Some usr).
Proof.
  intros Hu. pose proof (canonical_not_object_literal u Hu) as Hlit.
  simpl. rewrite existsb_exists. split.
  - intros [v [Hin Hsame]]. apply in_map_iff in Hin.
    destruct Hin as [w [<- Hw]]. apply in_flat_map in Hw.
    destruct Hw as [c [Hc Hwc]].
    destruct (User_findById c db) as [usr|] eqn:Ef; [|contradiction].
    destruct Hwc as [<-|[]].
    unfold ItineraryPage.expanded in Hsame.
    apply (same_user_Expanded _ _ _ _ Hlit) in Hsame. simpl in Hsame.
    injection Hsame as Hid. apply toString_inj in Hid.
    destruct (User_findById_id c db usr Ef) as [Hc' _].
    assert (Hcu : c = u) by congruence. rewrite Hcu in Hc, Ef.
    split; [exact Hc | exists usr; exact Ef].
  - intros [Hin [usr Ef]].
    destruct (User_findById_id u db usr Ef) as [Hid _].
    exists (ItineraryPage.expanded (view usr)). split.
    + apply in_map. apply in_flat_map. exists u. split; [exact Hin|].
      rewrite Ef. left. reflexivity.
    + unfold ItineraryPage.expanded.
      apply (same_user_Expanded _ _ _ _ Hlit). simpl. rewrite Hid. reflexivity.
Qed.

Lemma isCollaborator_on_response_witness :
  canonical Example.bob_id = true
  /\ Detail.isCollaborator
       (Some (ItineraryPage.received (populate Example.db Example.paris)))
       (Some (toString Example.bob_id))
     = true.
Proof.
  split; [reflexivity|].
  apply (isCollaborator_on_response Example.db Example.paris Example.bob_id
           eq_refl).
  split; [left; reflexivity | exists Example.bob; reflexivity].
Defined.

Section RemoveFromPage.
Variable castEmail : Text -> Text.
Variable db : Store.
Variables u i : ObjectId.
Variable it : Itinerary.t.
Hypothesis Hu : canonical u = true.
Hypothesis Hi : canonical i = true.
Hypothesis Hids : NoDup (map Itinerary._id (itineraries db)).
Hypothesis Hstored : In it (itineraries db).
Hypothesis Hid : Itinerary._id it = i.
Hypothesis Howner : Itinerary.userId it = u.

(** X23. The identifier that the remove button takes from a collaborator
    entry of a response is the collaborator's identifier, and the remove
    request made with it by the owner takes exactly that collaborator off
    the stored list. *)
Theorem remove_button_removes_entry (c : ObjectId) (usr : User.t) :
  canonical c = true ->
  In c (Itinerary.collaborators it) ->
  User_findById c db = Some usr ->
  let entry := ItineraryPage.expanded (view usr) in
  let r := Collaborate.handler castEmail (signed_in (toString u)) "DELETE"
             (toString i) (remove_request (ItineraryPage.removalId entry)) db in
  In entry
    (or_else (Detail.collaborators (ItineraryPage.received (populate db it))) [])
  /\ ItineraryPage.removalId entry = toString c
  /\ status (fst r) = 200
  /\ exists it',
       find (has_id i) (itineraries (snd r)) = Some it'
       /\ (forall c', In c' (Itinerary.collaborators it') <->
                      In c' (Itinerary.collaborators it) /\ c' <> c).
Proof.
  intros Hc Hin Hfound. cbv zeta.
  destruct (User_findById_id c db usr Hfound) as [Husr _].
  pose proof (canonical_not_empty c Hc) as Hne.
  assert (Hrid : ItineraryPage.removalId (ItineraryPage.expanded (view usr))
                 = toString c).
  { unfold ItineraryPage.removalId, ItineraryPage.expanded. simpl.
    rewrite Husr. destruct (toString c); [congruence | reflexivity]. }
  split; [|split; [exact Hrid|]].
  - simpl. apply in_map. apply in_flat_map. exists c. split; [exact Hin|].
    rewrite Hfound. left. reflexivity.
  - rewrite Hrid.
    pose proof (remove_response castEmail db u i Hu Hi (toString c)
                  (itineraries db) it Hne Hids Hstored Hid Howner) as Hrm.
    cbv zeta in Hrm. rewrite with_itineraries_same in Hrm. rewrite Hrm.
    split; [reflexivity|].
    set (it' := Itinerary.with_collaborators _ it).
    exists it'. split.
    + destruct (save_over i (itineraries db) it it' Hids Hstored Hid Hid)
        as [Hnd' [Hin' _]].
      apply (administer_finds u i _ it' Hnd' Hin' Hid Howner).
    + intros c'. unfold it'. rewrite collaborators_with, without_In.
      split; intros [H1 H2]; (split; [exact H1|]).
      * intros ->. apply H2. reflexivity.
      * intros Heq. apply H2. apply toString_inj. exact Heq.
Qed.
End RemoveFromPage.

Lemma remove_button_witness :
  canonical Example.alice_id = true /\ canonical Example.paris_id = true
  /\ canonical Example.bob_id = true
  /\ In Example.bob_id (Itinerary.collaborators Example.paris)
  /\ User_findById Example.bob_id Example.db = Some Example.bob
  /\ ItineraryPage.removalId (ItineraryPage.expanded (view Example.bob))
     = toString Example.bob_id.
Proof.
  split; [reflexivity|]. split; [reflexivity|]. split; [reflexivity|].
  split; [left; reflexivity|]. split; [reflexivity|].
  destruct (remove_button_removes_entry (fun e => e) Example.db
              Example.alice_id Example.paris_id Example.paris
              eq_refl eq_refl example_ids_distinct (or_introl eq_refl)
              eq_refl eq_refl Example.bob_id Example.bob
              eq_refl (or_introl eq_refl) eq_refl)
    as [_ [Hrid _]].
  exact Hrid.
Defined.

(* ================================================================= *)
(** ** The creation form *)

Lemma includes_In (l : list Text) (x : Text) :
  Create.includes l x = true <-> In x l.
Proof.
  unfold Create.includes. rewrite existsb_exists. split.
  - intros [y [Hin Heq]]. apply text_eqb_eq in Heq. subst. exact Hin.
  - intros Hin. exists x. split; [exact Hin | apply text_eqb_refl].
Qed.

Lemma In_drop (x y : Text) (l : list Text) :
  In y (filter (fun i => negb (text_eqb i x)) l) <-> In y l /\ y <> x.
Proof. rewrite filter_In, negb_true_iff, text_eqb_neq. tauto. Qed.

(** X24. Toggling an interest flips whether it is selected and nothing
    else: every other interest is selected after exactly when it was
    before, the other fields of the form are untouched, and a selection
    without duplicates stays without duplicates. *)
Theorem toggle_flips_one_interest (interest : Text) (prev : Create.FormData) :
  let next := Create.handleInterestToggle interest prev in
  (In interest (Create.interests next) <-> ~ In interest (Create.interests prev))
  /\ (forall other, other <> interest ->
        (In other (Create.interests next) <-> In other (Create.interests prev)))
  /\ (NoDup (Create.interests prev) -> NoDup (Create.interests next))
  /\ Create.destination next = Create.destination prev
  /\ Create.days next = Create.days prev
  /\ Create.budget next = Create.budget prev.
Proof.
  cbv zeta. unfold Create.handleInterestToggle. simpl.
  destruct (Create.includes (Create.interests prev) interest) eqn:E.
  - apply includes_In in E.
    split; [|split; [|split; [|repeat split]]].
    + rewrite In_drop. tauto.
    + intros other Hother. rewrite In_drop. tauto.
    + apply NoDup_filter.
  - assert (Hnot : ~ In interest (Create.interests prev)).
    { intros H. apply includes_In in H. congruence. }
    split; [|split; [|split; [|repeat split]]].
    + rewrite in_app_iff. simpl. tauto.
    + intros other Hother. rewrite in_app_iff. simpl.
      split; [intros [H|[H|[]]]; [exact H | congruence] | tauto].
    + intros Hnd. apply NoDup_app; [exact Hnd | repeat constructor; simpl; tauto|].
      intros x Hx [<-|[]]. contradiction.
Qed.

Lemma drop_absent (x : Text) (l : list Text) :
  ~ In x l -> filter (fun i => negb (text_eqb i x)) l = l.
Proof.
  induction l as [|y l IH]; simpl; intros H; [reflexivity|].
  assert (Hy : text_eqb y x = false) by (apply text_eqb_neq; tauto).
  rewrite Hy. simpl. f_equal. apply IH. tauto.
Qed.

Lemma drop_once (x : Text) (l : list Text) :
  NoDup l -> In x l ->
  Permutation (filter (fun i => negb (text_eqb i x)) l ++ [x]) l.
Proof.
  induction l as [|y l IH]; simpl; intros Hnd Hin; [contradiction|].
  inversion Hnd as [|? ? Hnotin Hnd']; subst.
  destruct (text_eqb y x) eqn:E; simpl.
  - apply text_eqb_eq in E. subst y. rewrite (drop_absent x l Hnotin).
    apply Permutation_sym. apply Permutation_cons_append.
  - apply perm_skip. apply IH; [assumption|].
    destruct Hin as [->|H]; [|exact H].
    rewrite text_eqb_refl in E. discriminate.
Qed.

(** X25. Toggling the same interest twice gives the selection back: the
    form itself when the interest was not selected, and otherwise, for a
    selection without duplicates, the same interests with the toggled one
    moved to the end. *)
Theorem toggle_twice (interest : Text) (prev : Create.FormData) :
  NoDup (Create.interests prev) ->
  let twice :=
    Create.handleInterestToggle interest
      (Create.handleInterestToggle interest prev) in
  Permutation (Create.interests twice) (Create.interests prev)
  /\ (~ In interest (Create.interests prev) -> twice = prev).
Proof.
  intros Hnd. cbv zeta. unfold Create.handleInterestToggle. simpl.
  destruct (Create.includes (Create.interests prev) interest) eqn:E.
  - apply includes_In in E.
    assert (Hout : Create.includes
                     (filter (fun i => negb (text_eqb i interest))
                        (Create.interests prev)) interest = false).
    { destruct (Create.includes _ interest) eqn:E'; [|reflexivity].
      apply includes_In, In_drop in E'. tauto. }
    rewrite Hout. split; [apply drop_once; assumption | tauto].
  - assert (Hnot : ~ In interest (Create.interests prev)).
    { intros H. apply includes_In in H. congruence. }
    assert (Hin : Create.includes (Create.interests prev ++ [interest]) interest
                  = true).
    { apply includes_In. apply in_or_app. right. left. reflexivity. }
    rewrite Hin.
    assert (Hback : filter (fun i => negb (text_eqb i interest))
                      (Create.interests prev ++ [interest])
                    = Create.interests prev).
    { rewrite filter_app. simpl. rewrite text_eqb_refl. simpl.
      rewrite app_nil_r. apply drop_absent. exact Hnot. }
    rewrite Hback. split; [reflexivity|].
    intros _. destruct prev; reflexivity.
Qed.

Lemma toggle_twice_witness :
  NoDup [txt "Food & Dining"; txt "Museums"]
  /\ Create.interests
       (Create.handleInterestToggle (txt "Food & Dining")
          (Create.handleInterestToggle (txt "Food & Dining")
             {| Create.destination := txt "Paris"; Create.days := txt "3";
                Create.budget := txt "$1000";
                Create.interests := [txt "Food & Dining"; txt "Museums"] |}))
     = [txt "Museums"; txt "Food & Dining"]
  /\ Permutation [txt "Museums"; txt "Food & Dining"]
       [txt "Food & Dining"; txt "Museums"].
Proof.
  assert (Hnd : NoDup [txt "Food & Dining"; txt "Museums"]).
  { repeat constructor; simpl; intros H;
      repeat (destruct H as [H|H]; [discriminate H|]); exact H. }
  split; [exact Hnd|]. split; [reflexivity|].
  exact (proj1 (toggle_twice (txt "Food & Dining")
                  {| Create.destination := txt "Paris"; Create.days := txt "3";
                     Create.budget := txt "$1000";
                     Create.interests := [txt "Food & Dining"; txt "Museums"] |}
                  Hnd)).
Defined.

(* ================================================================= *)
(** ** The creation form and the generation handler *)

Section FormAndServer.
Variable sch : Schema.
Variable fresh : ObjectId.
Variable now : nat.
Variable isZero : Text -> bool.
Variable titleOf : JSValue -> JSValue -> JSValue.
Variable parseInt : JSValue -> JSValue.
Variable generateItinerary : JSValue -> JSValue -> JSValue -> JSValue -> Result Text.

Lemma generate_status_after_guard (user : Session.User)
    (reqBody : Generate.Body) (dbConnect : Result unit) (db : Store) :
  negb (Generate.truthy isZero (Generate.destination reqBody))
  || negb (Generate.truthy isZero (Generate.days reqBody))
  || negb (Generate.truthy isZero (Generate.budget reqBody)) = false ->
  let r := Generate.handler sch fresh now isZero titleOf parseInt
             generateItinerary (Some {| Session.user := Some user |}) "POST"
             reqBody dbConnect db in
  status (fst r) = 201 \/ status (fst r) = 500.
Proof.
  intros Hguard. cbv zeta. unfold Generate.handler. simpl. rewrite Hguard.
  destruct dbConnect as [[]|e]; [|right; reflexivity].
  destruct (generateItinerary _ _ _ _) as [raw|e]; simpl; [|right; reflexivity].
  destruct (Generate.parseItineraryData raw) as [parsedData|e]; simpl;
    [|right; reflexivity].
  destruct (Generate.prop parsedData "days") as [parsedDays|e]; simpl;
    [|right; reflexivity].
  destruct (negb (Generate.truthy isZero parsedDays)
            || negb (Generate.isArray parsedDays)); [right; reflexivity|].
  destruct (Generate.array_length parsedDays =? 0)%nat; [right; reflexivity|].
  destruct (Generate.prop parsedData "destination") as [d1|e]; simpl;
    [|right; reflexivity].
  destruct (Generate.prop parsedData "totalDays") as [d2|e]; simpl;
    [|right; reflexivity].
  destruct (Generate.prop parsedData "budget") as [d3|e]; simpl;
    [|right; reflexivity].
  destruct (Generate.prop parsedData "interests") as [d4|e]; simpl;
    [|right; reflexivity].
  destruct (Generate.prop parsedData "summary") as [d5|e]; simpl;
    [|right; reflexivity].
  destruct (Itinerary_create _ _ _ _ _) as [[it db']|e]; simpl;
    [left | right]; reflexivity.
Qed.

(** X26. The form and the handler apply the same test to the required
    fields: for the body that the form sends, the generation handler answers
    400 exactly when the form's own check would have held the request back.
    So a request that the form does send is never rejected for a missing
    field. *)
Theorem form_and_server_agree (formData : Create.FormData)
    (user : Session.User) (dbConnect : Result unit) (db : Store) :
  status (fst (Generate.handler sch fresh now isZero titleOf parseInt
                 generateItinerary (Some {| Session.user := Some user |})
                 "POST" (Create.requestBody formData) dbConnect db))
  = 400
  <-> Create.submits formData = false.
Proof.
  assert (Hguard :
    negb (Generate.truthy isZero
            (Generate.destination (Create.requestBody formData)))
    || negb (Generate.truthy isZero
               (Generate.days (Create.requestBody formData)))
    || negb (Generate.truthy isZero
               (Generate.budget (Create.requestBody formData)))
    = negb (Create.submits formData)).
  { unfold Create.submits, Create.requestBody. simpl.
    destruct (Create.destination formData), (Create.days formData),
      (Create.budget formData); reflexivity. }
  destruct (Create.submits formData) eqn:E.
  - split; [|discriminate]. intros H.
    destruct (generate_status_after_guard user (Create.requestBody formData)
                dbConnect db Hguard) as [H'|H'];
      rewrite H' in H; discriminate H.
  - split; [reflexivity|]. intros _.
    unfold Generate.handler. simpl. simpl in Hguard. rewrite Hguard.
    reflexivity.
Qed.
End FormAndServer.

